(** * MathLib: the numeric-literal engine of cppcheck (lib/mathlib.cpp)

    A shallow embedding of [MathLib] and of the parts of the C and C++
    run-time libraries it calls, followed by the properties of the
    literal classifier, the converters, the arithmetic evaluator and the
    comparison evaluator. *)

From Stdlib Require Import ZArith NArith Bool List Ascii String Lia.
From Stdlib Require Import SpecFloat.
From Stdlib Require Import Reals Lra.
Import ListNotations.

Local Open Scope string_scope.
Local Open Scope bool_scope.

(** ** <cctype> in the "C" locale *)

Module cctype.

Definition code (c : ascii) : N := N_of_ascii c.

(** [std::isspace]: space, \t, \n, \v, \f, \r. *)
Definition isspace (c : ascii) : bool :=
  ((code c =? 32) || ((9 <=? code c) && (code c <=? 13)))%N.

Definition isdigit (c : ascii) : bool :=
  ((48 <=? code c) && (code c <=? 57))%N.

Definition isxdigit (c : ascii) : bool :=
  (isdigit c
   || ((97 <=? code c) && (code c <=? 102))
   || ((65 <=? code c) && (code c <=? 70)))%N.

Definition tolower (c : ascii) : ascii :=
  if ((65 <=? code c) && (code c <=? 90))%N
  then ascii_of_N (code c + 32) else c.

End cctype.

(** ** std::string, as far as MathLib uses it *)

Module basic_string.

Definition size (s : string) : nat := String.length s.

(** [s.find(str, pos)]; [None] is [npos]. *)
Definition find (s str : string) (pos : nat) : option nat :=
  String.index pos str s.

Fixpoint mem (c : ascii) (set : string) : bool :=
  match set with
  | EmptyString => false
  | String d set' => Ascii.eqb c d || mem c set'
  end.

(** [s.find_first_of(set)]. *)
Fixpoint find_first_of (s set : string) : option nat :=
  match s with
  | EmptyString => None
  | String c s' =>
      if mem c set then Some O
      else option_map S (find_first_of s' set)
  end.

(** [s.compare(pos, len, str)], for [pos <= size()]: the comparison of
    the (clipped) substring with [str]. *)
Definition compare (s : string) (pos len : nat) (str : string) : comparison :=
  String.compare (String.substring pos len s) str.

Definition found (r : option nat) : bool :=
  match r with Some _ => true | None => false end.

End basic_string.

(** [s[n]] on a const string: the character at [n], and the null
    character at [n = size()].  MathLib never reads further. *)
Definition at_ (s : string) (n : nat) : ascii :=
  match String.get n s with
  | Some c => c
  | None => Ascii.zero
  end.

(** A [while (p(s[n])) ++n;] loop, run for at most [fuel] iterations. *)
Fixpoint while_at (p : ascii -> bool) (s : string) (fuel n : nat) : nat :=
  match fuel with
  | O => n
  | S fuel' => if p (at_ s n) then while_at p s fuel' (S n) else n
  end.

(** Every such loop of MathLib tests a class the null character is not
    in, so it leaves the string after at most [size()] increments. *)
Definition loop (p : ascii -> bool) (s : string) (n : nat) : nat :=
  while_at p s (S (basic_string.size s)) n.

Definition is_char (c : ascii) (x : ascii) : bool := Ascii.eqb x c.

(** ** The literal classifier *)

Module Classifier.
Import cctype.

Definition isOctalDigit (c : ascii) : bool :=
  is_char "0" c || is_char "1" c || is_char "2" c || is_char "3" c
  || is_char "4" c || is_char "5" c || is_char "6" c || is_char "7" c.

Definition isFloat (s : string) : bool :=
  if basic_string.found (basic_string.find s "." 0) then true
  else basic_string.found (basic_string.find s "E-" 0)
       || basic_string.found (basic_string.find s "e-" 0).

Definition isNegative (s : string) : bool :=
  let n := 0%nat in
  let n := loop isspace s n in
  is_char "-" (at_ s n).

Definition isOct (str : string) : bool :=
  let sign := is_char "-" (at_ str 0) || is_char "+" (at_ str 0) in
  is_char "0" (at_ str (if sign then 1 else 0))
  && ((basic_string.size str =? 1)%nat
      || isOctalDigit (at_ str (if sign then 2 else 1)))
  && negb (isFloat str).

Definition is_equal (c : comparison) : bool :=
  match c with Eq => true | _ => false end.

Definition isHex (str : string) : bool :=
  let sign := is_char "-" (at_ str 0) || is_char "+" (at_ str 0) in
  is_equal (basic_string.compare str (if sign then 1 else 0) 2 "0x")
  || is_equal (basic_string.compare str (if sign then 1 else 0) 2 "0X").

Inductive Representation : Set :=
| eScientific  (* NumberE+Number or NumberENumber *)
| eOctal       (* starts with 0 *)
| eHex         (* starts with 0x *)
| eDefault.    (* Numbers with a (possible) trailing u or U or l or L *)

Definition unsigned_or_long (c : ascii) : bool :=
  is_char "u" (tolower c) || is_char "l" (tolower c).

(** The mode-specific part of [isInt]: the scan position it leaves, or
    [None] where the source returns false from inside it. *)
Definition isInt_scan (Mode : Representation) (s : string) (n : nat)
  : option nat :=
  match Mode with
  | eScientific =>
      let n := loop isdigit s n in
      if is_char "e" (tolower (at_ s n)) then
        let n := S n in
        let n := if is_char "+" (at_ s n) then S n else n in
        if is_char "-" (at_ s n) then None
        else Some (loop isdigit s n)
      else Some n
  | eHex =>
      let n := S n in (* 0 *)
      let n := S n in (* x *)
      let n := loop isxdigit s n in
      Some (loop unsigned_or_long s n)
  | eOctal =>
      let n := S n in (* 0 *)
      let n := loop isOctalDigit s n in
      Some (loop unsigned_or_long s n)
  | eDefault =>
      (* the digit loop sets the flag iff its body runs at least once *)
      let bStartsWithDigit := isdigit (at_ s n) in
      let n := loop isdigit s n in
      let n := loop unsigned_or_long s n in
      if negb bStartsWithDigit then None else Some n
  end.

Definition isInt (s : string) : bool :=
  if basic_string.found (basic_string.find s "." 0) then false
  else if basic_string.found (basic_string.find s "E-" 0)
          || basic_string.found (basic_string.find s "e-" 0) then false
  else
    let Mode := eDefault in
    let n := 0%nat in
    let n := loop isspace s n in
    let Mode :=
      if basic_string.found (basic_string.find s "E" 0) then eScientific
      else if isHex s then eHex
      else if isOct s then eOctal
      else Mode in
    let n := if is_char "-" (at_ s n) || is_char "+" (at_ s n) then S n else n in
    match isInt_scan Mode s n with
    | None => false
    | Some n =>
        let n := loop isspace s n in
        (basic_string.size s <=? n)%nat
    end.

Definition isNullValue (str : string) : bool :=
  String.eqb str "-0" || String.eqb str "0" || String.eqb str "+0"
  || String.eqb str "-0.0" || String.eqb str "0.0" || String.eqb str "+0.0"
  || String.eqb str "-0." || String.eqb str "+0."
  || String.eqb str "-0E-00" || String.eqb str "-0E+00"
  || String.eqb str "+0E+00" || String.eqb str "+0E-00"
  || String.eqb str "-0e-00" || String.eqb str "-0e+00"
  || String.eqb str "+0e+00" || String.eqb str "+0e-00"
  || String.eqb str "-0E-0".

End Classifier.


(** ** Exact non-negative rationals

    The C library converts between decimal text and binary floating
    point exactly and rounds once; the conversions below compute on
    fractions [num / den] with [0 <= num] and [0 < den]. *)

Module Exact.

Record ratio : Set := mk { num : Z; den : Z }.

Definition of_Z (z : Z) : ratio := mk z 1.

(** [scale b r k] is [r * b ^ k], for any integer [k]. *)
Definition scale (b : Z) (r : ratio) (k : Z) : ratio :=
  if (0 <=? k)%Z then mk (num r * b ^ k) (den r)
  else mk (num r) (den r * b ^ (- k)).

Definition pow (b k : Z) : ratio := scale b (of_Z 1) k.

Definition ltb (r1 r2 : ratio) : bool :=
  (num r1 * den r2 <? num r2 * den r1)%Z.

Definition leb (r1 r2 : ratio) : bool :=
  (num r1 * den r2 <=? num r2 * den r1)%Z.

Definition floor (r : ratio) : Z := (num r / den r)%Z.

(** Rounding to the nearest integer, ties to the even one. *)
Definition round_half_even (r : ratio) : Z :=
  let q := (num r / den r)%Z in
  match (2 * (num r mod den r) ?= den r)%Z with
  | Lt => q
  | Gt => (q + 1)%Z
  | Eq => if Z.even q then q else (q + 1)%Z
  end.

(** The real number a fraction stands for, and integer powers. *)
Definition value (r : ratio) : R := (IZR (num r) / IZR (den r))%R.

Definition power (b k : Z) : R := powerRZ (IZR b) k.

Definition positive_ratio (r : ratio) : Prop := (0 < num r)%Z /\ (0 < den r)%Z.

(** [floor (log2 r)], for [0 < r]. *)
Definition ilog2 (r : ratio) : Z :=
  let g := (Z.log2 (num r) - Z.log2 (den r))%Z in
  if leb (pow 2 g) r then g else (g - 1)%Z.

(** [floor (log10 (a / b))] for [b <= a], counting up from [k] with
    [d = b * 10 ^ k <= a]: the first [k' >= k] with [a < b * 10 ^ (k' + 1)]. *)
Fixpoint grow (fuel : nat) (k a d : Z) : Z :=
  match fuel with
  | O => k
  | S fuel' => if (a <? 10 * d)%Z then k else grow fuel' (k + 1)%Z a (10 * d)%Z
  end.

(** [floor (log10 (a / b))] for [a < b], counting down from [k] with
    [n = a * 10 ^ (- k)]: the first [k' <= k] with [b * 10 ^ k' <= a]. *)
Fixpoint shrink (fuel : nat) (k n b : Z) : Z :=
  match fuel with
  | O => k
  | S fuel' => if (b <=? n)%Z then k else shrink fuel' (k - 1)%Z (10 * n)%Z b
  end.

(** [floor (log10 r)], for [0 < r]: its distance from 0 is at most that
    of [ilog2 r]. *)
Definition ilog10 (r : ratio) : Z :=
  let fuel := S (Z.abs_nat (ilog2 r)) in
  if (den r <=? num r)%Z then grow fuel 0 (num r) (den r)
  else shrink fuel (-1) (10 * num r) (den r).

End Exact.

(** ** IEEE 754 binary64 *)

Module binary64.
Import Exact.

Definition double : Set := spec_float.

Definition prec : Z := 53.
Definition emax : Z := 1024.

Definition add : double -> double -> double := SFadd prec emax.
Definition sub : double -> double -> double := SFsub prec emax.
Definition mul : double -> double -> double := SFmul prec emax.
Definition div : double -> double -> double := SFdiv prec emax.

(** [DBL_MAX], with the sign [s]. *)
Definition max_value (s : bool) : double :=
  S754_finite s (2 ^ 53 - 1) 971.

(** The magnitude of a finite double. *)
Definition magnitude (m : positive) (e : Z) : ratio :=
  scale 2 (of_Z (Zpos m)) e.

(** Round to nearest, ties to even; overflow gives an infinity. *)
Definition round (s : bool) (x : ratio) : double :=
  if (num x =? 0)%Z then S754_zero s
  else
    let e := Z.max (ilog2 x - 52) (-1074) in
    let m := round_half_even (scale 2 x (- e)) in
    let '(m, e) := if (m =? 2 ^ 53)%Z then (2 ^ 52, e + 1)%Z else (m, e) in
    match m with
    | Zpos m' => if (971 <? e)%Z then S754_infinity s else S754_finite s m' e
    | _ => S754_zero s
    end.

(** A normal number: 53 significant bits and an exponent in range. *)
Definition is_normal (d : double) : bool :=
  match d with
  | S754_finite _ m e =>
      ((2 ^ 52 <=? Zpos m) && (Zpos m <? 2 ^ 53)
       && (-1074 <=? e) && (e <=? 971))%Z
  | _ => false
  end.

(** The relational operators of C++ on doubles: every comparison with
    a NaN is false. *)
Definition lt (x y : double) : bool := SFltb x y.
Definition le (x y : double) : bool := SFleb x y.
Definition gt (x y : double) : bool :=
  match SFcompare x y with Some Gt => true | _ => false end.
Definition ge (x y : double) : bool :=
  match SFcompare x y with Some (Gt | Eq) => true | _ => false end.

(** [std::abs]: the sign is cleared. *)
Definition abs (x : double) : double := SFabs x.

(** A zero or a finite number: neither an infinity nor a NaN. *)
Definition is_finite (d : double) : bool :=
  match d with
  | S754_zero _ | S754_finite _ _ _ => true
  | _ => false
  end.

End binary64.

(** ** The bigint type

    Modelled from the spec: the typedef of [bigint] in mathlib.h, which
    is not among the sources.  The spec has integer values computed in
    an underlying fixed-width arithmetic whose overflow is not detected
    and may wrap; the model takes the 64-bit two's complement [long long]. *)

Module bigint.

Definition min : Z := - 2 ^ 63.
Definition max : Z := 2 ^ 63 - 1.

Definition in_range (z : Z) : bool := ((min <=? z) && (z <=? max))%Z.

Definition wrap (z : Z) : Z := ((z + 2 ^ 63) mod 2 ^ 64 - 2 ^ 63)%Z.

Definition add (a b : Z) : Z := wrap (a + b).
Definition sub (a b : Z) : Z := wrap (a - b).
Definition mul (a b : Z) : Z := wrap (a * b).

(** [a / b] truncates; a zero divisor and [min / -1] raise the
    processor's divide error. *)
Definition div (a b : Z) : option Z :=
  if (b =? 0)%Z then None
  else if ((a =? min) && (b =? -1))%Z then None
  else Some (Z.quot a b).

(** [static_cast<double>(z)]. *)
Definition to_double (z : Z) : binary64.double :=
  binary64.round (z <? 0)%Z (Exact.of_Z (Z.abs z)).

(** [static_cast<bigint>(d)]: truncation toward zero.  The conversion
    of a value out of range (or of an infinity or NaN) is undefined in
    C++; the model returns what x86-64's cvttsd2si does, [min]. *)
Definition of_double (d : binary64.double) : Z :=
  match d with
  | S754_zero _ => 0%Z
  | S754_finite s m e =>
      let t := Exact.floor (binary64.magnitude m e) in
      let v := if s then (- t)%Z else t in
      if in_range v then v else min
  | _ => min
  end.

Definition castable (d : binary64.double) : bool :=
  match d with
  | S754_zero _ => true
  | S754_finite s m e =>
      let t := Exact.floor (binary64.magnitude m e) in
      in_range (if s then (- t)%Z else t)
  | _ => false
  end.

End bigint.

(** ** Numerals as character lists *)

Module Numeral.
Import cctype.
Local Open Scope Z_scope.

Definition chars (s : string) : list ascii := list_ascii_of_string s.
Definition text (l : list ascii) : string := string_of_list_ascii l.

(** What is left of the string [s] at position [n]. *)
Definition tail_at (s : string) (n : nat) : list ascii := skipn n (chars s).

(** The longest prefix whose characters satisfy [p], and what follows. *)
Fixpoint span (p : ascii -> bool) (l : list ascii)
  : list ascii * list ascii :=
  match l with
  | c :: l' =>
      if p c then let '(run, rest) := span p l' in (c :: run, rest)
      else ([], l)
  | [] => ([], [])
  end.

Definition skip (p : ascii -> bool) (l : list ascii) : list ascii :=
  snd (span p l).

(** An optional sign: whether it is a minus, and what follows. *)
Definition sign (l : list ascii) : bool * list ascii :=
  match l with
  | c :: l' =>
      if is_char "-" c then (true, l')
      else if is_char "+" c then (false, l')
      else (false, l)
  | [] => (false, [])
  end.

Definition isoctdigit (c : ascii) : bool :=
  ((48 <=? code c) && (code c <=? 55))%N.

(** The value of a digit character in bases up to 16. *)
Definition digit_value (c : ascii) : Z :=
  if isdigit c then Z.of_N (code c) - 48
  else if (97 <=? code c)%N then Z.of_N (code c) - 87
  else Z.of_N (code c) - 55.

Definition number (base : Z) (ds : list ascii) : Z :=
  fold_left (fun acc c => acc * base + digit_value c)%Z ds 0%Z.

Definition digit_char (d : Z) : ascii := ascii_of_N (Z.to_N (48 + d)).

(** The [P] low decimal digits of [n], most significant first. *)
Fixpoint digits_onto (P : nat) (n : Z) (acc : list ascii) : list ascii :=
  match P with
  | O => acc
  | S P' => digits_onto P' (n / 10) (digit_char (n mod 10) :: acc)
  end.

Definition digits (P : nat) (n : Z) : list ascii := digits_onto P n [].

Fixpoint strip_leading_zeros (l : list ascii) : list ascii :=
  match l with
  | c :: (_ :: _) as l' => if is_char "0" c then strip_leading_zeros l' else l
  | _ => l
  end.

Definition strip_trailing_zeros (l : list ascii) : list ascii :=
  rev (skip (is_char "0") (rev l)).

(** The decimal digits of [n >= 0], without leading zeros. *)
Definition decimal (n : Z) : list ascii :=
  strip_leading_zeros (digits (S (Z.to_nat (Z.log2 n))) n).

End Numeral.

(** ** The C library: strtod and atof *)

Module libc.
Import cctype Numeral.
Local Open Scope Z_scope.

Definition is_e (c : ascii) : bool := is_char "e" (tolower c).
Definition is_p (c : ascii) : bool := is_char "p" (tolower c).
Definition is_x (c : ascii) : bool := is_char "x" (tolower c).

(** A mantissa in the digits [p]: the digits before and after the
    radix character, and what follows; [None] when it has no digit. *)
Definition mantissa (p : ascii -> bool) (l : list ascii)
  : option (list ascii * list ascii * list ascii) :=
  let '(ip, r) := span p l in
  let '(fp, r) :=
    match r with
    | c :: r' => if is_char "." c then span p r' else ([], r)
    | [] => ([], r)
    end in
  match (ip ++ fp)%list with
  | [] => None
  | _ => Some (ip, fp, r)
  end.

(** An exponent part after its letter: an optional sign and at least
    one decimal digit. *)
Definition exponent (l : list ascii) : option (Z * list ascii) :=
  let '(neg, r) := sign l in
  let '(ds, r) := span isdigit r in
  match ds with
  | [] => None
  | _ => Some (if neg then - number 10 ds else number 10 ds, r)
  end.

(** The optional exponent part introduced by a letter in [letter]:
    when none is well formed, the exponent is 0 and nothing is consumed. *)
Definition opt_exponent (letter : ascii -> bool) (l : list ascii)
  : Z * list ascii :=
  match l with
  | c :: r =>
      if letter c then
        match exponent r with
        | Some res => res
        | None => (0, l)
        end
      else (0, l)
  | [] => (0, l)
  end.

Definition decimal_value (ip fp : list ascii) (ex : Z) : Exact.ratio :=
  Exact.scale 10 (Exact.of_Z (number 10 (ip ++ fp)%list))
    (ex - Z.of_nat (List.length fp)).

Definition hex_value (ip fp : list ascii) (ex : Z) : Exact.ratio :=
  Exact.scale 2 (Exact.of_Z (number 16 (ip ++ fp)%list))
    (ex - 4 * Z.of_nat (List.length fp)).

Definition lower (l : list ascii) : list ascii := map tolower l.

Definition starts_with (word : string) (l : list ascii) : bool :=
  String.eqb (text (lower (firstn (String.length word) l))) word.

Definition is_nchar (c : ascii) : bool :=
  isdigit c || is_char "_" c
  || ((97 <=? code (tolower c)) && (code (tolower c) <=? 122))%N.

(** The unsigned part of strtod's subject sequence: the magnitude read
    and the rest of the input, [None] when no conversion is possible. *)
Definition strtod_unsigned (neg : bool) (l : list ascii)
  : option (binary64.double * list ascii) :=
  if starts_with "infinity" l then Some (S754_infinity neg, skipn 8 l)
  else if starts_with "inf" l then Some (S754_infinity neg, skipn 3 l)
  else if starts_with "nan" l then
    let r := skipn 3 l in
    Some (S754_nan,
          match r with
          | c :: r' =>
              if is_char "(" c then
                match skip is_nchar r' with
                | c' :: r'' => if is_char ")" c' then r'' else r
                | [] => r
                end
              else r
          | [] => r
          end)
  else
    let hex :=
      match l with
      | z :: x :: r =>
          if is_char "0" z && is_x x then
            match mantissa isxdigit r with
            | Some (ip, fp, r') =>
                let '(ex, r'') := opt_exponent is_p r' in
                Some (binary64.round neg (hex_value ip fp ex), r'')
            | None => None
            end
          else None
      | _ => None
      end in
    match hex with
    | Some res => Some res
    | None =>
        match mantissa isdigit l with
        | Some (ip, fp, r') =>
            let '(ex, r'') := opt_exponent is_e r' in
            Some (binary64.round neg (decimal_value ip fp ex), r'')
        | None => None
        end
    end.

(** [strtod(nptr, &endptr)]: the value and what [endptr] is left at. *)
Definition strtod (nptr : list ascii) : binary64.double * list ascii :=
  let '(neg, r) := sign (skip isspace nptr) in
  match strtod_unsigned neg r with
  | Some res => res
  | None => (S754_zero false, nptr)
  end.

Definition atof (nptr : string) : binary64.double :=
  fst (strtod (chars nptr)).

End libc.

(** ** The C++ streams: formatted extraction and insertion

    [std::istringstream >> x] and [std::ostringstream << x] in the "C"
    locale with the flags of a fresh stream, as libstdc++ implements
    [num_get] and [num_put] (C++11 [facet.num.get.virtuals]: a field
    that does not convert stores 0, a value too large stores the
    largest representable one). *)

Module iostream.
Import cctype Numeral libc.
Local Open Scope Z_scope.

(** The basefield flag set by [std::oct], [std::dec], [std::hex]. *)
Inductive basefield : Set := oct | dec | hex.

Definition base (f : basefield) : Z :=
  match f with oct => 8 | dec => 10 | hex => 16 end.

Definition of_base (f : basefield) : ascii -> bool :=
  match f with oct => isoctdigit | dec => isdigit | hex => isxdigit end.

(** With [std::hex], a "0x" or "0X" before the digits is skipped. *)
Definition base_prefix (f : basefield) (l : list ascii) : list ascii :=
  match f, l with
  | hex, z :: x :: r => if is_char "0" z && is_x x then r else l
  | _, _ => l
  end.

Definition clamp (neg : bool) (magnitude : Z) : Z :=
  if neg then Z.max (- magnitude) bigint.min
  else Z.min magnitude bigint.max.

(** [istr >> f >> ret] for a [long long ret]: white space is skipped;
    when nothing is left the sentry fails and [ret] keeps its value.
    Otherwise an optional sign, the prefix and the longest run of
    digits of the base are read; no digit at all stores 0. *)
Definition extract_bigint (f : basefield) (istr : list ascii) (ret : Z) : Z :=
  match skip isspace istr with
  | [] => ret
  | r =>
      let '(neg, r) := sign r in
      let '(ds, _) := span (of_base f) (base_prefix f r) in
      clamp neg (number (base f) ds)
  end.

Definition saturate (d : binary64.double) : binary64.double :=
  match d with
  | S754_infinity s => binary64.max_value s
  | _ => d
  end.

(** [istr >> ret] for a [double ret].  The field is a sign, digits with
    at most one point, and, once a digit was read, an exponent letter
    with an optional sign and digits; it is converted by [strtod] and
    must convert as a whole. *)
Definition extract_double (istr : list ascii) (ret : binary64.double)
  : binary64.double :=
  match skip isspace istr with
  | [] => ret
  | r =>
      let '(neg, r) := sign r in
      match mantissa isdigit r with
      | None => S754_zero false
      | Some (ip, fp, r') =>
          let whole ex := saturate (binary64.round neg (decimal_value ip fp ex)) in
          match r' with
          | c :: r'' =>
              if is_e c then
                match exponent r'' with
                | Some (ex, _) => whole ex
                | None => S754_zero false
                end
              else whole 0
          | [] => whole 0
          end
      end
  end.

(** [os << z] for a [long long z]. *)
Definition insert_bigint (z : Z) : list ascii :=
  if z <? 0 then "-"%char :: decimal (- z) else decimal z.

Definition sign_text (s : bool) : list ascii :=
  if s then ["-"%char] else [].

(** The fractional digits [fp] after their point; nothing when there
    are none. *)
Definition point_part (fp : list ascii) : list ascii :=
  match fp with
  | [] => []
  | _ :: _ => "."%char :: fp
  end.

(** Trailing zeros are removed from the fraction, and the point with
    an empty fraction. *)
Definition fraction (fp : list ascii) : list ascii :=
  point_part (strip_trailing_zeros fp).

(** The exponent of style e: a sign and at least two digits. *)
Definition exponent_part (X : Z) : list ascii :=
  "e"%char :: (if X <? 0 then "-"%char else "+"%char)
  :: (if Z.abs X <? 10 then digits 2 (Z.abs X) else decimal (Z.abs X)).

(** The digits [N] (exactly [P] of them) and the decimal exponent [X]
    of [x > 0] rounded to [P] significant digits:
    [x ~ N * 10 ^ (X - P + 1)] and [10 ^ (P - 1) <= N < 10 ^ P]. *)
Definition round_digits (P : nat) (x : Exact.ratio) : Z * Z :=
  let X := Exact.ilog10 x in
  let N := Exact.round_half_even (Exact.scale 10 x (Z.of_nat P - 1 - X)) in
  if N =? 10 ^ Z.of_nat P then (10 ^ (Z.of_nat P - 1), X + 1) else (N, X).

(** What may follow a mantissa: nothing, or an exponent part. *)
Definition ends_mantissa (rest : list ascii) : Prop :=
  rest = [] \/ exists X, rest = exponent_part X.

(** printf's style f, for [-4 <= X < P]. *)
Definition style_f (ds : list ascii) (X : Z) : list ascii :=
  if 0 <=? X then
    (firstn (S (Z.to_nat X)) ds ++ fraction (skipn (S (Z.to_nat X)) ds))%list
  else
    ("0"%char :: fraction (repeat "0"%char (Z.to_nat (- X - 1)) ++ ds))%list.

(** printf's style e. *)
Definition style_e (ds : list ascii) (X : Z) : list ascii :=
  match ds with
  | d :: fp => (d :: fraction fp ++ exponent_part X)%list
  | [] => []
  end.

(** printf's style g with precision [P] for a magnitude [x > 0]. *)
Definition style_g (P : nat) (x : Exact.ratio) : list ascii :=
  let '(N, X) := round_digits P x in
  let ds := digits P N in
  if (-4 <=? X) && (X <? Z.of_nat P) then style_f ds X else style_e ds X.

(** The precision of a fresh stream. *)
Definition precision : nat := 6.

(** [os << d] for a [double d]. *)
Definition insert_double (d : binary64.double) : list ascii :=
  match d with
  | S754_nan => chars "nan"
  | S754_infinity s => (sign_text s ++ chars "inf")%list
  | S754_zero s => (sign_text s ++ chars "0")%list
  | S754_finite s m e =>
      (sign_text s ++ style_g precision (binary64.magnitude m e))%list
  end.

(** What [operator<<] writes for a value of type [T]. *)
Class Insertable (T : Type) : Type := insert : T -> list ascii.

End iostream.

#[global] Instance Insertable_bigint : iostream.Insertable Z :=
  iostream.insert_bigint.
#[global] Instance Insertable_double : iostream.Insertable spec_float :=
  iostream.insert_double.

(** ** MathLib: converters, formatter and evaluators *)

Module MathLib.
Export Classifier.
Import Numeral libc iostream.

Definition bigint : Set := Z.
Definition double : Set := binary64.double.

(** Modelled from the spec: the [InternalError] structure of
    errorlogger.h, which is not among the sources.  The spec has the
    invalid operator raise an internal (defect) error; the source builds
    it from a null token pointer and a message. *)
Record InternalError : Set :=
  { token : option positive; errorMessage : string }.

(** What a call ends in: a returned value, a thrown [InternalError],
    or the processor's divide error. *)

Inductive outcome (A : Type) : Type :=
| Return (a : A)
| Throw (e : InternalError)
| Trap.
Arguments Return {A} a.
Arguments Throw {A} e.
Arguments Trap {A}.

Definition toLongNumber (str : string) : bigint :=
  (* hexadecimal numbers: *)
  if isHex str then
    let ret := 0%Z in
    extract_bigint hex (chars str) ret
  (* octal numbers: *)
  else if isOct str then
    let ret := 0%Z in
    extract_bigint oct (chars str) ret
  else if basic_string.found (basic_string.find_first_of str "eE") then
    bigint.of_double (atof str)
  else
    let ret := 0%Z in
    extract_bigint dec (chars str) ret.

(** Modelled from the spec: the [toString] template of mathlib.h, which
    is not among the sources.  The spec's canonical formatter renders
    an integer as its base-10 digit string, with a leading '-' when
    negative and no '+', and a float at a fixed default precision: the
    model is what a fresh [std::ostringstream] writes. *)
Definition toString {T : Type} `{Insertable T} (d : T) : string :=
  text (insert d).

(** The return statement [toDoubleNumber] leaves through. *)
Inductive conversion : Set :=
| hex_promotion     (* static_cast<double>(toLongNumber(str)) *)
| null_shortcut     (* 0.0 *)
| stream_parse.     (* istr >> ret *)

Definition toDoubleNumber_branch (str : string) : conversion :=
  if isHex str then hex_promotion
  else if isNullValue str then null_shortcut
  else stream_parse.

Section Engine.

(** [toDoubleNumber] declares [double ret;] without a value: what it
    returns when the stream holds no field to extract. *)
Variable indeterminate : double.

Definition toDoubleNumber (str : string) : double :=
  match toDoubleNumber_branch str with
  | hex_promotion => bigint.to_double (toLongNumber str)
  | null_shortcut => S754_zero false
  | stream_parse =>
      let ret := indeterminate in
      extract_double (chars str) ret
  end.

Definition add (first second : string) : string :=
  if isInt first && isInt second then
    toString (bigint.add (toLongNumber first) (toLongNumber second))
  else
    toString (binary64.add (toDoubleNumber first) (toDoubleNumber second)).

Definition subtract (first second : string) : string :=
  if isInt first && isInt second then
    toString (bigint.sub (toLongNumber first) (toLongNumber second))
  else
    toString (binary64.sub (toDoubleNumber first) (toDoubleNumber second)).

Definition divide (first second : string) : outcome string :=
  if isInt first && isInt second then
    match bigint.div (toLongNumber first) (toLongNumber second) with
    | Some q => Return (toString q)
    | None => Trap
    end
  else
    Return (toString (binary64.div (toDoubleNumber first) (toDoubleNumber second))).

Definition multiply (first second : string) : string :=
  if isInt first && isInt second then
    toString (bigint.mul (toLongNumber first) (toLongNumber second))
  else
    toString (binary64.mul (toDoubleNumber first) (toDoubleNumber second)).

Definition calculate (first second : string) (action : ascii)
  : outcome string :=
  if is_char "+" action then Return (add first second)
  else if is_char "-" action then Return (subtract first second)
  else if is_char "*" action then Return (multiply first second)
  else if is_char "/" action then divide first second
  else
    Throw {| token := None;
             errorMessage :=
               "Unexpected action '" ++ String action
                 "' in MathLib::calculate(). Please report this to Cppcheck developers." |}.

Definition isEqual (first second : string) : bool :=
  String.eqb (toString (toDoubleNumber first))
             (toString (toDoubleNumber second)).

Definition isNotEqual (first second : string) : bool :=
  negb (isEqual first second).

Definition isGreater (first second : string) : bool :=
  binary64.gt (toDoubleNumber first) (toDoubleNumber second).

Definition isGreaterEqual (first second : string) : bool :=
  binary64.ge (toDoubleNumber first) (toDoubleNumber second).

Definition isLess (first second : string) : bool :=
  binary64.lt (toDoubleNumber first) (toDoubleNumber second).

Definition isLessEqual (first second : string) : bool :=
  binary64.le (toDoubleNumber first) (toDoubleNumber second).

(** [sin], [cos] and [tan] go through the C math library, whose results
    the language does not fix, and are left out. *)
Definition abs (tok : string) : string :=
  toString (binary64.abs (toDoubleNumber tok)).

End Engine.

End MathLib.

(** ** The specification's reading of the engine

    Definitions that follow the words of the specification, to be
    compared with the ones above. *)

Module Spec.
Import cctype Numeral libc iostream MathLib.

Definition contains_char (c : ascii) (l : list ascii) : bool :=
  existsb (is_char c) l.

Fixpoint contains_pair (a b : ascii) (l : list ascii) : bool :=
  match l with
  | x :: (y :: _) as l' =>
      (is_char a x && is_char b y) || contains_pair a b l'
  | _ => false
  end.

(** *** The ordered scan of isInt *)

Inductive mode : Set := Scientific | Hex | Octal | Default.

(** Mode by priority: Scientific (an uppercase 'E'), else Hex, else
    Octal, else Default. *)
Definition choose_mode (s : string) : mode :=
  if contains_char "E" (chars s) then Scientific
  else if Classifier.isHex s then Hex
  else if Classifier.isOct s then Octal
  else Default.

Definition optional (c : ascii) (l : list ascii) : list ascii :=
  match l with
  | x :: l' => if is_char c x then l' else l
  | [] => l
  end.

Definition starts_with_char (c : ascii) (l : list ascii) : bool :=
  match l with
  | x :: _ => is_char c x
  | [] => false
  end.

(** A case-insensitive run of 'u' / 'l' suffix characters. *)
Definition suffix (l : list ascii) : list ascii :=
  skip unsigned_or_long l.

(** What the grammar of a mode leaves of the input, [None] when it
    rejects. *)
Definition grammar (m : mode) (l : list ascii) : option (list ascii) :=
  match m with
  | Scientific =>
      match skip isdigit l with
      | c :: l' =>
          if is_e c then
            let l' := optional "+" l' in
            if starts_with_char "-" l' then None
            else Some (skip isdigit l')
          else Some (c :: l')
      | [] => Some []
      end
  | Hex =>
      match l with
      | z :: x :: l' =>
          if is_char "0" z && (is_char "x" x || is_char "X" x)
          then Some (suffix (skip isxdigit l'))
          else None
      | _ => None
      end
  | Octal =>
      match l with
      | z :: l' =>
          if is_char "0" z then Some (suffix (skip isoctdigit l'))
          else None
      | [] => None
      end
  | Default =>
      match span isdigit l with
      | ([], _) => None
      | (_ :: _, l') => Some (suffix l')
      end
  end.

Definition isInt (s : string) : bool :=
  let l := chars s in
  if contains_char "." l || contains_pair "E" "-" l || contains_pair "e" "-" l
  then false
  else
    match grammar (choose_mode s) (snd (sign (skip isspace l))) with
    | Some l' =>
        match skip isspace l' with
        | [] => true
        | _ :: _ => false
        end
    | None => false
    end.

(** The mode a [Representation] of the source stands for. *)
Definition mode_of (Mode : Representation) : mode :=
  match Mode with
  | eScientific => Scientific
  | eHex => Hex
  | eOctal => Octal
  | eDefault => Default
  end.

(** *** isOct *)

(** After an optional sign: a '0' followed by an octal digit or by the
    end of the token; and the token is not a float. *)
Definition isOct (s : string) : bool :=
  match snd (sign (chars s)) with
  | z :: l =>
      is_char "0" z
      && match l with
         | d :: _ => isoctdigit d
         | [] => true
         end
      && negb (isFloat s)
  | [] => false
  end.

(** *** The null-value spellings *)

Definition null_spellings : list string :=
  [ "-0"; "0"; "+0"; "-0.0"; "0.0"; "+0.0"; "-0."; "+0.";
    "-0E-00"; "-0E+00"; "+0E+00"; "+0E-00";
    "-0e-00"; "-0e+00"; "+0e+00"; "+0e-00";
    "-0E-0" ].

(** *** toIntegerValue *)

(** The signed value of the longest run of base-[b] digits of [l],
    kept within [bigint]. *)
Definition signed_digits (neg : bool) (b : basefield) (l : list ascii) : Z :=
  clamp neg (number (base b) (fst (span (of_base b) l))).

Definition contains_any (set : string) (l : list ascii) : bool :=
  existsb (fun c => basic_string.mem c set) l.

(** Truncation toward zero of a float value: the quotient, rounded
    toward zero, of its signed numerator by its denominator.  Out of
    [bigint], and for an infinity or a NaN, the conversion is undefined
    in C++ and has the value the model of the cast gives it. *)
Definition truncate (d : binary64.double) : Z :=
  match d with
  | S754_zero _ => 0%Z
  | S754_finite s m e =>
      let r := binary64.magnitude m e in
      let t := Z.quot (if s then - Exact.num r else Exact.num r)%Z (Exact.den r) in
      if bigint.in_range t then t else bigint.min
  | _ => bigint.min
  end.

Definition toIntegerValue (s : string) : Z :=
  let '(neg, l) := sign (chars s) in
  if Classifier.isHex s then signed_digits neg hex (skipn 2 l)
  else if Classifier.isOct s then signed_digits neg oct l
  else if contains_any "eE" (chars s) then truncate (atof s)
  else
    let '(neg, l) := sign (skip isspace (chars s)) in
    signed_digits neg dec l.

(** Whether the truncation of toIntegerValue's float path is defined:
    the path is not taken, or the float value is within [bigint]. *)
Definition truncation_defined (s : string) : bool :=
Classifier.isHex s || Classifier.isOct s
|| negb (contains_any "eE" (chars s))
|| bigint.castable (atof s).

(** *** combine *)

Inductive operator : Set := op_add | op_subtract | op_multiply | op_divide.

(** The exact integer operation; the quotient truncates and does not
    exist for a zero divisor. *)
Definition integer_operation (o : operator) (a b : Z) : option Z :=
  match o with
  | op_add => Some (a + b)%Z
  | op_subtract => Some (a - b)%Z
  | op_multiply => Some (a * b)%Z
  | op_divide => if (b =? 0)%Z then None else Some (Z.quot a b)
  end.

Definition double_operation (o : operator)
  : binary64.double -> binary64.double -> binary64.double :=
  match o with
  | op_add => binary64.add
  | op_subtract => binary64.sub
  | op_multiply => binary64.mul
  | op_divide => binary64.div
  end.

(** The engine's function for an operator. *)
Definition engine (indeterminate : double) (o : operator)
  (first second : string) : outcome string :=
  match o with
  | op_add => Return (add indeterminate first second)
  | op_subtract => Return (subtract indeterminate first second)
  | op_multiply => Return (multiply indeterminate first second)
  | op_divide => divide indeterminate first second
  end.

(** *** format after parse *)

Definition format_parse (indeterminate : double) (s : string) : string :=
  toString (toDoubleNumber indeterminate s).

End Spec.

(** * Properties *)

Import cctype Numeral libc iostream MathLib.

(** ** Strings as character lists *)

Section Positions.

Variable s : string.

Lemma size_chars : basic_string.size s = List.length (chars s).
Proof.
  unfold basic_string.size, chars.
  induction s as [|c s' IH]; simpl; congruence.
Qed.

Lemma at_tail (n : nat) : at_ s n = hd Ascii.zero (tail_at s n).
Proof.
  unfold at_, tail_at, chars. revert n.
  induction s as [|c s' IH]; intros [|n]; simpl; auto.
Qed.

Lemma tail_at_0 : tail_at s 0 = chars s.
Proof. reflexivity. Qed.

Lemma tail_at_S (n : nat) : tail_at s (S n) = tl (tail_at s n).
Proof.
  unfold tail_at. generalize (chars s) as l. revert n.
  induction n as [|n IH]; intros [|c l]; simpl; auto.
  rewrite <- IH. reflexivity.
Qed.

Lemma tail_at_plus (n k : nat) : tail_at s (n + k) = skipn k (tail_at s n).
Proof.
  unfold tail_at. rewrite Nat.add_comm. symmetry. apply skipn_skipn.
Qed.

Lemma tail_at_length (n : nat) : (List.length (tail_at s n) <= basic_string.size s)%nat.
Proof.
  rewrite size_chars. unfold tail_at. rewrite length_skipn. lia.
Qed.

Lemma at_end (n : nat) :
  (basic_string.size s <=? n)%nat =
  match tail_at s n with [] => true | _ :: _ => false end.
Proof.
  rewrite size_chars. unfold tail_at.
  destruct (skipn n (chars s)) as [|c r] eqn:E.
  - apply Nat.leb_le.
    apply (f_equal (@List.length ascii)) in E. rewrite length_skipn in E.
    simpl in E. lia.
  - apply Nat.leb_gt.
    apply (f_equal (@List.length ascii)) in E. rewrite length_skipn in E.
    simpl in E. lia.
Qed.

(** A loop of the source stops by its test, within its fuel, where the
    run of characters in the class ends. *)
Lemma while_at_span (p : ascii -> bool) :
  p Ascii.zero = false ->
  forall fuel n,
    (List.length (tail_at s n) < fuel)%nat ->
    while_at p s fuel n = (n + List.length (fst (span p (tail_at s n))))%nat.
Proof.
  intros Hz. induction fuel as [|fuel IH]; intros n Hlen; [lia|].
  simpl. rewrite at_tail.
  destruct (tail_at s n) as [|c r] eqn:E; simpl.
  - rewrite Hz. lia.
  - destruct (p c) eqn:Hp.
    + rewrite IH.
      * rewrite tail_at_S, E. simpl.
        destruct (span p r) as [run rest]. simpl. lia.
      * rewrite tail_at_S, E. simpl in *. lia.
    + simpl. lia.
Qed.

Lemma skipn_span (p : ascii -> bool) (l : list ascii) :
  skipn (List.length (fst (span p l))) l = skip p l.
Proof.
  unfold skip. induction l as [|c l IH]; simpl; auto.
  destruct (p c); simpl; auto.
  destruct (span p l) as [run rest]. simpl in *. exact IH.
Qed.

Lemma loop_tail (p : ascii -> bool) (n : nat) :
  p Ascii.zero = false ->
  tail_at s (loop p s n) = skip p (tail_at s n).
Proof.
  intros Hz. unfold loop. rewrite while_at_span; auto.
  - rewrite tail_at_plus. apply skipn_span.
  - pose proof (tail_at_length n). lia.
Qed.

Lemma loop_stops (p : ascii -> bool) (n : nat) :
  p Ascii.zero = false -> p (at_ s (loop p s n)) = false.
Proof.
  intros Hz. rewrite at_tail, loop_tail by assumption.
  unfold skip. induction (tail_at s n) as [|c l IH]; simpl; auto.
  destruct (p c) eqn:E; simpl; auto.
  destruct (span p l); simpl in *. exact IH.
Qed.

End Positions.

(** ** The classifier *)

Section ClassifierFacts.

Lemma is_char_dec (a x : ascii) :
  is_char a x = if ascii_dec a x then true else false.
Proof.
  unfold is_char. destruct (ascii_dec a x) as [->|N].
  - apply Ascii.eqb_refl.
  - apply Ascii.eqb_neq. congruence.
Qed.

Lemma is_char_true (a x : ascii) : is_char a x = true <-> x = a.
Proof. unfold is_char. apply Ascii.eqb_eq. Qed.

Lemma found_cons (pat : string) (x : ascii) (s : string) :
  basic_string.found (String.index 0 pat (String x s))
  = prefix pat (String x s) || basic_string.found (String.index 0 pat s).
Proof.
  cbn [String.index]. destruct (prefix pat (String x s)); [reflexivity|].
  destruct (String.index 0 pat s); reflexivity.
Qed.

Lemma prefix_char (a x : ascii) (p s : string) :
  prefix (String a p) (String x s) = is_char a x && prefix p s.
Proof.
  cbn [prefix]. rewrite is_char_dec. destruct (ascii_dec a x); reflexivity.
Qed.

Lemma prefix_empty (s : string) : prefix "" s = true.
Proof. destruct s; reflexivity. Qed.

Lemma find_char (c : ascii) (s : string) :
  basic_string.found (basic_string.find s (String c "") 0)
  = Spec.contains_char c (chars s).
Proof.
  unfold basic_string.find, Spec.contains_char, chars.
  induction s as [|x s IH]; [reflexivity|].
  rewrite found_cons, prefix_char, prefix_empty, IH, andb_true_r.
  reflexivity.
Qed.

Lemma find_pair (a b : ascii) (s : string) :
  basic_string.found (basic_string.find s (String a (String b "")) 0)
  = Spec.contains_pair a b (chars s).
Proof.
  unfold basic_string.find, chars.
  induction s as [|x s IH]; [reflexivity|].
  rewrite found_cons, IH. destruct s as [|y s'].
  - cbn. destruct (ascii_dec a x); reflexivity.
  - rewrite !prefix_char, prefix_empty, andb_true_r. reflexivity.
Qed.

Lemma isOctalDigit_range (c : ascii) : isOctalDigit c = isoctdigit c.
Proof.
  destruct c as [b0 b1 b2 b3 b4 b5 b6 b7];
    destruct b0, b1, b2, b3, b4, b5, b6, b7; reflexivity.
Qed.

Lemma sign_not_space (c : ascii) :
  is_char "-" c || is_char "+" c || is_char "0" c = true -> isspace c = false.
Proof.
  destruct c as [b0 b1 b2 b3 b4 b5 b6 b7];
    destruct b0, b1, b2, b3, b4, b5, b6, b7; simpl; intros H;
    try reflexivity; discriminate H.
Qed.

(** A hexadecimal token starts, after its optional sign, with the
    prefix the scan steps over. *)
Lemma isHex_shape (s : string) :
  isHex s = true ->
  exists x l,
    (is_char "x" x || is_char "X" x) = true
    /\ skip isspace (chars s) = chars s
    /\ snd (sign (chars s)) = "0"%char :: x :: l.
Proof.
  unfold isHex, basic_string.compare. rewrite !at_tail, tail_at_0.
  destruct s as [|c0 s]; [discriminate|].
  unfold chars. cbn [list_ascii_of_string hd sign].
  destruct (is_char "-" c0) eqn:Em; [|destruct (is_char "+" c0) eqn:Ep].
  - simpl orb. cbv iota.
    apply is_char_true in Em. subst c0.
    destruct s as [|c1 [|c2 s]]; try discriminate.
    + simpl. destruct (Ascii.compare c1 "0"); discriminate.
    + intros H. exists c2, (list_ascii_of_string s).
      simpl in H. rewrite !is_char_dec.
      destruct (Ascii.compare c1 "0") eqn:E1; try discriminate.
      apply Ascii.compare_eq_iff in E1. subst c1.
      split; [|split; reflexivity].
      destruct (Ascii.compare c2 "x") eqn:E2.
      * apply Ascii.compare_eq_iff in E2. subst. reflexivity.
      * destruct (Ascii.compare c2 "X") eqn:E3; try discriminate.
        apply Ascii.compare_eq_iff in E3. subst. reflexivity.
      * destruct (Ascii.compare c2 "X") eqn:E3; try discriminate.
        apply Ascii.compare_eq_iff in E3. subst. reflexivity.
  - simpl orb. cbv iota.
    apply is_char_true in Ep. subst c0.
    destruct s as [|c1 [|c2 s]]; try discriminate.
    + simpl. destruct (Ascii.compare c1 "0"); discriminate.
    + intros H. exists c2, (list_ascii_of_string s).
      simpl in H. rewrite !is_char_dec.
      destruct (Ascii.compare c1 "0") eqn:E1; try discriminate.
      apply Ascii.compare_eq_iff in E1. subst c1.
      split; [|split; reflexivity].
      destruct (Ascii.compare c2 "x") eqn:E2.
      * apply Ascii.compare_eq_iff in E2. subst. reflexivity.
      * destruct (Ascii.compare c2 "X") eqn:E3; try discriminate.
        apply Ascii.compare_eq_iff in E3. subst. reflexivity.
      * destruct (Ascii.compare c2 "X") eqn:E3; try discriminate.
        apply Ascii.compare_eq_iff in E3. subst. reflexivity.
  - simpl orb. cbv iota.
    destruct s as [|c1 s].
    + simpl. destruct (Ascii.compare c0 "0"); discriminate.
    + intros H. exists c1, (list_ascii_of_string s).
      simpl in H. rewrite !is_char_dec.
      destruct (Ascii.compare c0 "0") eqn:E1; try discriminate.
      apply Ascii.compare_eq_iff in E1. subst c0.
      split; [|split; reflexivity].
      destruct (Ascii.compare c1 "x") eqn:E2.
      * apply Ascii.compare_eq_iff in E2. subst. reflexivity.
      * destruct (Ascii.compare c1 "X") eqn:E3; try discriminate.
        apply Ascii.compare_eq_iff in E3. subst. reflexivity.
      * destruct (Ascii.compare c1 "X") eqn:E3; try discriminate.
        apply Ascii.compare_eq_iff in E3. subst. reflexivity.
Qed.

End ClassifierFacts.

Lemma span_ext (p q : ascii -> bool) (H : forall c, p c = q c) (l : list ascii) :
  span p l = span q l.
Proof.
  induction l as [|c l IH]; simpl; [reflexivity|].
  rewrite H, IH. reflexivity.
Qed.

Section ScanRefinement.

Variable s : string.

Lemma sign_step (n : nat) :
  tail_at s (if is_char "-" (at_ s n) || is_char "+" (at_ s n) then S n else n)
  = snd (sign (tail_at s n)).
Proof.
  rewrite at_tail. destruct (tail_at s n) as [|c r] eqn:E; simpl.
  - exact E.
  - destruct (is_char "-" c); simpl; [rewrite tail_at_S, E; reflexivity|].
    destruct (is_char "+" c); simpl; [rewrite tail_at_S, E; reflexivity|].
    exact E.
Qed.

Lemma plus_step (n : nat) :
  tail_at s (if is_char "+" (at_ s n) then S n else n)
  = Spec.optional "+" (tail_at s n).
Proof.
  rewrite at_tail. destruct (tail_at s n) as [|c r] eqn:E; simpl.
  - exact E.
  - destruct (is_char "+" c); [rewrite tail_at_S, E; reflexivity|exact E].
Qed.

Lemma unsigned_or_long_zero : unsigned_or_long Ascii.zero = false.
Proof. reflexivity. Qed.

Lemma span_nil_iff (p : ascii -> bool) (l : list ascii) :
  fst (span p l) = [] <-> p (hd Ascii.zero l) = false \/ l = [].
Proof.
  destruct l as [|c l]; simpl; [tauto|].
  destruct (p c); [destruct (span p l)|]; simpl; split; intros H; auto.
  - discriminate.
  - destruct H; discriminate.
Qed.

(** The index scan of a mode leaves the string where the grammar of
    the mode leaves the character list, and rejects when it does. *)
Lemma isInt_scan_grammar (Mode : Representation) (n : nat) :
  (Mode = eHex -> exists x l,
      (is_char "x" x || is_char "X" x) = true
      /\ tail_at s n = "0"%char :: x :: l) ->
  (Mode = eOctal -> exists l, tail_at s n = "0"%char :: l) ->
  option_map (tail_at s) (isInt_scan Mode s n)
  = Spec.grammar (Spec.mode_of Mode) (tail_at s n).
Proof.
  intros Hhex Hoct. destruct Mode; simpl.
  - (* scientific *)
    rewrite (at_tail s (loop isdigit s n)), loop_tail by reflexivity.
    destruct (skip isdigit (tail_at s n)) as [|c r] eqn:E; simpl.
    + rewrite loop_tail, E by reflexivity. reflexivity.
    + unfold is_e. destruct (is_char "e" (tolower c)); simpl.
      * assert (T : tail_at s (S (loop isdigit s n)) = r)
          by (rewrite tail_at_S, loop_tail, E by reflexivity; reflexivity).
        pose proof (plus_step (S (loop isdigit s n))) as P.
        rewrite T in P.
        set (n' := if is_char "+" (at_ s (S (loop isdigit s n)))
                   then S (S (loop isdigit s n)) else S (loop isdigit s n)) in *.
        rewrite (at_tail s n'), P.
        destruct (Spec.optional "+" r) as [|d r'] eqn:E'; simpl.
        -- rewrite loop_tail, P by reflexivity. reflexivity.
        -- destruct (is_char "-" d); simpl; [reflexivity|].
           rewrite loop_tail, P by reflexivity. reflexivity.
      * rewrite loop_tail, E by reflexivity. reflexivity.
  - (* octal *)
    destruct (Hoct eq_refl) as (l & E). rewrite E. simpl.
    rewrite !loop_tail, tail_at_S, E
      by (reflexivity || apply unsigned_or_long_zero).
    simpl. unfold Spec.suffix, skip.
    rewrite (span_ext _ _ isOctalDigit_range). reflexivity.
  - (* hex *)
    destruct (Hhex eq_refl) as (x & l & Hx & E). rewrite E. simpl.
    rewrite Hx.
    rewrite !loop_tail, !tail_at_S, E
      by (reflexivity || apply unsigned_or_long_zero).
    reflexivity.
  - (* default *)
    rewrite at_tail.
    destruct (span isdigit (tail_at s n)) as [run rest] eqn:E.
    assert (R : skip isdigit (tail_at s n) = rest) by (unfold skip; rewrite E; reflexivity).
    destruct run as [|d run].
    + assert (D : isdigit (hd Ascii.zero (tail_at s n)) = false).
      { destruct (span_nil_iff isdigit (tail_at s n)) as [H _].
        rewrite E in H. destruct (H eq_refl) as [H'|H']; [exact H'|].
        rewrite H'. reflexivity. }
      rewrite D. reflexivity.
    + assert (D : isdigit (hd Ascii.zero (tail_at s n)) = true).
      { destruct (tail_at s n) as [|c r]; simpl in *; [discriminate|].
        destruct (isdigit c); [reflexivity|discriminate]. }
      rewrite D. simpl.
      rewrite !loop_tail, R by (reflexivity || apply unsigned_or_long_zero).
      reflexivity.
Qed.

End ScanRefinement.

Lemma skip_not_space (l : list ascii) :
  isspace (hd Ascii.zero l) = false -> skip isspace l = l.
Proof.
  destruct l as [|c l]; [reflexivity|].
  cbn [hd]. intros H. unfold skip. cbn [span]. rewrite H. reflexivity.
Qed.

(** An octal token starts, after its optional sign, with the '0' the
    scan steps over. *)
Lemma isOct_shape (s : string) :
  isOct s = true ->
  skip isspace (chars s) = chars s
  /\ exists l, snd (sign (chars s)) = "0"%char :: l.
Proof.
  unfold isOct. intros H.
  apply andb_prop in H. destruct H as [H _].
  apply andb_prop in H. destruct H as [H _].
  destruct s as [|c0 s']; [discriminate|].
  unfold chars. cbn [list_ascii_of_string]. cbn [at_ String.get] in H.
  split.
  - apply skip_not_space. cbn [hd]. apply sign_not_space.
    destruct (is_char "-" c0), (is_char "+" c0); simpl in *; auto.
  - cbn [sign].
    destruct (is_char "-" c0) eqn:Em; [|destruct (is_char "+" c0) eqn:Ep];
      cbn [orb] in H; cbv iota in H; cbv iota; cbn [snd].
    + destruct s' as [|c1 s'']; [discriminate|].
      cbn [at_ String.get] in H. apply is_char_true in H. subst.
      exists (list_ascii_of_string s''). reflexivity.
    + destruct s' as [|c1 s'']; [discriminate|].
      cbn [at_ String.get] in H. apply is_char_true in H. subst.
      exists (list_ascii_of_string s''). reflexivity.
    + apply is_char_true in H. cbn [at_ String.get] in H. subst.
      exists (list_ascii_of_string s'). reflexivity.
Qed.

(** C2. isInt is the ordered scan of the specification: floats are
    rejected first; the mode is Scientific, else Hex, else Octal, else
    Default; leading white space and one sign are skipped; the grammar
    of the mode is consumed; trailing white space is skipped; and the
    token is an integer iff nothing is left. *)
Theorem isInt_ordered_scan (s : string) : isInt s = Spec.isInt s.
Proof.
  unfold isInt, Spec.isInt.
  rewrite find_char, !find_pair.
  destruct (Spec.contains_char "." (chars s)); [reflexivity|].
  simpl orb.
  destruct (Spec.contains_pair "E" "-" (chars s) || Spec.contains_pair "e" "-" (chars s));
    [reflexivity|].
  rewrite find_char.
  set (n0 := loop isspace s 0).
  set (Mode := if Spec.contains_char "E" (chars s) then eScientific
               else if isHex s then eHex
               else if isOct s then eOctal else eDefault).
  set (n := if is_char "-" (at_ s n0) || is_char "+" (at_ s n0) then S n0 else n0).
  assert (T : tail_at s n = snd (sign (skip isspace (chars s)))).
  { unfold n. rewrite sign_step. unfold n0.
    rewrite loop_tail by reflexivity. reflexivity. }
  assert (M : Spec.mode_of Mode = Spec.choose_mode s).
  { unfold Mode, Spec.choose_mode.
    destruct (Spec.contains_char "E" (chars s)); [reflexivity|].
    destruct (isHex s); [reflexivity|]. destruct (isOct s); reflexivity. }
  pose proof (isInt_scan_grammar s Mode n) as G.
  rewrite M, T in G. rewrite <- G.
  - destruct (isInt_scan Mode s n) as [n'|]; simpl; [|reflexivity].
    rewrite at_end, loop_tail by reflexivity. reflexivity.
  - (* hex: the prefix is where the scan stands *)
    intros EM. unfold Mode in EM.
    destruct (Spec.contains_char "E" (chars s)); [discriminate|].
    destruct (isHex s) eqn:EH; [|destruct (isOct s); discriminate].
    destruct (isHex_shape s EH) as (x & l & Hx & Hs & Hl).
    exists x, l. rewrite Hs, Hl. auto.
  - intros EM. unfold Mode in EM.
    destruct (Spec.contains_char "E" (chars s)); [discriminate|].
    destruct (isHex s); [discriminate|].
    destruct (isOct s) eqn:EO; [|discriminate].
    destruct (isOct_shape s EO) as (Hs & l & Hl).
    exists l. rewrite Hs, Hl. reflexivity.
Qed.

(** ** isOct, isHex *)

Lemma at_0 (c : ascii) (s : string) : at_ (String c s) 0 = c.
Proof. reflexivity. Qed.

Lemma at_S (c : ascii) (s : string) (n : nat) : at_ (String c s) (S n) = at_ s n.
Proof. reflexivity. Qed.

Lemma not_signed_zero (c : ascii) :
  is_char "-" c || is_char "+" c = true ->
  String c "0" <> "+0" -> String c "0" <> "-0" -> False.
Proof.
  intros H Hp Hm. apply orb_prop in H.
  destruct H as [H|H]; apply is_char_true in H; subst; auto.
Qed.

(** isOct is the specification's reading on every token but a sign
    followed by the single character '0'. *)
Lemma isOct_agrees (s : string) :
  s <> "+0" -> s <> "-0" -> isOct s = Spec.isOct s.
Proof.
  intros Hp Hm. unfold isOct, Spec.isOct.
  destruct s as [|c0 s]; [reflexivity|].
  rewrite !at_0. unfold chars. cbn [list_ascii_of_string sign].
  destruct (is_char "-" c0) eqn:Em; [|destruct (is_char "+" c0) eqn:Ep];
    cbn [orb]; cbv iota; cbn [snd].
  - destruct s as [|c1 s]; [reflexivity|].
    rewrite !at_S, at_0. cbn [list_ascii_of_string].
    destruct (is_char "0" c1) eqn:E1; [|reflexivity].
    destruct s as [|c2 s].
    + apply is_char_true in E1. subst c1. exfalso.
      apply (not_signed_zero c0); [rewrite Em; reflexivity|assumption|assumption].
    + rewrite at_0. cbn [list_ascii_of_string basic_string.size String.length].
      rewrite isOctalDigit_range. reflexivity.
  - destruct s as [|c1 s]; [reflexivity|].
    rewrite !at_S, at_0. cbn [list_ascii_of_string].
    destruct (is_char "0" c1) eqn:E1; [|reflexivity].
    destruct s as [|c2 s].
    + apply is_char_true in E1. subst c1. exfalso.
      apply (not_signed_zero c0); [rewrite Ep, orb_true_r; reflexivity|assumption|assumption].
    + rewrite at_0. cbn [list_ascii_of_string basic_string.size String.length].
      rewrite isOctalDigit_range. reflexivity.
  - rewrite at_0. destruct (is_char "0" c0); [|reflexivity].
    destruct s as [|c1 s]; [reflexivity|].
    rewrite at_S, at_0. cbn [list_ascii_of_string basic_string.size String.length].
    rewrite isOctalDigit_range. reflexivity.
Qed.

(** C6. On a sign followed by the single character '0' isOct answers
    false, where the specification (a '0' followed by the end of the
    token) answers true: the test [str.size() == 1] forgets the sign that
    the two index expressions beside it account for.  On every other
    token isOct is what the specification says. *)
Theorem isOct_misses_signed_zero :
  (isOct "+0" = false /\ Spec.isOct "+0" = true)
  /\ (isOct "-0" = false /\ Spec.isOct "-0" = true)
  /\ isOct "0" = true
  /\ (forall s, s <> "+0" -> s <> "-0" -> isOct s = Spec.isOct s).
Proof.
  repeat split; try reflexivity. exact isOct_agrees.
Qed.

Lemma isOct_agrees_witness :
  isOct "-017" = Spec.isOct "-017" /\ isOct "-017" = true.
Proof.
  split; [|reflexivity].
  apply isOct_misses_signed_zero; discriminate.
Defined.

(** C10. A token is never both hexadecimal and octal: after the '0' of
    a hexadecimal prefix comes an 'x', which is no octal digit, and the
    token is longer than one character. *)
Theorem isHex_excludes_isOct (s : string) : isHex s = true -> isOct s = false.
Proof.
  intros H. destruct (isHex_shape s H) as (x & l & Hx & _ & Hl).
  unfold isOct.
  destruct s as [|c0 s]; [reflexivity|].
  unfold chars in Hl. cbn [list_ascii_of_string sign] in Hl.
  rewrite !at_0.
  assert (X : isOctalDigit x = false).
  { apply orb_prop in Hx. destruct Hx as [Hx|Hx];
      apply is_char_true in Hx; subst; reflexivity. }
  destruct (is_char "-" c0) eqn:Em; [|destruct (is_char "+" c0) eqn:Ep];
    cbn [orb]; cbv iota; cbn [snd] in Hl.
  - destruct s as [|c1 [|c2 s]]; try discriminate.
    injection Hl as -> -> _. rewrite !at_S, !at_0, X. reflexivity.
  - destruct s as [|c1 [|c2 s]]; try discriminate.
    injection Hl as -> -> _. rewrite !at_S, !at_0, X. reflexivity.
  - destruct s as [|c1 s]; try discriminate.
    injection Hl as -> -> _. rewrite !at_S, !at_0, X. reflexivity.
Qed.

Lemma isHex_excludes_isOct_witness :
  isHex "0x1A" = true /\ isOct "0x1A" = false.
Proof.
  split; [reflexivity|]. apply isHex_excludes_isOct. reflexivity.
Defined.

(** ** isNullValue and the branches of toDoubleNumber *)

Lemma isNullValue_iff (s : string) :
  isNullValue s = true <-> In s Spec.null_spellings.
Proof.
  unfold isNullValue, Spec.null_spellings.
  rewrite !orb_true_iff, !String.eqb_eq. simpl.
  intuition congruence.
Qed.

(** C7, the claim as stated fails: "0x0" and "-0x0" are zero-valued
    literals outside the set, and they are converted by the hexadecimal
    promotion, not by the stream parse (which would even give the other
    zero for "-0x0"). *)
Lemma hex_zero_is_not_stream_parsed :
  isNullValue "0x0" = false
  /\ toDoubleNumber S754_nan "0x0" = S754_zero false
  /\ toDoubleNumber_branch "0x0" = hex_promotion
  /\ hex_promotion <> stream_parse
  /\ toDoubleNumber S754_nan "-0x0" = S754_zero false
  /\ extract_double (chars "-0x0") S754_nan = S754_zero true.
Proof.
  repeat split; try reflexivity. discriminate.
Qed.

(** C7, amended. isNullValue holds exactly on the seventeen enumerated
    spellings; "0.0" is one and "00" is not; a literal outside the set
    that is not hexadecimal is converted by the stream parse, never by
    the 0.0 shortcut, and a hexadecimal one by promotion of its integer
    value. *)
Theorem isNullValue_spellings (indeterminate : double) :
  (forall s, isNullValue s = true <-> In s Spec.null_spellings)
  /\ List.length Spec.null_spellings = 17%nat
  /\ isNullValue "0.0" = true
  /\ isNullValue "00" = false
  /\ (forall s, isNullValue s = false -> isHex s = false ->
        toDoubleNumber_branch s = stream_parse
        /\ toDoubleNumber indeterminate s
           = extract_double (chars s) indeterminate)
  /\ (forall s, isHex s = true ->
        toDoubleNumber_branch s = hex_promotion
        /\ toDoubleNumber indeterminate s = bigint.to_double (toLongNumber s)).
Proof.
  split; [exact isNullValue_iff|].
  repeat split; try reflexivity;
    unfold toDoubleNumber, toDoubleNumber_branch;
    repeat match goal with H : _ = _ |- _ => rewrite H end; reflexivity.
Qed.

Lemma isNullValue_spellings_witness :
  toDoubleNumber_branch "00" = stream_parse
  /\ toDoubleNumber S754_nan "00" = S754_zero false.
Proof.
  destruct (isNullValue_spellings S754_nan) as (_ & _ & _ & _ & H & _).
  destruct (H "00" eq_refl eq_refl) as [H1 H2].
  split; [exact H1|]. rewrite H2. reflexivity.
Defined.

(** ** calculate *)

(** C3. calculate returns what add, subtract, multiply or divide give
    for '+', '-', '*', '/', and for any other character throws an
    InternalError: it never returns then. *)
Theorem calculate_dispatch (indeterminate : double)
  (first second : string) (action : ascii) :
  (action = "+"%char ->
     calculate indeterminate first second action
     = Return (add indeterminate first second))
  /\ (action = "-"%char ->
     calculate indeterminate first second action
     = Return (subtract indeterminate first second))
  /\ (action = "*"%char ->
     calculate indeterminate first second action
     = Return (multiply indeterminate first second))
  /\ (action = "/"%char ->
     calculate indeterminate first second action
     = divide indeterminate first second)
  /\ (action <> "+"%char -> action <> "-"%char ->
      action <> "*"%char -> action <> "/"%char ->
      (exists e, calculate indeterminate first second action = Throw e
                 /\ token e = None
                 /\ errorMessage e
                    = "Unexpected action '" ++ String action
                        "' in MathLib::calculate(). Please report this to Cppcheck developers.")
      /\ forall r, calculate indeterminate first second action <> Return r).
Proof.
  unfold calculate.
  split; [|split; [|split; [|split]]]; try (intros ->; reflexivity).
  intros Hp Hm Ht Hd.
  destruct (is_char "+" action) eqn:E1; [apply is_char_true in E1; contradiction|].
  destruct (is_char "-" action) eqn:E2; [apply is_char_true in E2; contradiction|].
  destruct (is_char "*" action) eqn:E3; [apply is_char_true in E3; contradiction|].
  destruct (is_char "/" action) eqn:E4; [apply is_char_true in E4; contradiction|].
  split.
  - eexists. split; [reflexivity|]. split; reflexivity.
  - discriminate.
Qed.

Lemma calculate_dispatch_witness :
  (exists e, calculate S754_nan "1" "2" "%" = Throw e
             /\ token e = None
             /\ errorMessage e
                = "Unexpected action '%' in MathLib::calculate(). Please report this to Cppcheck developers.")
  /\ calculate S754_nan "10" "20" "+" = Return "30".
Proof.
  destruct (calculate_dispatch S754_nan "1" "2" "%") as (_ & _ & _ & _ & H).
  destruct (calculate_dispatch S754_nan "10" "20" "+") as (P & _).
  split.
  - apply H; discriminate.
  - rewrite (P eq_refl). reflexivity.
Defined.


(** ** toLongNumber *)

Lemma find_first_of_chars (s set : string) :
  basic_string.found (basic_string.find_first_of s set)
  = Spec.contains_any set (chars s).
Proof.
  unfold Spec.contains_any, chars.
  induction s as [|c s IH]; [reflexivity|].
  cbn [basic_string.find_first_of list_ascii_of_string existsb].
  destruct (basic_string.mem c set); [reflexivity|].
  rewrite <- IH. destruct (basic_string.find_first_of s set); reflexivity.
Qed.

Lemma is_x_cases (x : ascii) : is_x x = is_char "x" x || is_char "X" x.
Proof.
  destruct x as [b0 b1 b2 b3 b4 b5 b6 b7];
    destruct b0, b1, b2, b3, b4, b5, b6, b7; reflexivity.
Qed.

(** Extraction from a string that starts with no white space. *)
Lemma extract_bigint_unspaced (f : basefield) (l : list ascii) (ret : Z) :
  skip isspace l = l -> l <> [] ->
  extract_bigint f l ret
  = clamp (fst (sign l))
      (number (base f) (fst (span (of_base f) (base_prefix f (snd (sign l)))))).
Proof.
  intros Hs Hn. unfold extract_bigint. rewrite Hs.
  destruct l as [|c l]; [contradiction|].
  destruct (sign (c :: l)) as [neg r]. cbn [fst snd].
  destruct (span (of_base f) (base_prefix f r)). reflexivity.
Qed.

Lemma extract_bigint_dec (l : list ascii) :
  extract_bigint dec l 0
  = Spec.signed_digits (fst (sign (skip isspace l))) dec
      (snd (sign (skip isspace l))).
Proof.
  unfold extract_bigint, Spec.signed_digits.
  destruct (skip isspace l) as [|c r]; [reflexivity|].
  destruct (sign (c :: r)) as [neg r']. cbn [fst snd].
  replace (base_prefix dec r') with r' by (destruct r'; reflexivity).
  destruct (span (of_base dec) r'). reflexivity.
Qed.

Lemma magnitude_parts (m : positive) (e : Z) :
  (0 <= Exact.num (binary64.magnitude m e))%Z
  /\ (0 < Exact.den (binary64.magnitude m e))%Z.
Proof.
  unfold binary64.magnitude, Exact.scale, Exact.of_Z.
  destruct (0 <=? e)%Z eqn:E; cbn [Exact.num Exact.den].
  - apply Z.leb_le in E.
    assert (0 < 2 ^ e)%Z by (apply Z.pow_pos_nonneg; lia). lia.
  - apply Z.leb_gt in E.
    assert (0 < 2 ^ (- e))%Z by (apply Z.pow_pos_nonneg; lia). lia.
Qed.

(** The cast of a double to [bigint] truncates toward zero. *)
Lemma of_double_truncate (d : double) : bigint.of_double d = Spec.truncate d.
Proof.
  destruct d as [z|z| |s m e]; try reflexivity.
  cbn [bigint.of_double Spec.truncate].
  destruct (magnitude_parts m e) as [Hn Hd].
  unfold Exact.floor. destruct s.
  - rewrite Z.quot_opp_l, Z.quot_div_nonneg by lia. reflexivity.
  - rewrite Z.quot_div_nonneg by lia. reflexivity.
Qed.

(** The stream extractions of toLongNumber read what the specification
    says of each kind of token. *)
Lemma toLongNumber_reading (s : string) :
  toLongNumber s = Spec.toIntegerValue s.
Proof.
  unfold toLongNumber, Spec.toIntegerValue.
  destruct (isHex s) eqn:EH.
  - destruct (isHex_shape s EH) as (x & l & Hx & Hs & Hl).
    assert (Hn : chars s <> []).
    { intros E. rewrite E in Hl. discriminate. }
    rewrite (extract_bigint_unspaced hex _ _ Hs Hn).
    destruct (sign (chars s)) as [neg r]. cbn [fst snd] in *. subst r.
    unfold Spec.signed_digits. cbn [base_prefix skipn].
    rewrite is_x_cases, Hx. reflexivity.
  - destruct (isOct s) eqn:EO.
    + destruct (isOct_shape s EO) as (Hs & l & Hl).
      assert (Hn : chars s <> []).
      { intros E. rewrite E in Hl. discriminate. }
      rewrite (extract_bigint_unspaced oct _ _ Hs Hn).
      destruct (sign (chars s)) as [neg r]. cbn [fst snd] in *.
      unfold Spec.signed_digits.
      replace (base_prefix oct r) with r by (destruct r; reflexivity).
      reflexivity.
    + rewrite find_first_of_chars.
      destruct (sign (chars s)) as [neg0 r0].
      destruct (Spec.contains_any "eE" (chars s));
        [apply of_double_truncate|].
      rewrite extract_bigint_dec.
      destruct (sign (skip isspace (chars s))). reflexivity.
Qed.

(** C5. toLongNumber reads the digits after the prefix in base 16 when
    isHex holds; else the digits in base 8 when isOct holds; else, when
    the token has an 'e' or 'E', the float conversion of the token
    truncated toward zero; else the digits in base 10.  "0x1A" is 26. *)
Theorem toLongNumber_radix (s : string) :
  toLongNumber s = Spec.toIntegerValue s
  /\ toLongNumber "0x1A" = 26%Z
  /\ toLongNumber "-017" = (-15)%Z
  /\ toLongNumber "1E3" = 1000%Z
  /\ toLongNumber "-19E-1" = (-1)%Z
  /\ toLongNumber "42" = 42%Z.
Proof.
  split; [apply toLongNumber_reading|]. repeat split.
Qed.

(** ** The arithmetic evaluator *)

Lemma wrap_in_range (z : Z) : bigint.in_range z = true -> bigint.wrap z = z.
Proof.
  unfold bigint.in_range, bigint.wrap, bigint.min, bigint.max.
  intros H. apply andb_prop in H. destruct H as [H1 H2].
  apply Z.leb_le in H1. apply Z.leb_le in H2.
  rewrite Z.mod_small; lia.
Qed.

Lemma div_in_range (a b : Z) :
  b <> 0%Z -> bigint.in_range (Z.quot a b) = true ->
  bigint.div a b = Some (Z.quot a b).
Proof.
  intros Hb Hq. unfold bigint.div.
  destruct (Z.eqb_spec b 0); [contradiction|].
  destruct (Z.eqb_spec a bigint.min) as [->|]; [|reflexivity].
  destruct (Z.eqb_spec b (-1)) as [->|]; [|reflexivity].
  vm_compute in Hq. discriminate Hq.
Qed.

(** C1, the claim as stated fails: dividing by a token whose integer
    value is 0 returns no formatting at all, the division traps; and a
    sum that leaves [bigint] is rendered wrapped, not exact. *)
Lemma integer_division_by_zero_traps :
  isInt "1" && isInt "0" = true
  /\ Spec.engine S754_nan Spec.op_divide "1" "0" = Trap
  /\ Spec.integer_operation Spec.op_divide 1 0 = None
  /\ isInt "9223372036854775807" && isInt "1" = true
  /\ Spec.engine S754_nan Spec.op_add "9223372036854775807" "1"
     = Return "-9223372036854775808"
  /\ toString (9223372036854775807 + 1)%Z = "9223372036854775808".
Proof.
  repeat split; vm_compute; reflexivity.
Qed.

(** C1, amended. When both tokens are integers, each operation returns
    the base-10 formatting of the exact integer operation on
    toLongNumber of the tokens whenever that result exists and fits
    [bigint], and divide traps on a zero divisor; otherwise each returns
    the float formatting of the double operation on toDoubleNumber of
    the tokens.  add of "10" and "20" is "30". *)
Theorem representation_selection (indeterminate : double)
  (o : Spec.operator) (first second : string) :
  (isInt first && isInt second = true ->
     (forall z,
         Spec.integer_operation o (toLongNumber first) (toLongNumber second) = Some z ->
         bigint.in_range z = true ->
         Spec.engine indeterminate o first second = Return (toString z))
     /\ (o = Spec.op_divide -> toLongNumber second = 0%Z ->
         Spec.engine indeterminate o first second = Trap))
  /\ (isInt first && isInt second = false ->
      Spec.engine indeterminate o first second
      = Return (toString (Spec.double_operation o
                            (toDoubleNumber indeterminate first)
                            (toDoubleNumber indeterminate second))))
  /\ Spec.engine indeterminate Spec.op_add "10" "20" = Return "30".
Proof.
  split; [|split; [|vm_compute; reflexivity]].
  - intros Hint. split.
    + intros z Hz Hr.
      destruct o; cbn [Spec.engine Spec.integer_operation] in *;
        unfold add, subtract, multiply, divide; rewrite Hint.
      * injection Hz as <-. unfold bigint.add. rewrite wrap_in_range; auto.
      * injection Hz as <-. unfold bigint.sub. rewrite wrap_in_range; auto.
      * injection Hz as <-. unfold bigint.mul. rewrite wrap_in_range; auto.
      * destruct (Z.eqb_spec (toLongNumber second) 0); [discriminate|].
        injection Hz as <-. rewrite div_in_range; auto.
    + intros -> Hb. cbn [Spec.engine]. unfold divide. rewrite Hint, Hb.
      reflexivity.
  - intros Hint.
    destruct o; cbn [Spec.engine Spec.double_operation];
      unfold add, subtract, multiply, divide; rewrite Hint; reflexivity.
Qed.

Lemma representation_selection_witness :
  Spec.engine S754_nan Spec.op_divide "7" "-2" = Return "-3"
  /\ Spec.engine S754_nan Spec.op_multiply "10.5" "2" = Return "21".
Proof.
  destruct (representation_selection S754_nan Spec.op_divide "7" "-2") as (H & _).
  destruct (representation_selection S754_nan Spec.op_multiply "10.5" "2") as (_ & G & _).
  split.
  - destruct (H eq_refl) as [H' _].
    apply (H' (-3)%Z); vm_compute; reflexivity.
  - rewrite (G eq_refl). vm_compute. reflexivity.
Defined.

(** ** The comparison evaluator *)

(** C4. isEqual compares the formatted texts of the two float values,
    not the values; isNotEqual is its negation; "0.1" and "1.0E-1" are
    equal, and so are tokens whose distinct values format alike. *)
Theorem isEqual_canonical_text (indeterminate : double) (a b : string) :
  (isEqual indeterminate a b = true
   <-> toString (toDoubleNumber indeterminate a)
       = toString (toDoubleNumber indeterminate b))
  /\ isNotEqual indeterminate a b = negb (isEqual indeterminate a b)
  /\ isEqual indeterminate "0.1" "1.0E-1" = true
  /\ (isEqual indeterminate "1.0000001" "1" = true
      /\ toDoubleNumber indeterminate "1.0000001"
         <> toDoubleNumber indeterminate "1").
Proof.
  split; [apply String.eqb_eq|].
  split; [reflexivity|].
  split; [vm_compute; reflexivity|].
  split; [vm_compute; reflexivity|vm_compute; discriminate].
Qed.

(** ** The sign of a formatted integer *)

Lemma digit_char_isdigit (d : Z) :
  (0 <= d < 10)%Z -> isdigit (digit_char d) = true.
Proof.
  intros H.
  assert (C : (d = 0 \/ d = 1 \/ d = 2 \/ d = 3 \/ d = 4 \/ d = 5
               \/ d = 6 \/ d = 7 \/ d = 8 \/ d = 9)%Z) by lia.
  repeat (destruct C as [->|C]; [reflexivity|]). subst. reflexivity.
Qed.

Lemma digits_onto_isdigit (P : nat) (n : Z) (acc : list ascii) :
  forallb isdigit acc = true -> forallb isdigit (digits_onto P n acc) = true.
Proof.
  revert n acc. induction P as [|P IH]; intros n acc H; [exact H|].
  cbn [digits_onto]. apply IH. cbn [forallb].
  rewrite digit_char_isdigit, H; [reflexivity|].
  apply Z.mod_pos_bound. lia.
Qed.

Lemma digits_onto_length (P : nat) (n : Z) (acc : list ascii) :
  List.length (digits_onto P n acc) = (P + List.length acc)%nat.
Proof.
  revert n acc. induction P as [|P IH]; intros n acc; [reflexivity|].
  cbn [digits_onto]. rewrite IH. simpl. lia.
Qed.

Lemma strip_leading_zeros_isdigit (l : list ascii) :
  forallb isdigit l = true -> forallb isdigit (strip_leading_zeros l) = true.
Proof.
  induction l as [|c l IH]; [auto|].
  intros H. cbn [strip_leading_zeros].
  destruct l as [|c' l']; [exact H|].
  destruct (is_char "0" c); [|exact H].
  apply IH. cbn [forallb] in H. apply andb_prop in H. tauto.
Qed.

Lemma strip_leading_zeros_nonempty (l : list ascii) :
  l <> [] -> strip_leading_zeros l <> [].
Proof.
  induction l as [|c l IH]; [auto|].
  intros _. cbn [strip_leading_zeros].
  destruct l as [|c' l']; [discriminate|].
  destruct (is_char "0" c); [apply IH|]; discriminate.
Qed.

Lemma decimal_isdigit (n : Z) :
  forallb isdigit (decimal n) = true /\ decimal n <> [].
Proof.
  unfold decimal, digits. split.
  - apply strip_leading_zeros_isdigit, digits_onto_isdigit. reflexivity.
  - apply strip_leading_zeros_nonempty. intros E.
    apply (f_equal (@List.length ascii)) in E.
    rewrite digits_onto_length in E. discriminate.
Qed.

Lemma isNegative_sign (s : string) :
  isNegative s = fst (sign (skip isspace (chars s))).
Proof.
  unfold isNegative. rewrite at_tail, loop_tail, tail_at_0 by reflexivity.
  destruct (skip isspace (chars s)) as [|c r]; [reflexivity|].
  cbn [hd sign]. destruct (is_char "-" c); [reflexivity|].
  destruct (is_char "+" c); reflexivity.
Qed.

Lemma span_forallb (p : ascii -> bool) (l : list ascii) :
  forallb p (fst (span p l)) = true.
Proof.
  induction l as [|c l IH]; [reflexivity|].
  cbn [span]. destruct (p c) eqn:E; [|reflexivity].
  destruct (span p l) as [run rest]. cbn [fst forallb] in *.
  rewrite E, IH. reflexivity.
Qed.

Lemma digit_value_nonneg (f : basefield) (c : ascii) :
  of_base f c = true -> (0 <= digit_value c)%Z.
Proof.
  destruct c as [b0 b1 b2 b3 b4 b5 b6 b7];
    destruct f, b0, b1, b2, b3, b4, b5, b6, b7; vm_compute;
    intros H; try discriminate H; discriminate.
Qed.

Lemma number_nonneg (f : basefield) (ds : list ascii) :
  forallb (of_base f) ds = true -> (0 <= number (base f) ds)%Z.
Proof.
  unfold number.
  assert (G : forall acc, (0 <= acc)%Z -> forallb (of_base f) ds = true ->
              (0 <= fold_left (fun a c => a * base f + digit_value c) ds acc)%Z);
    [|intros H; apply G; [lia|exact H]].
  induction ds as [|c ds IH]; intros acc Hacc H.
  - exact Hacc.
  - cbn [fold_left forallb] in *. apply andb_prop in H. destruct H as [Hc Hds].
    apply IH; [|exact Hds].
    pose proof (digit_value_nonneg f c Hc).
    assert ((0 < base f)%Z) by (destruct f; reflexivity). nia.
Qed.

Lemma clamp_sign (neg : bool) (m : Z) :
  (0 <= m)%Z -> clamp neg m <> 0%Z -> (clamp neg m <? 0)%Z = neg.
Proof.
  unfold clamp, bigint.min, bigint.max. intros Hm Hc.
  destruct neg; [apply Z.ltb_lt|apply Z.ltb_ge]; lia.
Qed.

Lemma signed_digits_sign (neg : bool) (f : basefield) (l : list ascii) :
  Spec.signed_digits neg f l <> 0%Z ->
  (Spec.signed_digits neg f l <? 0)%Z = neg.
Proof.
  unfold Spec.signed_digits. apply clamp_sign, number_nonneg, span_forallb.
Qed.

Lemma round_shape (neg : bool) (x : Exact.ratio) :
  binary64.round neg x = S754_zero neg
  \/ binary64.round neg x = S754_infinity neg
  \/ exists m e, binary64.round neg x = S754_finite neg m e.
Proof.
  unfold binary64.round.
  destruct (Exact.num x =? 0)%Z; [auto|].
  match goal with |- context [match ?p with pair _ _ => _ end] =>
    destruct p as [m e] end.
  destruct m; auto.
  right. destruct (971 <? e)%Z; eauto.
Qed.

Lemma strtod_shape (nptr : list ascii) :
  let neg := fst (sign (skip isspace nptr)) in
  fst (strtod nptr) = S754_zero false
  \/ fst (strtod nptr) = S754_zero neg
  \/ fst (strtod nptr) = S754_infinity neg
  \/ fst (strtod nptr) = S754_nan
  \/ exists m e, fst (strtod nptr) = S754_finite neg m e.
Proof.
  unfold strtod. destruct (sign (skip isspace nptr)) as [neg r]. cbn [fst].
  assert (R : forall x rest,
             fst (binary64.round neg x, rest) = S754_zero false
             \/ fst (binary64.round neg x, rest) = S754_zero neg
             \/ fst (binary64.round neg x, rest) = S754_infinity neg
             \/ fst (binary64.round neg x, rest : list ascii) = S754_nan
             \/ exists m e, fst (binary64.round neg x, rest) = S754_finite neg m e).
  { intros x rest. cbn [fst].
    destruct (round_shape neg x) as [H|[H|(m & e & H)]]; rewrite H; eauto 10. }
  unfold strtod_unsigned.
  destruct (starts_with "infinity" r); [cbn; auto|].
  destruct (starts_with "inf" r); [cbn; auto|].
  destruct (starts_with "nan" r); [cbn; auto|].
  match goal with |- context [match ?h with Some res => Some res | None => _ end] =>
    destruct h as [[d rest]|] eqn:Ehex end.
  - destruct r as [|z [|x r']]; try discriminate.
    destruct (is_char "0" z && is_x x); [|discriminate].
    destruct (mantissa isxdigit r') as [[[ip fp] r'']|]; [|discriminate].
    destruct (opt_exponent is_p r'') as [ex r3].
    injection Ehex as <- <-. apply R.
  - destruct (mantissa isdigit r) as [[[ip fp] r'']|]; [|cbn; auto].
    destruct (opt_exponent is_e r'') as [ex r3]. apply R.
Qed.

Lemma floor_magnitude_nonneg (m : positive) (e : Z) :
  (0 <= Exact.floor (binary64.magnitude m e))%Z.
Proof.
  unfold Exact.floor, binary64.magnitude, Exact.scale, Exact.of_Z.
  destruct (0 <=? e)%Z eqn:E; cbn [Exact.num Exact.den].
  - apply Z.div_pos; [|lia]. apply Z.leb_le in E.
    assert (0 < 2 ^ e)%Z by (apply Z.pow_pos_nonneg; lia). nia.
  - apply Z.leb_gt in E. apply Z.div_pos; [lia|].
    assert (0 < 2 ^ (- e))%Z by (apply Z.pow_pos_nonneg; lia). nia.
Qed.

Lemma of_double_sign (d : double) (neg : bool) :
  d = S754_zero false \/ d = S754_zero neg \/ d = S754_infinity neg
  \/ d = S754_nan \/ (exists m e, d = S754_finite neg m e) ->
  bigint.castable d = true -> bigint.of_double d <> 0%Z ->
  (bigint.of_double d <? 0)%Z = neg.
Proof.
  intros [->|[->|[->|[->|(m & e & ->)]]]] Hc Hn;
    try discriminate Hc; try (exfalso; apply Hn; reflexivity).
  cbn [bigint.castable bigint.of_double] in *. rewrite Hc in *.
  pose proof (floor_magnitude_nonneg m e).
  destruct neg; [apply Z.ltb_lt|apply Z.ltb_ge]; lia.
Qed.

(** A non-zero integer value is negative exactly for a negative token. *)
Lemma toLongNumber_sign (s : string) :
  Spec.truncation_defined s = true -> toLongNumber s <> 0%Z ->
  (toLongNumber s <? 0)%Z = isNegative s.
Proof.
  rewrite toLongNumber_reading, isNegative_sign.
  unfold Spec.truncation_defined, Spec.toIntegerValue.
  destruct (isHex s) eqn:EH.
  - destruct (isHex_shape s EH) as (x & l & _ & -> & _).
    destruct (sign (chars s)) as [neg r]. intros _. apply signed_digits_sign.
  - destruct (isOct s) eqn:EO.
    + destruct (isOct_shape s EO) as (-> & _).
      destruct (sign (chars s)) as [neg r]. intros _. apply signed_digits_sign.
    + cbn [orb]. destruct (sign (chars s)) as [neg0 r0].
      destruct (Spec.contains_any "eE" (chars s)); cbn [negb orb].
      * intros Hc. rewrite <- of_double_truncate.
        apply of_double_sign; [|exact Hc].
        apply (strtod_shape (chars s)).
      * intros _. destruct (sign (skip isspace (chars s))) as [neg r].
        apply signed_digits_sign.
Qed.

(** C8, the claim as stated fails: "-0" is an integer token and is
    negative to isNegative, and its value formats as "0", with no sign. *)
Lemma negative_zero_is_unsigned :
  isInt "-0" = true
  /\ isNegative "-0" = true
  /\ toString (toLongNumber "-0") = "0".
Proof.
  repeat split.
Qed.

(** C8, amended. For an integer token whose value is not zero (and,
    when the value comes from the float path, is within [bigint]), the
    formatted value is a non-empty run of decimal digits preceded by '-'
    exactly when isNegative holds; a zero value formats as "0". *)
Theorem formatted_sign (s : string) :
  isInt s = true ->
  Spec.truncation_defined s = true ->
  (toLongNumber s <> 0%Z ->
   exists ds,
     ds <> [] /\ forallb isdigit ds = true
     /\ toString (toLongNumber s)
        = text ((if isNegative s then ["-"%char] else []) ++ ds)%list)
  /\ (toLongNumber s = 0%Z -> toString (toLongNumber s) = "0").
Proof.
  intros _ Hd. split.
  - intros Hn. pose proof (toLongNumber_sign s Hd Hn) as Hs.
    unfold toString, insert, Insertable_bigint, insert_bigint.
    rewrite Hs. destruct (isNegative s).
    + exists (decimal (- toLongNumber s)).
      destruct (decimal_isdigit (- toLongNumber s)) as [D N]. auto.
    + exists (decimal (toLongNumber s)).
      destruct (decimal_isdigit (toLongNumber s)) as [D N]. auto.
  - intros ->. reflexivity.
Qed.

Lemma formatted_sign_witness :
  (exists ds,
     ds <> [] /\ forallb isdigit ds = true
     /\ toString (toLongNumber "-017")
        = text ((if isNegative "-017" then ["-"%char] else []) ++ ds)%list)
  /\ toString (toLongNumber "-017") = "-15".
Proof.
  split; [|reflexivity].
  apply (formatted_sign "-017"); [reflexivity|reflexivity|discriminate].
Defined.

(** ** Exact fractions as real numbers *)

Section Powers.
Import Exact.
Local Open Scope R_scope.

Variable b : Z.
Hypothesis b_gt_1 : (1 < b)%Z.

Lemma IZR_b_pos : 0 < IZR b.
Proof. apply IZR_lt. lia. Qed.

Lemma power_pos (k : Z) : 0 < power b k.
Proof. apply powerRZ_lt, IZR_b_pos. Qed.

Lemma power_add (j k : Z) : power b (j + k) = power b j * power b k.
Proof.
  apply powerRZ_add. pose proof IZR_b_pos. lra.
Qed.

Lemma power_0 : power b 0 = 1.
Proof. reflexivity. Qed.

Lemma power_1 : power b 1 = IZR b.
Proof. unfold power. simpl. lra. Qed.

Lemma power_opp (k : Z) : power b (- k) = / power b k.
Proof. apply powerRZ_neg'. Qed.

Lemma power_IZR (k : Z) : (0 <= k)%Z -> power b k = IZR (b ^ k).
Proof.
  intros H. unfold power. destruct k as [|p|p]; [reflexivity| |lia].
  symmetry. apply Zpower_pos_powerRZ.
Qed.

Lemma power_ge_1 (k : Z) : (0 <= k)%Z -> 1 <= power b k.
Proof.
  intros H. rewrite power_IZR by assumption. apply IZR_le.
  assert (0 < b ^ k)%Z by (apply Z.pow_pos_nonneg; lia). lia.
Qed.

Lemma power_le (j k : Z) : (j <= k)%Z -> power b j <= power b k.
Proof.
  intros H. assert (G : 1 <= power b (k - j)) by (apply power_ge_1; lia).
  assert (E : power b k = power b j * power b (k - j))
    by (rewrite <- power_add; f_equal; lia).
  rewrite E. pose proof (power_pos j). nra.
Qed.

Lemma power_lt_inv (j k : Z) : power b j < power b k -> (j < k)%Z.
Proof.
  intros H. destruct (Z_lt_le_dec j k) as [L|L]; [exact L|].
  apply power_le in L. lra.
Qed.

(** The integer logarithm of a positive real is unique. *)
Lemma log_unique (x : R) (j k : Z) :
  power b j <= x < power b (j + 1) ->
  power b k <= x < power b (k + 1) -> j = k.
Proof.
  intros [H1 H2] [H3 H4].
  assert (j < k + 1)%Z by (apply power_lt_inv; lra).
  assert (k < j + 1)%Z by (apply power_lt_inv; lra). lia.
Qed.

Lemma scale_positive (r : ratio) (k : Z) :
  positive_ratio r -> positive_ratio (scale b r k).
Proof.
  intros [Hn Hd]. unfold positive_ratio, scale.
  destruct (0 <=? k)%Z eqn:E; cbn [num den]; split; try assumption.
  - apply Z.leb_le in E.
    assert (0 < b ^ k)%Z by (apply Z.pow_pos_nonneg; lia). nia.
  - apply Z.leb_gt in E.
    assert (0 < b ^ (- k))%Z by (apply Z.pow_pos_nonneg; lia). nia.
Qed.

Lemma scale_value (r : ratio) (k : Z) :
  (0 < den r)%Z -> value (scale b r k) = value r * power b k.
Proof.
  intros Hd. unfold value, scale.
  assert (D : 0 < IZR (den r)) by (apply IZR_lt; assumption).
  destruct (0 <=? k)%Z eqn:E; cbn [num den].
  - apply Z.leb_le in E. rewrite mult_IZR, <- power_IZR by assumption.
    field. lra.
  - apply Z.leb_gt in E.
    rewrite mult_IZR, <- power_IZR by lia. rewrite power_opp.
    pose proof (power_pos k). field. split; lra.
Qed.

End Powers.

Section Rounding.
Import Exact.
Local Open Scope R_scope.

Lemma value_parts (r : ratio) :
  (0 < den r)%Z -> value r * IZR (den r) = IZR (num r) /\ 0 < IZR (den r).
Proof.
  intros H. assert (0 < IZR (den r)) by (apply IZR_lt; assumption).
  split; [|assumption]. unfold value. field. lra.
Qed.

Lemma value_pos (r : ratio) : positive_ratio r -> 0 < value r.
Proof.
  intros [Hn Hd]. unfold value.
  apply Rdiv_lt_0_compat; apply IZR_lt; assumption.
Qed.

Lemma value_of_Z (z : Z) : value (of_Z z) = IZR z.
Proof. unfold value, of_Z. cbn [num den]. field. Qed.

Lemma leb_value (r1 r2 : ratio) :
  (0 < den r1)%Z -> (0 < den r2)%Z ->
  leb r1 r2 = true <-> value r1 <= value r2.
Proof.
  intros H1 H2. unfold leb. rewrite Z.leb_le.
  destruct (value_parts r1 H1) as [E1 D1].
  destruct (value_parts r2 H2) as [E2 D2].
  split; intros H.
  - apply IZR_le in H. rewrite !mult_IZR, <- E1, <- E2 in H.
    apply Rmult_le_reg_r with (IZR (den r1) * IZR (den r2)); [nra|]. lra.
  - apply le_IZR. rewrite !mult_IZR, <- E1, <- E2.
    assert (0 <= IZR (den r1) * IZR (den r2)) by nra.
    assert (value r1 * (IZR (den r1) * IZR (den r2))
            <= value r2 * (IZR (den r1) * IZR (den r2)))
      by (apply Rmult_le_compat_r; assumption).
    lra.
Qed.

(** Rounding to nearest errs by at most a half. *)
Lemma round_half_even_Z (r : ratio) :
  (0 < den r)%Z ->
  (- den r <= 2 * (round_half_even r * den r - num r) <= den r)%Z.
Proof.
  intros H. unfold round_half_even.
  pose proof (Z.div_mod (num r) (den r)) as DM.
  pose proof (Z.mod_pos_bound (num r) (den r) H) as [B1 B2].
  destruct (Z.compare_spec (2 * (num r mod den r)) (den r));
    [destruct (Z.even (num r / den r))| |]; nia.
Qed.

Lemma round_half_even_value (r : ratio) :
  (0 < den r)%Z ->
  value r - / 2 <= IZR (round_half_even r) <= value r + / 2.
Proof.
  intros H. destruct (value_parts r H) as [E D].
  destruct (round_half_even_Z r H) as [L U].
  apply IZR_le in L, U. rewrite opp_IZR in L.
  rewrite !mult_IZR, minus_IZR, mult_IZR, <- E in L, U.
  split; apply Rmult_le_reg_r with (IZR (den r)); try assumption; lra.
Qed.

(** An integer strictly within a half of the value is the rounding. *)
Lemma round_half_even_unique (r : ratio) (n : Z) :
  (0 < den r)%Z ->
  value r - / 2 < IZR n < value r + / 2 ->
  round_half_even r = n.
Proof.
  intros H [L U]. destruct (value_parts r H) as [E D].
  destruct (round_half_even_value r H) as [L' U'].
  assert (A : IZR (round_half_even r) < IZR n + 1) by lra.
  assert (B : IZR n < IZR (round_half_even r) + 1) by lra.
  rewrite <- plus_IZR in A, B. apply lt_IZR in A, B. lia.
Qed.

Lemma pow_value (b k : Z) : (1 < b)%Z -> value (pow b k) = power b k.
Proof.
  intros H. unfold pow. rewrite scale_value by (assumption || reflexivity).
  rewrite value_of_Z. lra.
Qed.

Lemma pow_positive (b k : Z) : (1 < b)%Z -> positive_ratio (pow b k).
Proof.
  intros H. apply scale_positive; [assumption|]. split; reflexivity.
Qed.

Lemma log2_power (a : Z) :
  (0 < a)%Z -> power 2 (Z.log2 a) <= IZR a < power 2 (Z.log2 a + 1).
Proof.
  intros H. destruct (Z.log2_spec a H) as [L U].
  pose proof (Z.log2_nonneg a).
  rewrite !power_IZR by lia. split; [apply IZR_le|apply IZR_lt]; lia.
Qed.

(** [ilog2] is the integer logarithm in base 2. *)
Lemma ilog2_value (r : ratio) :
  positive_ratio r ->
  power 2 (ilog2 r) <= value r < power 2 (ilog2 r + 1).
Proof.
  intros [Hn Hd]. destruct (value_parts r Hd) as [E D].
  destruct (log2_power (num r) Hn) as [La Ua].
  destruct (log2_power (den r) Hd) as [Ld Ud].
  unfold ilog2. set (g := (Z.log2 (num r) - Z.log2 (den r))%Z).
  assert (Ea : power 2 (Z.log2 (num r)) = power 2 g * power 2 (Z.log2 (den r)))
    by (rewrite <- power_add by lia; f_equal; lia).
  assert (Ea' : power 2 (Z.log2 (num r) + 1)
                = power 2 (g + 1) * power 2 (Z.log2 (den r)))
    by (rewrite <- power_add by lia; f_equal; lia).
  assert (Eg : power 2 (g + 1) = 2 * power 2 g)
    by (rewrite power_add, power_1 by lia; lra).
  assert (Eg' : power 2 g = 2 * power 2 (g - 1)).
  { replace g with (g - 1 + 1)%Z at 1 by lia.
    rewrite power_add, power_1 by lia. lra. }
  assert (Ed : power 2 (Z.log2 (den r) + 1) = 2 * power 2 (Z.log2 (den r)))
    by (rewrite power_add, power_1 by lia; lra).
  pose proof (power_pos 2 ltac:(lia) g) as Pg.
  pose proof (power_pos 2 ltac:(lia) (Z.log2 (den r))) as Pd.
  destruct (leb (pow 2 g) r) eqn:EL.
  - apply leb_value in EL; [|apply pow_positive; lia|assumption].
    rewrite pow_value in EL by lia. split; [assumption|].
    rewrite Eg. apply Rmult_lt_reg_r with (IZR (den r)); [assumption|].
    rewrite E. nra.
  - assert (NL : ~ value (pow 2 g) <= value r).
    { intros C. apply leb_value in C; [congruence|apply pow_positive; lia|assumption]. }
    rewrite pow_value in NL by lia.
    replace (g - 1 + 1)%Z with g by lia. split; [|lra].
    apply Rmult_le_reg_r with (IZR (den r)); [assumption|].
    rewrite E. nra.
Qed.

Lemma power_2_10 (n : Z) : (0 <= n)%Z -> power 2 n <= power 10 n.
Proof.
  intros H. rewrite !power_IZR by lia. apply IZR_le.
  apply Z.pow_le_mono_l. lia.
Qed.

Lemma power_10_2 (n : Z) : (n <= 0)%Z -> power 10 n <= power 2 n.
Proof.
  intros H. replace n with (- - n)%Z by lia. rewrite !(power_opp _ (- n)).
  pose proof (power_2_10 (- n) ltac:(lia)).
  pose proof (power_pos 2 ltac:(lia) (- n)).
  apply Rinv_le_contravar; assumption.
Qed.

Lemma grow_value (r : ratio) (fuel : nat) (k d : Z) :
  (0 < den r)%Z ->
  IZR d = IZR (den r) * power 10 k ->
  power 10 k <= value r < power 10 (k + Z.of_nat fuel) ->
  power 10 (grow fuel k (num r) d) <= value r
  < power 10 (grow fuel k (num r) d + 1).
Proof.
  intros Hd. destruct (value_parts r Hd) as [E D].
  revert k d. induction fuel as [|fuel IH]; intros k d Ed [L U].
  - replace (k + Z.of_nat 0)%Z with k in U by lia. lra.
  - cbn [grow].
    assert (E1 : power 10 (k + 1) = 10 * power 10 k)
      by (rewrite power_add, power_1 by lia; lra).
    destruct (Z.ltb_spec (num r) (10 * d)) as [C|C].
    + split; [assumption|].
      apply IZR_lt in C. rewrite mult_IZR, Ed, <- E in C.
      apply Rmult_lt_reg_r with (IZR (den r)); [assumption|]. rewrite E1. lra.
    + apply IH.
      * rewrite mult_IZR, Ed, E1. lra.
      * split.
        -- apply IZR_le in C. rewrite mult_IZR, Ed, <- E in C.
           apply Rmult_le_reg_r with (IZR (den r)); [assumption|]. rewrite E1. lra.
        -- replace (k + 1 + Z.of_nat fuel)%Z with (k + Z.of_nat (S fuel))%Z by lia.
           assumption.
Qed.

Lemma shrink_value (r : ratio) (fuel : nat) (k n : Z) :
  (0 < den r)%Z ->
  IZR n = IZR (num r) * power 10 (- k) ->
  power 10 (k - Z.of_nat fuel + 1) <= value r < power 10 (k + 1) ->
  power 10 (shrink fuel k n (den r)) <= value r
  < power 10 (shrink fuel k n (den r) + 1).
Proof.
  intros Hd. destruct (value_parts r Hd) as [E D].
  revert k n. induction fuel as [|fuel IH]; intros k n En [L U].
  - replace (k - Z.of_nat 0 + 1)%Z with (k + 1)%Z in L by lia. lra.
  - cbn [shrink].
    pose proof (power_pos 10 ltac:(lia) k) as Pk.
    assert (Ek : power 10 (- k) * power 10 k = 1).
    { rewrite <- power_add by lia. replace (- k + k)%Z with 0%Z by lia.
      reflexivity. }
    assert (E1 : power 10 (- (k - 1)) = 10 * power 10 (- k)).
    { replace (- (k - 1))%Z with (- k + 1)%Z by lia.
      rewrite power_add, power_1 by lia. lra. }
    assert (Vn : IZR n * power 10 k = value r * IZR (den r)).
    { rewrite En, E, Rmult_assoc, Ek. lra. }
    destruct (Z.leb_spec (den r) n) as [C|C].
    + split; [|assumption].
      apply IZR_le in C.
      apply Rmult_le_reg_r with (IZR (den r)); [assumption|]. nra.
    + apply IH.
      * rewrite mult_IZR, En, E1. lra.
      * split.
        -- replace (k - 1 - Z.of_nat fuel + 1)%Z
             with (k - Z.of_nat (S fuel) + 1)%Z by lia. assumption.
        -- replace (k - 1 + 1)%Z with k by lia.
           apply IZR_lt in C.
           apply Rmult_lt_reg_r with (IZR (den r)); [assumption|]. nra.
Qed.

(** [ilog10] is the integer logarithm in base 10. *)
Lemma ilog10_value (r : ratio) :
  positive_ratio r ->
  power 10 (ilog10 r) <= value r < power 10 (ilog10 r + 1).
Proof.
  intros Hr. destruct (ilog2_value r Hr) as [L U].
  destruct Hr as [Hn Hd]. destruct (value_parts r Hd) as [E D].
  unfold ilog10. set (g := ilog2 r) in *.
  destruct (Z.leb_spec (den r) (num r)) as [C|C].
  - assert (V1 : 1 <= value r).
    { apply IZR_le in C. rewrite <- E in C.
      apply Rmult_le_reg_r with (IZR (den r)); [assumption|]. lra. }
    assert (G : (0 <= g)%Z).
    { assert (0 < g + 1)%Z; [|lia]. apply (power_lt_inv 2 ltac:(lia)).
      rewrite power_0. lra. }
    apply grow_value; [assumption|rewrite power_0; lra|].
    split; [rewrite power_0; exact V1|].
    replace (0 + Z.of_nat (S (Z.abs_nat g)))%Z with (g + 1)%Z by lia.
    pose proof (power_2_10 (g + 1) ltac:(lia)). lra.
  - assert (V1 : value r < 1).
    { apply IZR_lt in C. rewrite <- E in C.
      apply Rmult_lt_reg_r with (IZR (den r)); [assumption|]. lra. }
    assert (G : (g < 0)%Z).
    { apply (power_lt_inv 2 ltac:(lia)). rewrite power_0. lra. }
    apply shrink_value; [assumption| |].
    + rewrite mult_IZR. change (- -1)%Z with 1%Z. rewrite power_1. lra.
    + split; [|exact V1].
      replace (-1 - Z.of_nat (S (Z.abs_nat g)) + 1)%Z with (g - 1)%Z by lia.
      pose proof (power_10_2 g ltac:(lia)).
      pose proof (power_le 10 ltac:(lia) (g - 1) g ltac:(lia)). lra.
Qed.

End Rounding.

(** ** Rounding to significant decimal digits *)

Section PowersOfTen.
Import Exact.
Local Open Scope R_scope.

Lemma IZR_pow10 (k : Z) : (0 <= k)%Z -> IZR (10 ^ k) = power 10 k.
Proof. intros H. symmetry. apply power_IZR; lia. Qed.

Lemma power10_succ (k : Z) : power 10 (k + 1) = 10 * power 10 k.
Proof. rewrite power_add, power_1 by lia. lra. Qed.

Lemma power10_split (j k : Z) : power 10 j = power 10 (j - k) * power 10 k.
Proof. rewrite <- power_add by lia. f_equal. lia. Qed.

End PowersOfTen.

Section DecimalDigits.
Import Exact.
Local Open Scope R_scope.

Variable P : nat.
Hypothesis P_pos : (1 <= P)%nat.

Local Abbreviation p := (Z.of_nat P).

(** What [round_digits] returns: [P] digits whose scaled value is
    within half a unit in the last place of the number rounded. *)
Lemma round_digits_value (x : ratio) (N X : Z) :
  positive_ratio x ->
  round_digits P x = (N, X) ->
  (10 ^ (p - 1) <= N < 10 ^ p)%Z
  /\ IZR N * power 10 (X - p + 1) - / 2 * power 10 (X - p + 1) <= value x
     <= IZR N * power 10 (X - p + 1) + / 2 * power 10 (X - p + 1).
Proof.
  intros Hx. unfold round_digits.
  destruct (ilog10_value x Hx) as [L U].
  set (X0 := ilog10 x) in *.
  set (w := scale 10 x (p - 1 - X0)).
  assert (Hw : value w = value x * power 10 (p - 1 - X0))
    by (apply scale_value; [lia|apply Hx]).
  assert (Dw : (0 < den w)%Z) by (apply scale_positive; [lia|assumption]).
  destruct (round_half_even_value w Dw) as [RL RU].
  set (N0 := round_half_even w) in *.
  set (s := power 10 (X0 - p + 1)).
  assert (Ps : 0 < s) by (apply power_pos; lia).
  assert (Es : power 10 (p - 1 - X0) * s = 1).
  { unfold s. rewrite <- power_add by lia.
    replace (p - 1 - X0 + (X0 - p + 1))%Z with 0%Z by lia. reflexivity. }
  assert (E0 : power 10 X0 = power 10 (p - 1) * s).
  { unfold s. rewrite <- power_add by lia. f_equal. lia. }
  assert (E1 : power 10 (X0 + 1) = power 10 p * s).
  { unfold s. rewrite <- power_add by lia. f_equal. lia. }
  assert (Pt : 0 < power 10 (p - 1 - X0)) by (apply power_pos; lia).
  assert (Vw : value x = value w * s).
  { rewrite Hw, Rmult_assoc, Es. lra. }
  assert (WL : power 10 (p - 1) <= value w).
  { apply Rmult_le_reg_r with s; [assumption|]. rewrite <- E0, <- Vw. assumption. }
  assert (WU : value w < power 10 p).
  { apply Rmult_lt_reg_r with s; [assumption|]. rewrite <- E1, <- Vw. assumption. }
  assert (p1 : (0 <= p - 1)%Z) by lia.
  assert (NL : (10 ^ (p - 1) <= N0)%Z).
  { assert (C : IZR (10 ^ (p - 1)) < IZR N0 + 1)
      by (rewrite IZR_pow10 by assumption; lra).
    rewrite <- plus_IZR in C. apply lt_IZR in C. lia. }
  assert (NU : (N0 <= 10 ^ p)%Z).
  { assert (C : IZR N0 < IZR (10 ^ p) + 1)
      by (rewrite IZR_pow10 by lia; lra).
    rewrite <- plus_IZR in C. apply lt_IZR in C. lia. }
  destruct (Z.eqb_spec N0 (10 ^ p)) as [E|E]; intros [= <- <-].
  - split.
    + split; [lia|]. apply Z.pow_lt_mono_r; lia.
    + replace (X0 + 1 - p + 1)%Z with (X0 - p + 1 + 1)%Z by lia.
      rewrite power10_succ. fold s.
      rewrite IZR_pow10 by assumption.
      assert (E2 : power 10 p = 10 * power 10 (p - 1)).
      { rewrite <- power10_succ. f_equal. lia. }
      rewrite E, IZR_pow10 in RL, RU by lia.
      rewrite Vw. split; nra.
  - split; [lia|]. fold s. rewrite Vw. split; nra.
Qed.

(** A [P]-digit decimal strictly within a twentieth of its last place
    of a number is what [round_digits] returns for the number. *)
Lemma round_digits_unique (y : ratio) (N X : Z) :
  positive_ratio y ->
  (10 ^ (p - 1) <= N < 10 ^ p)%Z ->
  IZR N * power 10 (X - p + 1) - / 20 * power 10 (X - p + 1) < value y
  < IZR N * power 10 (X - p + 1) + / 20 * power 10 (X - p + 1) ->
  round_digits P y = (N, X).
Proof.
  intros Hy [NL NU]. set (s := power 10 (X - p + 1)). intros [YL YU].
  assert (Ps : 0 < s) by (apply power_pos; lia).
  assert (p1 : (0 <= p - 1)%Z) by lia.
  assert (E0 : power 10 X = power 10 (p - 1) * s).
  { unfold s. rewrite <- power_add by lia. f_equal. lia. }
  assert (E1 : power 10 (X + 1) = power 10 p * s).
  { unfold s. rewrite <- power_add by lia. f_equal. lia. }
  assert (E2 : power 10 p = 10 * power 10 (p - 1)).
  { rewrite <- power10_succ. f_equal. lia. }
  assert (P1 : 1 <= power 10 (p - 1)) by (apply power_ge_1; lia).
  assert (RNL : power 10 (p - 1) <= IZR N)
    by (rewrite <- IZR_pow10 by assumption; apply IZR_le; assumption).
  assert (RNU : IZR N + 1 <= power 10 p).
  { rewrite <- IZR_pow10 by lia. rewrite <- plus_IZR. apply IZR_le. lia. }
  unfold round_digits.
  destruct (ilog10_value y Hy) as [L U].
  set (X0 := ilog10 y) in *.
  destruct (Rle_lt_dec (power 10 X) (value y)) as [C|C].
  - (* the number is in the decade of the decimal *)
    assert (EX : X0 = X).
    { apply (log_unique 10 ltac:(lia) (value y)); split; try assumption.
      rewrite E1. nra. }
    rewrite EX.
    set (w := scale 10 y (p - 1 - X)).
    assert (Hw : value w = value y * power 10 (p - 1 - X))
      by (apply scale_value; [lia|apply Hy]).
    assert (Dw : (0 < den w)%Z) by (apply scale_positive; [lia|assumption]).
    assert (Es : power 10 (p - 1 - X) * s = 1).
    { unfold s. rewrite <- power_add by lia.
      replace (p - 1 - X + (X - p + 1))%Z with 0%Z by lia. reflexivity. }
    assert (Vw : value y = value w * s).
    { rewrite Hw, Rmult_assoc, Es. lra. }
    assert (RN : round_half_even w = N).
    { apply round_half_even_unique; [assumption|]. split.
      - apply Rmult_lt_reg_r with s; [assumption|]. nra.
      - apply Rmult_lt_reg_r with s; [assumption|]. nra. }
    rewrite RN. destruct (Z.eqb_spec N (10 ^ p)); [lia|reflexivity].
  - (* the number is just below the decade: the digits are 1 0 ... 0 *)
    assert (EN : N = (10 ^ (p - 1))%Z).
    { assert (C' : IZR N < IZR (10 ^ (p - 1)) + 1).
      { rewrite IZR_pow10 by assumption.
        apply Rmult_lt_reg_r with s; [assumption|]. nra. }
      rewrite <- plus_IZR in C'. apply lt_IZR in C'. lia. }
    assert (RNE : IZR N = power 10 (p - 1))
      by (rewrite EN; apply IZR_pow10; assumption).
    assert (E3 : power 10 X = 10 * power 10 (X - 1)).
    { rewrite <- power10_succ. f_equal. lia. }
    assert (Sle : s <= power 10 X) by (apply power_le; lia).
    assert (EX : X0 = (X - 1)%Z).
    { apply (log_unique 10 ltac:(lia) (value y)); split; try assumption.
      - nra.
      - replace (X - 1 + 1)%Z with X by lia. assumption. }
    rewrite EX.
    set (w := scale 10 y (p - 1 - (X - 1))).
    assert (Hw : value w = value y * power 10 (p - 1 - (X - 1)))
      by (apply scale_value; [lia|apply Hy]).
    assert (Dw : (0 < den w)%Z) by (apply scale_positive; [lia|assumption]).
    assert (Es : power 10 (p - 1 - (X - 1)) * s = 10).
    { unfold s. rewrite <- power_add by lia.
      replace (p - 1 - (X - 1) + (X - p + 1))%Z with 1%Z by lia.
      apply power_1. }
    assert (Vw : 10 * value y = value w * s).
    { rewrite Hw, Rmult_assoc, Es. lra. }
    assert (RN : round_half_even w = (10 ^ p)%Z).
    { apply round_half_even_unique; [assumption|].
      rewrite IZR_pow10 by lia. split.
      - apply Rmult_lt_reg_r with s; [assumption|]. nra.
      - apply Rmult_lt_reg_r with s; [assumption|]. nra. }
    rewrite RN, Z.eqb_refl, EN. f_equal. lia.
Qed.

End DecimalDigits.

(** ** Rounding to binary64 *)

Section BinaryRounding.
Import Exact.
Local Open Scope R_scope.

Lemma power2_succ (k : Z) : power 2 (k + 1) = 2 * power 2 k.
Proof. rewrite power_add, power_1 by lia. lra. Qed.

Lemma magnitude_positive (m : positive) (e : Z) :
  positive_ratio (binary64.magnitude m e).
Proof.
  unfold binary64.magnitude. apply scale_positive; [lia|].
  split; reflexivity.
Qed.

Lemma magnitude_value (m : positive) (e : Z) :
  value (binary64.magnitude m e) = IZR (Zpos m) * power 2 e.
Proof.
  unfold binary64.magnitude.
  rewrite scale_value by (lia || reflexivity). rewrite value_of_Z. reflexivity.
Qed.

(** A positive number neither too small nor too large rounds to a
    finite double within a relative error of [2 ^ -52]. *)
Lemma round_value (sg : bool) (q : ratio) :
  positive_ratio q ->
  power 2 (-1023) <= value q ->
  2 * value q < IZR (2 ^ 54 - 1) * power 2 971 ->
  exists m e,
    binary64.round sg q = S754_finite sg m e
    /\ value q - value q * power 2 (-52) <= value (binary64.magnitude m e)
       <= value q + value q * power 2 (-52).
Proof.
  intros Hq Lo Hi. destruct (ilog2_value q Hq) as [L U].
  pose proof (value_pos q Hq) as Vq.
  set (g := ilog2 q) in *.
  assert (G1 : (g <= 1023)%Z).
  { assert (g < 1024)%Z; [|lia].
    apply (power_lt_inv 2 ltac:(lia)).
    assert (E : power 2 1024 = IZR (2 ^ 53) * power 2 971).
    { rewrite <- power_IZR by lia. rewrite <- power_add by lia. reflexivity. }
    assert (IZR (2 ^ 54 - 1) < 2 * IZR (2 ^ 53)).
    { rewrite <- mult_IZR. apply IZR_lt. reflexivity. }
    pose proof (power_pos 2 ltac:(lia) 971). nra. }
  assert (G2 : (-1023 <= g)%Z).
  { assert (-1023 < g + 1)%Z; [|lia].
    apply (power_lt_inv 2 ltac:(lia)). lra. }
  unfold binary64.round.
  destruct (Z.eqb_spec (num q) 0) as [E|_]; [destruct Hq; lia|].
  fold g. set (e0 := Z.max (g - 52) (-1074)).
  assert (E1 : (g - 52 <= e0 <= g - 51)%Z) by lia.
  set (w := scale 2 q (- e0)).
  assert (Hw : value w = value q * power 2 (- e0))
    by (apply scale_value; [lia|apply Hq]).
  assert (Dw : (0 < den w)%Z) by (apply scale_positive; [lia|assumption]).
  destruct (round_half_even_value w Dw) as [RL RU].
  set (M := round_half_even w) in *.
  assert (Pe : 0 < power 2 e0) by (apply power_pos; lia).
  assert (Ee : power 2 (- e0) * power 2 e0 = 1).
  { rewrite <- power_add by lia. replace (- e0 + e0)%Z with 0%Z by lia.
    reflexivity. }
  assert (Vw : value q = value w * power 2 e0).
  { rewrite Hw, Rmult_assoc, Ee. lra. }
  assert (B51 : power 2 e0 * IZR (2 ^ 51) <= power 2 g).
  { rewrite <- power_IZR, <- power_add by lia. apply power_le; lia. }
  assert (B53 : power 2 (g + 1) <= power 2 e0 * IZR (2 ^ 53)).
  { rewrite <- power_IZR, <- power_add by lia. apply power_le; lia. }
  assert (WL : IZR (2 ^ 51) <= value w).
  { apply Rmult_le_reg_r with (power 2 e0); [assumption|]. nra. }
  assert (WU : value w < IZR (2 ^ 53)).
  { apply Rmult_lt_reg_r with (power 2 e0); [assumption|]. nra. }
  assert (M1 : (2 ^ 51 <= M)%Z).
  { assert (C : IZR (2 ^ 51) < IZR M + 1) by lra.
    rewrite <- plus_IZR in C. apply lt_IZR in C. lia. }
  assert (M2 : (M <= 2 ^ 53)%Z).
  { assert (C : IZR M < IZR (2 ^ 53) + 1) by lra.
    rewrite <- plus_IZR in C. apply lt_IZR in C. lia. }
  assert (Er : / 2 * power 2 e0 <= value q * power 2 (-52)).
  { assert (E51 : power 2 g * power 2 (-51) = power 2 (g - 51))
      by (rewrite <- power_add by lia; f_equal; lia).
    assert (E52 : power 2 (-51) = 2 * power 2 (-52))
      by (rewrite <- power2_succ; f_equal).
    assert (power 2 e0 <= power 2 (g - 51)) by (apply power_le; lia).
    pose proof (power_pos 2 ltac:(lia) (-52)). nra. }
  assert (Y : value q - value q * power 2 (-52) <= IZR M * power 2 e0
              <= value q + value q * power 2 (-52)).
  { rewrite Vw in *. split; nra. }
  destruct (Z.eqb_spec M (2 ^ 53)) as [EM|NM].
  - (* the mantissa rounds up to the next binade *)
    assert (E970 : (e0 <= 970)%Z).
    { destruct (Z_le_gt_dec e0 970) as [C|C]; [exact C|exfalso].
      assert (e0 = 971%Z) by lia.
      assert (2 * value w < IZR (2 ^ 54 - 1)).
      { apply Rmult_lt_reg_r with (power 2 e0); [assumption|].
        replace (power 2 e0) with (power 2 971) in * by (f_equal; lia). nra. }
      rewrite EM in RU.
      assert (IZR (2 ^ 54 - 1) = 2 * IZR (2 ^ 53) - 1).
      { rewrite <- mult_IZR, <- minus_IZR. reflexivity. }
      lra. }
    change (2 ^ 52)%Z with (Zpos (2 ^ 52)).
    exists (2 ^ 52)%positive, (e0 + 1)%Z.
    destruct (Z.ltb_spec 971 (e0 + 1)); [lia|]. split; [reflexivity|].
    rewrite magnitude_value, power2_succ.
    replace (IZR (Zpos (2 ^ 52)) * (2 * power 2 e0))
      with (IZR M * power 2 e0); [exact Y|].
    rewrite EM. change (2 ^ 53)%Z with (2 * Zpos (2 ^ 52))%Z.
    rewrite mult_IZR. ring.
  - destruct M as [|m|m]; try lia.
    exists m, e0. destruct (Z.ltb_spec 971 e0); [lia|].
    split; [reflexivity|]. rewrite magnitude_value. exact Y.
Qed.

End BinaryRounding.

(** ** Formatting, then parsing, then formatting *)

Section RoundTrip.
Import Exact.
Local Open Scope R_scope.

Lemma normal_bounds (sg : bool) (m : positive) (e : Z) :
  binary64.is_normal (S754_finite sg m e) = true ->
  (2 ^ 52 <= Zpos m <= 2 ^ 53 - 1)%Z /\ (-1074 <= e <= 971)%Z.
Proof.
  cbn [binary64.is_normal]. intros H.
  apply andb_prop in H. destruct H as [H H4].
  apply andb_prop in H. destruct H as [H H3].
  apply andb_prop in H. destruct H as [H1 H2].
  apply Z.leb_le in H1, H3, H4. apply Z.ltb_lt in H2. lia.
Qed.

Lemma normal_value (sg : bool) (m : positive) (e : Z) :
  binary64.is_normal (S754_finite sg m e) = true ->
  power 2 (-1022) <= value (binary64.magnitude m e)
  <= IZR (2 ^ 53 - 1) * power 2 971.
Proof.
  intros H. destruct (normal_bounds sg m e H) as [[M1 M2] [E1 E2]].
  rewrite magnitude_value.
  apply IZR_le in M1, M2.
  assert (L : power 2 (-1074) <= power 2 e) by (apply power_le; lia).
  assert (U : power 2 e <= power 2 971) by (apply power_le; lia).
  assert (E : power 2 (-1022) = IZR (2 ^ 52) * power 2 (-1074)).
  { rewrite <- power_IZR, <- power_add by lia. reflexivity. }
  pose proof (power_pos 2 ltac:(lia) (-1074)).
  pose proof (power_pos 2 ltac:(lia) e).
  assert (0 < IZR (2 ^ 52)) by (apply IZR_lt; reflexivity).
  rewrite E. split; nra.
Qed.

(** The six digits of a normal double denote a number that rounds to a
    double with the same six digits. *)
Lemma digits_round_trip (sg : bool) (m : positive) (e : Z) (N X : Z) (q : ratio) :
  binary64.is_normal (S754_finite sg m e) = true ->
  round_digits 6 (binary64.magnitude m e) = (N, X) ->
  positive_ratio q ->
  value q = IZR N * power 10 (X - 5) ->
  exists m' e',
    binary64.round sg q = S754_finite sg m' e'
    /\ round_digits 6 (binary64.magnitude m' e') = (N, X).
Proof.
  intros Hn HD Hq Vq.
  destruct (normal_value sg m e Hn) as [XL XU].
  destruct (round_digits_value 6 ltac:(lia) (binary64.magnitude m e) N X
              (magnitude_positive m e) HD) as [[NL NU] [DL DU]].
  change (Z.of_nat 6 - 1)%Z with 5%Z in NL.
  change (Z.of_nat 6) with 6%Z in NU.
  replace (X - Z.of_nat 6 + 1)%Z with (X - 5)%Z in DL, DU by lia.
  set (x := value (binary64.magnitude m e)) in *.
  set (s := power 10 (X - 5)) in *.
  assert (Ps : 0 < s) by (apply power_pos; lia).
  apply IZR_le in NL. apply IZR_lt in NU.
  change (IZR (10 ^ 5)) with 100000 in NL.
  change (IZR (10 ^ 6)) with 1000000 in NU.
  set (B := power 2 971) in *.
  assert (PB : 0 < B) by (apply power_pos; lia).
  (* the decimal is not too small *)
  assert (Lo : power 2 (-1023) <= value q).
  { assert (E : power 2 (-1022) = 2 * power 2 (-1023))
      by (rewrite <- power2_succ; f_equal).
    rewrite Vq. nra. }
  (* nor too large *)
  assert (Hi : 2 * value q < IZR (2 ^ 54 - 1) * B).
  { set (A := power 10 303).
    assert (PA : 0 < A) by (apply power_pos; lia).
    assert (F2 : 2 * IZR (2 ^ 53 - 1) * B < 359539 * A).
    { unfold A, B. rewrite !power_IZR by lia. rewrite <- !mult_IZR.
      apply IZR_lt. vm_compute. reflexivity. }
    assert (F3 : 2 * 179769 * A < IZR (2 ^ 54 - 1) * B).
    { unfold A, B. rewrite !power_IZR by lia. rewrite <- !mult_IZR.
      apply IZR_lt. vm_compute. reflexivity. }
    rewrite Vq.
    destruct (Z_lt_le_dec X 308) as [C|C]; [|destruct (Z.eq_dec X 308) as [C'|C']].
    - assert (S1 : power 10 (X + 1) <= power 10 308) by (apply power_le; lia).
      assert (S2 : power 10 (X + 1) = 1000000 * s).
      { unfold s. replace (X + 1)%Z with (6 + (X - 5))%Z by lia.
        rewrite power_add, (power_IZR 10 6) by lia. reflexivity. }
      assert (S3 : power 10 308 = 100000 * A).
      { unfold A. change 308%Z with (5 + 303)%Z.
        rewrite power_add, (power_IZR 10 5) by lia. reflexivity. }
      nra.
    - assert (S1 : s = A) by (unfold s, A; f_equal; lia).
      assert (N1 : IZR N < 179770) by nra.
      assert (N2 : (N <= 179769)%Z) by (apply lt_IZR in N1; lia).
      apply IZR_le in N2. nra.
    - exfalso.
      assert (S1 : power 10 304 <= s) by (apply power_le; lia).
      assert (S3 : power 10 304 = 10 * A).
      { unfold A. change 304%Z with (303 + 1)%Z. apply power10_succ. }
      nra. }
  destruct (round_value sg q Hq Lo Hi) as (m' & e' & Hr & YL & YU).
  exists m', e'. split; [exact Hr|].
  apply round_digits_unique; [lia|apply magnitude_positive| |].
  - change (Z.of_nat 6 - 1)%Z with 5%Z. change (Z.of_nat 6) with 6%Z.
    split; [apply le_IZR|apply lt_IZR]; assumption.
  - replace (X - Z.of_nat 6 + 1)%Z with (X - 5)%Z by lia. fold s.
    set (y := value (binary64.magnitude m' e')) in *.
    assert (E52 : power 2 (-52) * IZR (2 ^ 52) = 1).
    { rewrite <- power_IZR, <- power_add by lia. reflexivity. }
    change (IZR (2 ^ 52)) with 4503599627370496 in E52.
    pose proof (power_pos 2 ltac:(lia) (-52)) as P52.
    rewrite Vq in YL, YU.
    assert (T : IZR N * s * power 2 (-52) < / 20 * s).
    { assert (IZR N * power 2 (-52) < / 20) by nra. nra. }
    split; lra.
Qed.

End RoundTrip.

(** ** Decimal numerals: writing and reading *)

Section Numerals.
Local Open Scope Z_scope.

Lemma span_app_stop (p : ascii -> bool) (run rest : list ascii) :
  forallb p run = true ->
  p (hd Ascii.zero rest) = false \/ rest = [] ->
  span p (run ++ rest)%list = (run, rest).
Proof.
  intros Hrun Hrest. induction run as [|c run IH].
  - cbn [app]. destruct rest as [|c r]; [reflexivity|].
    destruct Hrest as [H|H]; [|discriminate]. cbn [hd] in H.
    cbn [span]. rewrite H. reflexivity.
  - cbn [forallb] in Hrun. apply andb_prop in Hrun. destruct Hrun as [Hc Hrun].
    cbn [app span]. rewrite Hc, (IH Hrun). reflexivity.
Qed.

Lemma span_all (p : ascii -> bool) (run : list ascii) :
  forallb p run = true -> span p run = (run, []).
Proof.
  intros H. rewrite <- (app_nil_r run) at 1. apply span_app_stop; auto.
Qed.

Lemma span_split (p : ascii -> bool) (l : list ascii) :
  l = (fst (span p l) ++ skip p l)%list.
Proof.
  unfold skip. induction l as [|c l IH]; [reflexivity|].
  cbn [span]. destruct (p c); [|reflexivity].
  destruct (span p l) as [run rest]. cbn [fst snd app] in *. congruence.
Qed.

Lemma all_zero_repeat (l : list ascii) :
  forallb (is_char "0") l = true -> l = repeat "0"%char (List.length l).
Proof.
  induction l as [|c l IH]; [reflexivity|].
  cbn [forallb]. intros H. apply andb_prop in H. destruct H as [Hc Hl].
  apply is_char_true in Hc. subst c. cbn [List.length repeat]. f_equal. auto.
Qed.

(** Stripping removes a run of zeros from the end. *)
Lemma strip_trailing_zeros_app (l : list ascii) :
  exists k, l = (strip_trailing_zeros l ++ repeat "0"%char k)%list.
Proof.
  unfold strip_trailing_zeros.
  exists (List.length (fst (span (is_char "0") (rev l)))).
  rewrite <- (rev_involutive l) at 1.
  rewrite (span_split (is_char "0") (rev l)) at 1.
  rewrite rev_app_distr. f_equal.
  generalize (all_zero_repeat _ (span_forallb (is_char "0") (rev l))).
  generalize (fst (span (is_char "0") (rev l))) as run. intros run E.
  rewrite E at 1. apply rev_repeat.
Qed.

Lemma forallb_repeat_zero (k : nat) : forallb isdigit (repeat "0"%char k) = true.
Proof. induction k as [|k IH]; [reflexivity|exact IH]. Qed.

Lemma strip_trailing_zeros_isdigit (l : list ascii) :
  forallb isdigit l = true -> forallb isdigit (strip_trailing_zeros l) = true.
Proof.
  destruct (strip_trailing_zeros_app l) as [k E]. intros H.
  rewrite E, forallb_app in H. apply andb_prop in H. tauto.
Qed.

Lemma number_from (b : Z) (l : list ascii) (acc : Z) :
  fold_left (fun a c => a * b + digit_value c) l acc
  = acc * b ^ Z.of_nat (List.length l) + number b l.
Proof.
  unfold number. revert acc. induction l as [|c l IH]; intros acc.
  - cbn. lia.
  - cbn [fold_left List.length]. rewrite IH, (IH (0 * b + digit_value c)).
    rewrite Nat2Z.inj_succ, Z.pow_succ_r by lia. ring.
Qed.

Lemma number_app (b : Z) (l1 l2 : list ascii) :
  number b (l1 ++ l2)
  = number b l1 * b ^ Z.of_nat (List.length l2) + number b l2.
Proof.
  unfold number at 1. rewrite fold_left_app, number_from. reflexivity.
Qed.

Lemma number_zeros (k : nat) : number 10 (repeat "0"%char k) = 0.
Proof.
  induction k as [|k IH]; [reflexivity|].
  change (repeat "0"%char (S k)) with (["0"%char] ++ repeat "0"%char k)%list.
  rewrite number_app, IH. reflexivity.
Qed.

Lemma digit_value_char (d : Z) : 0 <= d < 10 -> digit_value (digit_char d) = d.
Proof.
  intros H.
  assert (C : d = 0 \/ d = 1 \/ d = 2 \/ d = 3 \/ d = 4 \/ d = 5
              \/ d = 6 \/ d = 7 \/ d = 8 \/ d = 9) by lia.
  repeat (destruct C as [->|C]; [reflexivity|]). subst. reflexivity.
Qed.

Lemma digits_onto_app (P : nat) (n : Z) (acc : list ascii) :
  digits_onto P n acc = (digits P n ++ acc)%list.
Proof.
  unfold digits. revert n acc. induction P as [|P IH]; intros n acc; [reflexivity|].
  cbn [digits_onto]. rewrite IH, (IH _ [_]), <- app_assoc. reflexivity.
Qed.

Lemma digits_S (P : nat) (n : Z) :
  digits (S P) n = (digits P (n / 10) ++ [digit_char (n mod 10)])%list.
Proof. unfold digits at 1. cbn [digits_onto]. apply digits_onto_app. Qed.

Lemma digits_length (P : nat) (n : Z) : List.length (digits P n) = P.
Proof. unfold digits. rewrite digits_onto_length. simpl. lia. Qed.

Lemma digits_isdigit (P : nat) (n : Z) : forallb isdigit (digits P n) = true.
Proof. apply digits_onto_isdigit. reflexivity. Qed.

(** The digits written are read back as the number. *)
Lemma number_digits (P : nat) (n : Z) :
  number 10 (digits P n) = n mod 10 ^ Z.of_nat P.
Proof.
  revert n. induction P as [|P IH]; intros n.
  - cbn. rewrite Z.mod_1_r. reflexivity.
  - rewrite digits_S, number_app, IH.
    cbn [List.length number fold_left].
    rewrite digit_value_char by (apply Z.mod_pos_bound; lia).
    rewrite (Nat2Z.inj_succ P), Z.pow_succ_r by lia.
    rewrite (Z.rem_mul_r n 10 (10 ^ Z.of_nat P)) by lia.
    change (10 ^ Z.of_nat 1) with 10. lia.
Qed.

Lemma number_digits_small (P : nat) (n : Z) :
  0 <= n < 10 ^ Z.of_nat P -> number 10 (digits P n) = n.
Proof. intros H. rewrite number_digits. apply Z.mod_small. exact H. Qed.

Lemma number_strip_leading_zeros (l : list ascii) :
  number 10 (strip_leading_zeros l) = number 10 l.
Proof.
  induction l as [|c l IH]; [reflexivity|].
  cbn [strip_leading_zeros]. destruct l as [|c' l']; [reflexivity|].
  destruct (is_char "0" c) eqn:E; [|reflexivity].
  apply is_char_true in E. subst c. rewrite IH.
  change ("0"%char :: c' :: l') with (["0"%char] ++ c' :: l')%list.
  rewrite (number_app 10 ["0"%char]). reflexivity.
Qed.

Lemma number_decimal (n : Z) : 0 <= n -> number 10 (decimal n) = n.
Proof.
  intros H. unfold decimal.
  rewrite number_strip_leading_zeros, number_digits_small; [reflexivity|].
  split; [assumption|].
  destruct (Z.eq_dec n 0) as [->|N]; [reflexivity|].
  destruct (Z.log2_spec n ltac:(lia)) as [_ U].
  rewrite Nat2Z.inj_succ, Z2Nat.id by apply Z.log2_nonneg.
  apply Z.lt_le_trans with (2 ^ Z.succ (Z.log2 n)); [assumption|].
  apply Z.pow_le_mono_l. lia.
Qed.

End Numerals.

Section ReadingBack.
Import Exact.

Lemma isdigit_class (c : ascii) :
  isdigit c = true ->
  isspace c = false /\ is_char "-" c = false /\ is_char "+" c = false
  /\ is_char "." c = false /\ is_e c = false.
Proof.
  destruct c as [b0 b1 b2 b3 b4 b5 b6 b7];
    destruct b0, b1, b2, b3, b4, b5, b6, b7; vm_compute;
    intros H; try discriminate H; repeat split.
Qed.

Lemma ends_mantissa_hd (rest : list ascii) :
  ends_mantissa rest ->
  (isdigit (hd Ascii.zero rest) = false \/ rest = [])
  /\ is_char "." (hd Ascii.zero rest) = false.
Proof.
  intros [->|[X ->]]; split; auto.
Qed.

Lemma mantissa_text (ip fp rest : list ascii) :
  forallb isdigit ip = true -> ip <> [] -> forallb isdigit fp = true ->
  ends_mantissa rest ->
  mantissa isdigit (ip ++ point_part fp ++ rest)%list = Some (ip, fp, rest).
Proof.
  intros Hip Nip Hfp Hrest. destruct (ends_mantissa_hd rest Hrest) as [R1 R2].
  unfold mantissa. destruct fp as [|f fp].
  - cbn [point_part app]. rewrite (span_app_stop isdigit ip rest Hip R1).
    destruct rest as [|c r].
    + rewrite app_nil_r. destruct ip; [contradiction|reflexivity].
    + cbn [hd] in R2. rewrite R2, app_nil_r.
      destruct ip; [contradiction|reflexivity].
  - cbn [point_part app].
    rewrite (span_app_stop isdigit ip ("."%char :: f :: fp ++ rest)%list Hip)
      by (left; reflexivity).
    change (is_char "." ".") with true. cbv iota.
    change (f :: fp ++ rest)%list with ((f :: fp) ++ rest)%list.
    rewrite (span_app_stop isdigit (f :: fp) rest Hfp R1).
    destruct ip; [contradiction|reflexivity].
Qed.

Lemma exponent_text (X : Z) :
  exponent (tl (exponent_part X)) = Some (X, []).
Proof.
  unfold exponent_part, exponent. cbn [tl].
  set (ed := if (Z.abs X <? 10)%Z then digits 2 (Z.abs X) else decimal (Z.abs X)).
  assert (D : forallb isdigit ed = true /\ ed <> [] /\ number 10 ed = Z.abs X).
  { unfold ed. destruct (Z.ltb_spec (Z.abs X) 10).
    - split; [apply digits_isdigit|]. split; [discriminate|].
      apply number_digits_small. change (10 ^ Z.of_nat 2)%Z with 100%Z. lia.
    - destruct (decimal_isdigit (Z.abs X)) as [D1 D2].
      split; [exact D1|]. split; [exact D2|]. apply number_decimal. lia. }
  destruct D as (D1 & D2 & D3).
  destruct (Z.ltb_spec X 0).
  - change (sign ("-"%char :: ed)) with (true, ed). cbv beta iota.
    rewrite (span_all isdigit ed D1), D3.
    destruct ed; [contradiction|]. do 2 f_equal. lia.
  - change (sign ("+"%char :: ed)) with (false, ed). cbv beta iota.
    rewrite (span_all isdigit ed D1), D3.
    destruct ed; [contradiction|]. do 2 f_equal. lia.
Qed.

Section Extraction.
Variable indeterminate : double.
Variables (sg : bool) (ip fp : list ascii).
Hypothesis ip_digits : forallb isdigit ip = true.
Hypothesis ip_nonempty : ip <> [].
Hypothesis fp_digits : forallb isdigit fp = true.

Lemma signed_text_sign (rest : list ascii) :
  let l := (sign_text sg ++ ip ++ rest)%list in
  skip isspace l = l /\ l <> [] /\ sign l = (sg, (ip ++ rest)%list).
Proof.
  destruct ip as [|i0 ip'] eqn:E; [contradiction|].
  cbn [forallb] in ip_digits. apply andb_prop in ip_digits.
  destruct ip_digits as [D0 _].
  destruct (isdigit_class i0 D0) as (S0 & M0 & P0 & _).
  destruct sg; cbn [sign_text app].
  - split; [reflexivity|]. split; [discriminate|reflexivity].
  - split; [|split; [discriminate|]].
    + apply skip_not_space. exact S0.
    + cbn [sign]. rewrite M0, P0. reflexivity.
Qed.

(** Reading a written decimal without an exponent part. *)
Lemma extract_plain :
  extract_double (sign_text sg ++ ip ++ point_part fp)%list indeterminate
  = saturate (binary64.round sg (decimal_value ip fp 0)).
Proof.
  destruct (signed_text_sign (point_part fp)) as (Hs & Hn & Hg).
  unfold extract_double. rewrite Hs.
  destruct (sign_text sg ++ ip ++ point_part fp)%list as [|c l] eqn:El;
    [contradiction|].
  rewrite Hg.
  rewrite <- (app_nil_r (point_part fp)).
  rewrite mantissa_text by (assumption || (left; reflexivity)).
  reflexivity.
Qed.

(** Reading a written decimal with its exponent part. *)
Lemma extract_scientific (X : Z) :
  extract_double (sign_text sg ++ ip ++ point_part fp ++ exponent_part X)%list
    indeterminate
  = saturate (binary64.round sg (decimal_value ip fp X)).
Proof.
  destruct (signed_text_sign (point_part fp ++ exponent_part X)%list)
    as (Hs & Hn & Hg).
  unfold extract_double. rewrite Hs.
  destruct (sign_text sg ++ ip ++ point_part fp ++ exponent_part X)%list
    as [|c l] eqn:El; [contradiction|].
  rewrite Hg.
  rewrite mantissa_text by (assumption || (right; eexists; reflexivity)).
  pose proof (exponent_text X) as HX.
  unfold exponent_part in *. cbn [tl] in HX.
  change (is_e "e") with true. cbv iota. rewrite HX. reflexivity.
Qed.

End Extraction.

End ReadingBack.

Section WrittenValue.
Import Exact.
Local Open Scope R_scope.

Lemma decimal_value_value (ip fp : list ascii) (ex : Z) :
  value (decimal_value ip fp ex)
  = IZR (number 10 (ip ++ fp)) * power 10 (ex - Z.of_nat (List.length fp)).
Proof.
  unfold decimal_value. rewrite scale_value by (lia || reflexivity).
  rewrite value_of_Z. reflexivity.
Qed.

Lemma decimal_value_positive (ip fp : list ascii) (ex : Z) :
  (0 < number 10 (ip ++ fp))%Z -> positive_ratio (decimal_value ip fp ex).
Proof.
  intros H. unfold decimal_value. apply scale_positive; [lia|].
  split; [exact H|reflexivity].
Qed.

(** Stripping the trailing zeros of the fraction keeps the value. *)
Lemma stripped_value (pre raw : list ascii) (E : Z) :
  IZR (number 10 (pre ++ strip_trailing_zeros raw))
  * power 10 (E - Z.of_nat (List.length (strip_trailing_zeros raw)))
  = IZR (number 10 (pre ++ raw)) * power 10 (E - Z.of_nat (List.length raw))
  /\ ((0 < number 10 (pre ++ raw))%Z ->
      (0 < number 10 (pre ++ strip_trailing_zeros raw))%Z).
Proof.
  destruct (strip_trailing_zeros_app raw) as [k Ek].
  set (fp := strip_trailing_zeros raw) in *.
  assert (En : number 10 (pre ++ raw)
               = (number 10 (pre ++ fp) * 10 ^ Z.of_nat k)%Z).
  { rewrite Ek, app_assoc, number_app, number_zeros, repeat_length. lia. }
  assert (El : Z.of_nat (List.length raw)
               = (Z.of_nat (List.length fp) + Z.of_nat k)%Z).
  { rewrite Ek at 1. rewrite length_app, repeat_length. lia. }
  split.
  - rewrite En, El, mult_IZR, IZR_pow10 by lia.
    rewrite (power10_split (E - Z.of_nat (List.length fp))
               (Z.of_nat k)).
    replace (E - Z.of_nat (List.length fp) - Z.of_nat k)%Z
      with (E - (Z.of_nat (List.length fp) + Z.of_nat k))%Z by lia.
    ring.
  - rewrite En. intros H.
    assert (0 < 10 ^ Z.of_nat k)%Z by (apply Z.pow_pos_nonneg; lia). nia.
Qed.

Lemma forallb_firstn_skipn (p : ascii -> bool) (n : nat) (l : list ascii) :
  forallb p l = true ->
  forallb p (firstn n l) = true /\ forallb p (skipn n l) = true.
Proof.
  intros H. rewrite <- (firstn_skipn n l), forallb_app in H.
  apply andb_prop in H. exact H.
Qed.

(** What a formatted magnitude reads back as: a fraction with the value
    of its digits and exponent. *)
Lemma style_g_read (sg : bool) (x : ratio) (N X : Z) :
  round_digits precision x = (N, X) ->
  (10 ^ 5 <= N < 10 ^ 6)%Z ->
  exists q,
    positive_ratio q
    /\ value q = IZR N * power 10 (X - 5)
    /\ forall indeterminate,
        extract_double (sign_text sg ++ style_g precision x)%list indeterminate
        = saturate (binary64.round sg q).
Proof.
  intros HD HN. unfold style_g. rewrite HD.
  unfold precision in *.
  set (ds := digits 6 N).
  assert (Dds : forallb isdigit ds = true) by apply digits_isdigit.
  assert (Nds : number 10 ds = N)
    by (apply number_digits_small; change (10 ^ Z.of_nat 6)%Z with (10 ^ 6)%Z; lia).
  assert (Lds : List.length ds = 6%nat) by apply digits_length.
  destruct ((-4 <=? X)%Z && (X <? Z.of_nat 6)%Z) eqn:EX.
  - apply andb_prop in EX. destruct EX as [E4 E6].
    apply Z.leb_le in E4. apply Z.ltb_lt in E6.
    unfold style_f. destruct (Z.leb_spec 0 X) as [E0|E0].
    + (* digits before and after the point *)
      set (n := S (Z.to_nat X)).
      destruct (forallb_firstn_skipn isdigit n ds Dds) as [Dp Dr].
      destruct (stripped_value (firstn n ds) (skipn n ds) 0) as [V Pz].
      rewrite firstn_skipn, Nds in V, Pz.
      exists (decimal_value (firstn n ds) (strip_trailing_zeros (skipn n ds)) 0).
      split; [apply decimal_value_positive, Pz; lia|]. split.
      * rewrite decimal_value_value, V. f_equal. f_equal.
        rewrite length_skipn, Lds. unfold n. lia.
      * intros u. unfold fraction. apply extract_plain.
        -- exact Dp.
        -- intros C. apply (f_equal (@List.length ascii)) in C.
           rewrite length_firstn, Lds in C. unfold n in C. simpl in C. lia.
        -- apply strip_trailing_zeros_isdigit, Dr.
    + (* a zero, the point, zeros and the digits *)
      set (zs := repeat "0"%char (Z.to_nat (- X - 1))).
      destruct (stripped_value ["0"%char] (zs ++ ds) 0) as [V Pz].
      assert (Ez : number 10 (["0"%char] ++ zs ++ ds) = N).
      { rewrite !number_app. unfold zs. rewrite number_zeros, Nds.
        cbn. lia. }
      rewrite Ez in V, Pz.
      exists (decimal_value ["0"%char] (strip_trailing_zeros (zs ++ ds)) 0).
      split; [apply decimal_value_positive, Pz; lia|]. split.
      * rewrite decimal_value_value, V. f_equal. f_equal.
        rewrite length_app, Lds. unfold zs. rewrite repeat_length. lia.
      * intros u. unfold fraction.
        change ("0"%char :: point_part (strip_trailing_zeros (zs ++ ds)))
          with (["0"%char] ++ point_part (strip_trailing_zeros (zs ++ ds)))%list.
        apply extract_plain; [reflexivity|discriminate|].
        apply strip_trailing_zeros_isdigit. rewrite forallb_app.
        unfold zs. rewrite forallb_repeat_zero, Dds. reflexivity.
  - (* one digit, the point, digits and the exponent *)
    unfold style_e. destruct ds as [|d0 raw] eqn:Eds; [discriminate|].
    cbn [forallb] in Dds. apply andb_prop in Dds. destruct Dds as [D0 Dr].
    destruct (stripped_value [d0] raw X) as [V Pz].
    change ([d0] ++ raw)%list with (d0 :: raw) in V, Pz. rewrite Nds in V, Pz.
    exists (decimal_value [d0] (strip_trailing_zeros raw) X).
    split; [apply decimal_value_positive, Pz; lia|]. split.
    + rewrite decimal_value_value, V. f_equal. f_equal.
      cbn [List.length] in Lds. lia.
    + intros u. unfold fraction.
      change (d0 :: point_part (strip_trailing_zeros raw) ++ exponent_part X)%list
        with ([d0] ++ point_part (strip_trailing_zeros raw) ++ exponent_part X)%list.
      apply extract_scientific; [cbn; rewrite D0; reflexivity|discriminate|].
      apply strip_trailing_zeros_isdigit, Dr.
Qed.

End WrittenValue.

(** ** Format after parse *)

Lemma hex_extracts_zero (s : string) (indeterminate : double) :
  isHex s = true ->
  exists z, extract_double (chars s) indeterminate = S754_zero z.
Proof.
  intros H. destruct (isHex_shape s H) as (x & l & Hx & Hs & Hl).
  unfold extract_double. rewrite Hs.
  destruct (chars s) as [|c r] eqn:E; [discriminate|].
  destruct (sign (c :: r)) as [neg body]. cbn [snd] in Hl. subst body.
  exists neg.
  assert (X : isdigit x = false /\ is_char "." x = false /\ is_e x = false).
  { apply orb_prop in Hx. destruct Hx as [Hx|Hx];
      apply is_char_true in Hx; subst x; repeat split. }
  destruct X as (X1 & X2 & X3).
  unfold mantissa. cbn [span]. change (isdigit "0") with true. cbv iota.
  rewrite X1. cbv iota beta. rewrite X2. cbn [app]. rewrite X3.
  reflexivity.
Qed.

Lemma null_extracts_zero (s : string) (indeterminate : double) :
  isNullValue s = true ->
  exists z, extract_double (chars s) indeterminate = S754_zero z.
Proof.
  intros H. apply isNullValue_iff in H. unfold Spec.null_spellings in H.
  cbn [In] in H.
  repeat (destruct H as [<-|H]; [eexists; vm_compute; reflexivity|]).
  contradiction.
Qed.

(** A token that the stream reads as a finite non-zero number is
    converted by the stream. *)
Lemma toDoubleNumber_stream (indeterminate : double) (s : string)
  (sg : bool) (m : positive) (e : Z) :
  extract_double (chars s) indeterminate = S754_finite sg m e ->
  toDoubleNumber indeterminate s = S754_finite sg m e.
Proof.
  intros H. unfold toDoubleNumber, toDoubleNumber_branch.
  destruct (isHex s) eqn:EH.
  - destruct (hex_extracts_zero s indeterminate EH) as [z Hz]. congruence.
  - destruct (isNullValue s) eqn:EN; [|exact H].
    destruct (null_extracts_zero s indeterminate EN) as [z Hz]. congruence.
Qed.

(** C9, the claim as stated fails: the double nearest to 1.000004e-318
    is subnormal and formats as "1e-318", whose nearest double formats
    as "9.99999e-319". *)
Lemma subnormal_format_drifts :
  Spec.format_parse S754_nan "1.000004e-318" = "1e-318"
  /\ Spec.format_parse S754_nan (Spec.format_parse S754_nan "1.000004e-318")
     = "9.99999e-319"
  /\ toDoubleNumber S754_nan "1.000004e-318" = S754_finite false 202403 (-1074)
  /\ toDoubleNumber S754_nan "1e-318" = S754_finite false 202402 (-1074).
Proof.
  split; [vm_compute; reflexivity|].
  split; [vm_compute; reflexivity|].
  split; vm_compute; reflexivity.
Qed.

(** C9, amended. When the float value of a token is +0 or a normal
    number, formatting it, parsing the text and formatting again gives
    the same text. *)
Theorem format_parse_fixed_point (indeterminate : double) (s : string) :
  toDoubleNumber indeterminate s = S754_zero false
  \/ binary64.is_normal (toDoubleNumber indeterminate s) = true ->
  Spec.format_parse indeterminate (Spec.format_parse indeterminate s)
  = Spec.format_parse indeterminate s.
Proof.
  unfold Spec.format_parse.
  generalize (toDoubleNumber indeterminate s) as d. intros d [->|Hn].
  - vm_compute. reflexivity.
  - destruct d as [z|z| |sg m e]; try discriminate Hn.
    unfold toString at 2 3, insert, Insertable_double, insert_double.
    unfold precision in *.
    destruct (round_digits 6 (binary64.magnitude m e)) as [N X] eqn:HD.
    destruct (round_digits_value 6 ltac:(lia) _ N X (magnitude_positive m e) HD)
      as [HN _].
    destruct (style_g_read sg _ N X HD HN) as (q & Pq & Vq & Hq).
    destruct (digits_round_trip sg m e N X q Hn HD Pq Vq) as (m' & e' & Hr & HD').
    set (t := text (sign_text sg ++ style_g 6 (binary64.magnitude m e))).
    assert (Ht : toDoubleNumber indeterminate t = S754_finite sg m' e').
    { apply toDoubleNumber_stream. unfold t, chars, text.
      rewrite list_ascii_of_string_of_list_ascii, Hq, Hr. reflexivity. }
    rewrite Ht. unfold t, toString, insert, Insertable_double, insert_double.
    unfold precision, style_g. rewrite HD, HD'. reflexivity.
Qed.

Lemma format_parse_fixed_point_witness :
  Spec.format_parse S754_nan (Spec.format_parse S754_nan "1.0E-1")
  = Spec.format_parse S754_nan "1.0E-1"
  /\ Spec.format_parse S754_nan "1.0E-1" = "0.1".
Proof.
  split; [|vm_compute; reflexivity].
  apply format_parse_fixed_point. right. vm_compute. reflexivity.
Defined.

(** * Further properties of the engine *)

(** ** Blank and digitless tokens *)

Lemma skip_nil_iff (p : ascii -> bool) (l : list ascii) :
  skip p l = [] <-> forallb p l = true.
Proof.
  unfold skip. induction l as [|c l IH]; cbn [span forallb snd]; [tauto|].
  destruct (p c); cbn [andb].
  - destruct (span p l) as [run rest]. cbn [snd] in *. exact IH.
  - cbn [snd]. split; discriminate.
Qed.

Lemma blank_is_unclassified (s : string) :
  forallb isspace (chars s) = true ->
  isHex s = false /\ isOct s = false /\ isNullValue s = false.
Proof.
  intros B. pose proof (proj2 (skip_nil_iff isspace (chars s)) B) as K.
  split; [|split].
  - destruct (isHex s) eqn:E; [|reflexivity].
    destruct (isHex_shape s E) as (x & l & _ & Hs & Hl).
    rewrite <- Hs, K in Hl. discriminate.
  - destruct (isOct s) eqn:E; [|reflexivity].
    destruct (isOct_shape s E) as (Hs & l & Hl).
    rewrite <- Hs, K in Hl. discriminate.
  - destruct (isNullValue s) eqn:E; [|reflexivity].
    apply isNullValue_iff in E. unfold Spec.null_spellings in E. cbn [In] in E.
    repeat (destruct E as [<-|E]; [discriminate B|]). contradiction.
Qed.

(** X1. A blank token (empty, or white space only) leaves the
    variable of toDoubleNumber as it was declared, without a value: the
    result is indeterminate; toLongNumber reads 0 in it. *)
Theorem blank_token_is_indeterminate (indeterminate : double) (s : string) :
  forallb isspace (chars s) = true ->
  toDoubleNumber indeterminate s = indeterminate /\ toLongNumber s = 0%Z.
Proof.
  intros B. destruct (blank_is_unclassified s B) as (H & O & N).
  pose proof (proj2 (skip_nil_iff isspace (chars s)) B) as K.
  split.
  - unfold toDoubleNumber, toDoubleNumber_branch. rewrite H, N.
    unfold extract_double. rewrite K. reflexivity.
  - unfold toLongNumber. rewrite H, O.
    destruct (basic_string.found (basic_string.find_first_of s "eE")) eqn:F.
    + rewrite find_first_of_chars in F. unfold Spec.contains_any in F.
      apply existsb_exists in F. destruct F as (c & Hc & F).
      rewrite forallb_forall in B. specialize (B c Hc).
      exfalso. revert B F.
      destruct c as [b0 b1 b2 b3 b4 b5 b6 b7];
      destruct b0, b1, b2, b3, b4, b5, b6, b7; vm_compute; congruence.
    + unfold extract_bigint. rewrite K. reflexivity.
Qed.

Lemma blank_token_is_indeterminate_witness :
  toDoubleNumber (S754_infinity true) "  " = S754_infinity true
  /\ toLongNumber "  " = 0%Z.
Proof.
  apply (blank_token_is_indeterminate (S754_infinity true) "  "). reflexivity.
Defined.

Lemma sign_incl (c : ascii) (l : list ascii) : In c (snd (sign l)) -> In c l.
Proof.
  destruct l as [|d l]; [auto|]. cbn [sign].
  destruct (is_char "-" d); [right; assumption|].
  destruct (is_char "+" d); [right; assumption|auto].
Qed.

Lemma skip_incl (p : ascii -> bool) (c : ascii) (l : list ascii) :
  In c (skip p l) -> In c l.
Proof.
  intros H. rewrite (span_split p l). apply in_or_app. auto.
Qed.

Lemma span_none (p : ascii -> bool) (l : list ascii) :
  forallb (fun c => negb (p c)) l = true -> span p l = ([], l).
Proof.
  destruct l as [|c l]; [reflexivity|]. cbn [forallb span].
  destruct (p c); [discriminate|reflexivity].
Qed.

Lemma mantissa_none (l : list ascii) :
  forallb (fun c => negb (isdigit c)) l = true -> mantissa isdigit l = None.
Proof.
  intros H. unfold mantissa. rewrite (span_none isdigit l H).
  destruct l as [|c r]; [reflexivity|].
  cbn [forallb] in H. apply andb_prop in H. destruct H as [_ H].
  destruct (is_char "." c); [|reflexivity].
  rewrite (span_none isdigit r H). reflexivity.
Qed.

Lemma forallb_incl (p : ascii -> bool) (l l' : list ascii) :
  (forall c, In c l' -> In c l) -> forallb p l = true -> forallb p l' = true.
Proof.
  intros I H. rewrite forallb_forall in *. auto.
Qed.

Lemma digitless_is_unclassified (s : string) :
  forallb (fun c => negb (isdigit c)) (chars s) = true ->
  isHex s = false /\ isOct s = false /\ isNullValue s = false.
Proof.
  intros B.
  assert (Z0 : ~ In "0"%char (chars s)).
  { intros I. rewrite forallb_forall in B. specialize (B _ I). discriminate B. }
  split; [|split].
  - destruct (isHex s) eqn:E; [|reflexivity].
    destruct (isHex_shape s E) as (x & l & _ & _ & Hl).
    exfalso. apply Z0, sign_incl. rewrite Hl. left. reflexivity.
  - destruct (isOct s) eqn:E; [|reflexivity].
    destruct (isOct_shape s E) as (_ & l & Hl).
    exfalso. apply Z0, sign_incl. rewrite Hl. left. reflexivity.
  - destruct (isNullValue s) eqn:E; [|reflexivity].
    apply isNullValue_iff in E. unfold Spec.null_spellings in E. cbn [In] in E.
    repeat (destruct E as [<-|E]; [discriminate B|]). contradiction.
Qed.

(** X2. A token with no digit: toLongNumber reads 0 unless the token has an
    exponent letter, and toDoubleNumber reads +0.0 unless the token is
    blank. *)
Theorem digitless_token_is_zero (indeterminate : double) (s : string) :
  forallb (fun c => negb (isdigit c)) (chars s) = true ->
  (basic_string.find_first_of s "eE" = None -> toLongNumber s = 0%Z)
  /\ (forallb isspace (chars s) = false ->
      toDoubleNumber indeterminate s = S754_zero false).
Proof.
  intros B. destruct (digitless_is_unclassified s B) as (H & O & N).
  assert (D : forall neg r, sign (skip isspace (chars s)) = (neg, r) ->
              forallb (fun c => negb (isdigit c)) r = true).
  { intros neg r E. apply (forallb_incl _ (chars s)); [|exact B].
    intros c I. apply (skip_incl isspace), sign_incl. rewrite E. exact I. }
  split.
  - intros F. unfold toLongNumber. rewrite H, O, F. cbn [basic_string.found].
    rewrite extract_bigint_dec. unfold Spec.signed_digits.
    destruct (sign (skip isspace (chars s))) as [neg r] eqn:E. cbn [fst snd].
    change (of_base dec) with isdigit.
    rewrite (span_none isdigit r (D neg r eq_refl)).
    destruct neg; reflexivity.
  - intros K. unfold toDoubleNumber, toDoubleNumber_branch. rewrite H, N.
    unfold extract_double.
    destruct (skip isspace (chars s)) as [|c r] eqn:E.
    + apply skip_nil_iff in E. congruence.
    + destruct (sign (c :: r)) as [neg r'] eqn:E'.
      rewrite (mantissa_none r' (D neg r' eq_refl)). reflexivity.
Qed.

Lemma digitless_token_is_zero_witness :
  toLongNumber "-abc" = 0%Z /\ toDoubleNumber S754_nan "-abc" = S754_zero false.
Proof.
  destruct (digitless_token_is_zero S754_nan "-abc" eq_refl) as [L D].
  split; [apply L; reflexivity|apply D; reflexivity].
Defined.

(** ** The range of the converters *)

Lemma clamp_in_range (neg : bool) (m : Z) :
  (0 <= m)%Z -> bigint.in_range (clamp neg m) = true.
Proof.
  intros H. unfold bigint.in_range, clamp, bigint.min, bigint.max.
  apply andb_true_intro. split; apply Z.leb_le; destruct neg; lia.
Qed.

Lemma truncate_in_range (d : double) : bigint.in_range (Spec.truncate d) = true.
Proof.
  destruct d as [z|z| |sg m e]; try reflexivity.
  cbn [Spec.truncate].
  match goal with |- context [if ?c then _ else _] => destruct c eqn:E end;
    [exact E|reflexivity].
Qed.

Lemma toLongNumber_in_range (s : string) :
  bigint.in_range (toLongNumber s) = true.
Proof.
  rewrite toLongNumber_reading. unfold Spec.toIntegerValue, Spec.signed_digits.
  destruct (sign (chars s)) as [neg r].
  destruct (isHex s); [apply clamp_in_range, number_nonneg, span_forallb|].
  destruct (isOct s); [apply clamp_in_range, number_nonneg, span_forallb|].
  destruct (Spec.contains_any "eE" (chars s)); [apply truncate_in_range|].
  destruct (sign (skip isspace (chars s))) as [neg' r'].
  apply clamp_in_range, number_nonneg, span_forallb.
Qed.

Lemma ilog2_of_Z (n : Z) : (Exact.ilog2 (Exact.of_Z n) <= Z.log2 n)%Z.
Proof.
  unfold Exact.ilog2, Exact.of_Z. cbn [Exact.num Exact.den].
  change (Z.log2 1) with 0%Z.
  destruct (Exact.leb _ _); lia.
Qed.

Lemma round_finite (neg : bool) (x : Exact.ratio) :
  (Exact.ilog2 x <= 1022)%Z ->
  binary64.is_finite (binary64.round neg x) = true.
Proof.
  intros H. unfold binary64.round.
  destruct (Exact.num x =? 0)%Z; [reflexivity|].
  set (e := Z.max (Exact.ilog2 x - 52) (-1074)).
  assert (He : (e <= 970)%Z) by (unfold e; lia).
  destruct (Exact.round_half_even (Exact.scale 2 x (- e)) =? 2 ^ 53)%Z.
  - destruct (Z.ltb_spec 971 (e + 1)); [lia|reflexivity].
  - destruct (Exact.round_half_even (Exact.scale 2 x (- e))); try reflexivity.
    destruct (Z.ltb_spec 971 e); [lia|reflexivity].
Qed.

Lemma to_double_finite (z : Z) :
  bigint.in_range z = true -> binary64.is_finite (bigint.to_double z) = true.
Proof.
  unfold bigint.in_range, bigint.min, bigint.max. intros H.
  apply andb_prop in H. destruct H as [H1 H2].
  apply Z.leb_le in H1. apply Z.leb_le in H2.
  unfold bigint.to_double. apply round_finite.
  pose proof (ilog2_of_Z (Z.abs z)).
  assert (Z.log2 (Z.abs z) <= Z.log2 (2 ^ 63))%Z by (apply Z.log2_le_mono; lia).
  rewrite Z.log2_pow2 in * by lia. lia.
Qed.

Lemma saturate_finite (neg : bool) (x : Exact.ratio) :
  binary64.is_finite (saturate (binary64.round neg x)) = true.
Proof.
  destruct (round_shape neg x) as [H|[H|(m & e & H)]]; rewrite H; reflexivity.
Qed.

Lemma extract_double_finite (l : list ascii) (ret : double) :
  skip isspace l <> [] -> binary64.is_finite (extract_double l ret) = true.
Proof.
  intros K. unfold extract_double.
  destruct (skip isspace l) as [|c r]; [contradiction|].
  destruct (sign (c :: r)) as [neg r'].
  destruct (mantissa isdigit r') as [[[ip fp] rest]|]; [|reflexivity].
  destruct rest as [|x rest]; [apply saturate_finite|].
  destruct (is_e x); [|apply saturate_finite].
  destruct (exponent rest) as [[ex rest']|]; [apply saturate_finite|reflexivity].
Qed.

Lemma nonblank_value_finite (indeterminate : double) (s : string) :
  skip isspace (chars s) <> [] ->
  binary64.is_finite (toDoubleNumber indeterminate s) = true.
Proof.
  intros K. unfold toDoubleNumber, toDoubleNumber_branch.
  destruct (isHex s); [apply to_double_finite, toLongNumber_in_range|].
  destruct (isNullValue s); [reflexivity|].
  apply extract_double_finite, K.
Qed.

Lemma nonblank_skip (s : string) :
  forallb isspace (chars s) = false -> skip isspace (chars s) <> [].
Proof.
  intros B K. apply skip_nil_iff in K. congruence.
Qed.

(** X3. toDoubleNumber gives a zero or a finite number for every token
    that is not blank: a value too large is stored as the largest double,
    a field that does not convert as 0. *)
Theorem toDoubleNumber_finite (indeterminate : double) (s : string) :
  forallb isspace (chars s) = false ->
  binary64.is_finite (toDoubleNumber indeterminate s) = true.
Proof.
  intros B. apply nonblank_value_finite.
  intros K. apply skip_nil_iff in K. congruence.
Qed.

Lemma toDoubleNumber_finite_witness :
  binary64.is_finite (toDoubleNumber S754_nan "-1e999") = true
  /\ toDoubleNumber S754_nan "-1e999" = binary64.max_value true.
Proof.
  split; [|vm_compute; reflexivity].
  apply toDoubleNumber_finite. reflexivity.
Defined.

(** ** The order of the comparison evaluator *)



Lemma SFcompare_finite (x y : double) :
  binary64.is_finite x = true -> binary64.is_finite y = true ->
  exists c, SFcompare x y = Some c.
Proof.
  destruct x, y; try discriminate; intros _ _; cbn [SFcompare]; eauto.
Qed.

(** X5. On tokens that are not blank the order is total:
    isGreaterEqual is the negation of isLess and isLessEqual the
    negation of isGreater. *)
Theorem comparison_total (indeterminate : double) (a b : string) :
  forallb isspace (chars a) = false ->
  forallb isspace (chars b) = false ->
  isGreaterEqual indeterminate a b = negb (isLess indeterminate a b)
  /\ isLessEqual indeterminate a b = negb (isGreater indeterminate a b).
Proof.
  intros Ha Hb.
  destruct (SFcompare_finite _ _
              (nonblank_value_finite indeterminate a (nonblank_skip a Ha))
              (nonblank_value_finite indeterminate b (nonblank_skip b Hb)))
    as [c Hc].
  unfold isGreater, isLess, isGreaterEqual, isLessEqual.
  unfold binary64.gt, binary64.ge, binary64.lt, binary64.le, SFltb, SFleb.
  rewrite Hc. destruct c; split; reflexivity.
Qed.

Lemma comparison_total_witness :
  isGreaterEqual S754_nan "0x10" "15.5" = negb (isLess S754_nan "0x10" "15.5")
  /\ isLessEqual S754_nan "0x10" "15.5" = negb (isGreater S754_nan "0x10" "15.5").
Proof.
  apply comparison_total; reflexivity.
Defined.





(** ** The sign of a value and the sign of its token *)

Lemma extract_double_sign (l : list ascii) (ret : double) :
  skip isspace l <> [] ->
  extract_double l ret = S754_zero false
  \/ exists x, extract_double l ret
               = saturate (binary64.round (fst (sign (skip isspace l))) x).
Proof.
  intros K. unfold extract_double.
  destruct (skip isspace l) as [|c r]; [contradiction|].
  destruct (sign (c :: r)) as [neg r']. cbn [fst].
  destruct (mantissa isdigit r') as [[[ip fp] rest]|]; [|auto].
  destruct rest as [|x rest]; [eauto|].
  destruct (is_e x); [|eauto].
  destruct (exponent rest) as [[ex rest']|]; eauto.
Qed.

(** The sign bit of a value that is not a zero. *)
Lemma sign_bit_compare (d : double) (neg : bool) :
  d = S754_zero neg \/ d = binary64.max_value neg
  \/ (exists m e, d = S754_finite neg m e) ->
  (SFltb d (S754_zero false) = true -> neg = true)
  /\ (binary64.gt d (S754_zero false) = true -> neg = false).
Proof.
  unfold SFltb, binary64.gt, binary64.max_value.
  intros [->|[->|(m & e & ->)]]; cbn [SFcompare];
    destruct neg; split; intros H; try reflexivity; discriminate H.
Qed.

Lemma round_sign (neg : bool) (x : Exact.ratio) :
  let d := saturate (binary64.round neg x) in
  d = S754_zero neg \/ d = binary64.max_value neg
  \/ (exists m e, d = S754_finite neg m e).
Proof.
  destruct (round_shape neg x) as [H|[H|(m & e & H)]]; cbv zeta; rewrite H;
    cbn [saturate]; eauto.
Qed.

Lemma to_double_sign (z : Z) :
  bigint.in_range z = true ->
  bigint.to_double z = S754_zero (z <? 0)%Z
  \/ bigint.to_double z = binary64.max_value (z <? 0)%Z
  \/ (exists m e, bigint.to_double z = S754_finite (z <? 0)%Z m e).
Proof.
  intros H. pose proof (to_double_finite z H) as F. unfold bigint.to_double in *.
  destruct (round_shape (z <? 0)%Z (Exact.of_Z (Z.abs z))) as [E|[E|(m & e & E)]];
    rewrite E in *; eauto. discriminate F.
Qed.

Lemma zero_token (indeterminate : double) :
  toDoubleNumber indeterminate "0" = S754_zero false.
Proof. reflexivity. Qed.

(** X7. A token that is not blank and is less than "0" has a minus
    sign, to isNegative; one that is greater than "0" has none. *)
Theorem sign_of_value (indeterminate : double) (s : string) :
  forallb isspace (chars s) = false ->
  (isLess indeterminate s "0" = true -> isNegative s = true)
  /\ (isGreater indeterminate s "0" = true -> isNegative s = false).
Proof.
  intros B. unfold isLess, isGreater, binary64.lt. rewrite zero_token.
  unfold toDoubleNumber, toDoubleNumber_branch.
  destruct (isHex s) eqn:EH.
  - pose proof (toLongNumber_in_range s) as R.
    assert (T : Spec.truncation_defined s = true)
      by (unfold Spec.truncation_defined; rewrite EH; reflexivity).
    destruct (Z.eq_dec (toLongNumber s) 0) as [E0|N0].
    + rewrite E0. split; intros H; discriminate H.
    + rewrite <- (toLongNumber_sign s T N0).
      apply sign_bit_compare, to_double_sign, R.
  - destruct (isNullValue s); [split; intros H; discriminate H|].
    pose proof (nonblank_skip s B) as K.
    rewrite isNegative_sign.
    destruct (extract_double_sign (chars s) indeterminate K) as [->|[x ->]].
    + split; intros H; discriminate H.
    + apply sign_bit_compare, round_sign.
Qed.

Lemma sign_of_value_witness :
  isNegative "+0x1F" = false /\ isNegative "-1e-3" = true.
Proof.
  split.
  - apply (sign_of_value S754_nan "+0x1F"); reflexivity.
  - apply (sign_of_value S754_nan "-1e-3"); vm_compute; reflexivity.
Defined.

(** ** Integer results as tokens *)

(** The scan of isInt on character lists (the ordered scan of the
    specification). *)
Lemma isInt_scan_spec (s : string) : isInt s = Spec.isInt s.
Proof.
  unfold isInt, Spec.isInt.
  rewrite find_char, !find_pair.
  destruct (Spec.contains_char "." (chars s)); [reflexivity|].
  simpl orb.
  destruct (Spec.contains_pair "E" "-" (chars s) || Spec.contains_pair "e" "-" (chars s));
    [reflexivity|].
  rewrite find_char.
  set (n0 := loop isspace s 0).
  set (Mode := if Spec.contains_char "E" (chars s) then eScientific
               else if isHex s then eHex
               else if isOct s then eOctal else eDefault).
  set (n := if is_char "-" (at_ s n0) || is_char "+" (at_ s n0) then S n0 else n0).
  assert (T : tail_at s n = snd (sign (skip isspace (chars s)))).
  { unfold n. rewrite sign_step. unfold n0.
    rewrite loop_tail by reflexivity. reflexivity. }
  assert (M : Spec.mode_of Mode = Spec.choose_mode s).
  { unfold Mode, Spec.choose_mode.
    destruct (Spec.contains_char "E" (chars s)); [reflexivity|].
    destruct (isHex s); [reflexivity|]. destruct (isOct s); reflexivity. }
  pose proof (isInt_scan_grammar s Mode n) as G.
  rewrite M, T in G. rewrite <- G.
  - destruct (isInt_scan Mode s n) as [n'|]; simpl; [|reflexivity].
    rewrite at_end, loop_tail by reflexivity. reflexivity.
  - intros EM. unfold Mode in EM.
    destruct (Spec.contains_char "E" (chars s)); [discriminate|].
    destruct (isHex s) eqn:EH; [|destruct (isOct s); discriminate].
    destruct (isHex_shape s EH) as (x & l & Hx & Hs & Hl).
    exists x, l. rewrite Hs, Hl. auto.
  - intros EM. unfold Mode in EM.
    destruct (Spec.contains_char "E" (chars s)); [discriminate|].
    destruct (isHex s); [discriminate|].
    destruct (isOct s) eqn:EO; [|discriminate].
    destruct (isOct_shape s EO) as (Hs & l & Hl).
    exists l. rewrite Hs, Hl. reflexivity.
Qed.

Lemma chars_text (l : list ascii) : chars (text l) = l.
Proof. apply list_ascii_of_string_of_list_ascii. Qed.

Lemma contains_pair_char (a b : ascii) (l : list ascii) :
  Spec.contains_char a l = false -> Spec.contains_pair a b l = false.
Proof.
  unfold Spec.contains_char. induction l as [|x l IH]; [reflexivity|].
  cbn [existsb Spec.contains_pair]. intros H.
  apply orb_false_elim in H. destruct H as [Hx Hl].
  destruct l as [|y l']; [reflexivity|]. rewrite Hx, (IH Hl). reflexivity.
Qed.

(** The characters of a formatted integer: a minus sign and digits. *)
Lemma numeric_char (c : ascii) :
  is_char "-" c || isdigit c = true ->
  is_char "." c = false /\ is_char "E" c = false /\ is_char "e" c = false
  /\ basic_string.mem c "eE" = false
  /\ is_char "x" c = false /\ is_char "X" c = false.
Proof.
  destruct c as [b0 b1 b2 b3 b4 b5 b6 b7];
    destruct b0, b1, b2, b3, b4, b5, b6, b7; vm_compute;
    intros H; try discriminate H; repeat split.
Qed.

Section CanonicalToken.

(** A token as [toString<bigint>] writes a value other than 0: a minus
    sign or nothing, and digits of which the first is not '0'. *)
Variables (sg : bool) (d : ascii) (ds : list ascii).
Hypothesis digits_d : forallb isdigit (d :: ds) = true.
Hypothesis nonzero_d : is_char "0" d = false.

Local Abbreviation t := (text (sign_text sg ++ d :: ds)).

Lemma canonical_chars : chars t = (sign_text sg ++ (d :: ds) ++ [])%list.
Proof. unfold t. rewrite chars_text, app_nil_r. reflexivity. Qed.

Lemma canonical_sign :
  skip isspace (chars t) = chars t /\ sign (chars t) = (sg, d :: ds).
Proof.
  rewrite canonical_chars.
  destruct (signed_text_sign sg (d :: ds) digits_d ltac:(discriminate) [])
    as (Hs & _ & Hg).
  cbv zeta in Hs, Hg. rewrite app_nil_r in *. auto.
Qed.

Lemma canonical_numeric :
  forallb (fun c => is_char "-" c || isdigit c) (chars t) = true.
Proof.
  rewrite canonical_chars, app_nil_r, forallb_app. apply andb_true_intro. split.
  - destruct sg; reflexivity.
  - rewrite forallb_forall in *. intros c I.
    rewrite (digits_d c I). apply orb_true_r.
Qed.

Lemma canonical_without (c : ascii) :
  (forall x, is_char "-" x || isdigit x = true -> is_char c x = false) ->
  Spec.contains_char c (chars t) = false.
Proof.
  intros H. unfold Spec.contains_char.
  pose proof canonical_numeric as N. rewrite forallb_forall in N.
  destruct (existsb (is_char c) (chars t)) eqn:E; [|reflexivity].
  apply existsb_exists in E. destruct E as (x & I & E).
  rewrite (H x (N x I)) in E. discriminate E.
Qed.

Lemma canonical_isHex : isHex t = false.
Proof.
  destruct (isHex t) eqn:E; [|reflexivity].
  destruct (isHex_shape t E) as (x & l & _ & _ & Hl).
  rewrite (proj2 canonical_sign) in Hl. cbn [snd] in Hl.
  injection Hl as -> _. discriminate nonzero_d.
Qed.

Lemma canonical_isOct : isOct t = false.
Proof.
  destruct (isOct t) eqn:E; [|reflexivity].
  destruct (isOct_shape t E) as (_ & l & Hl).
  rewrite (proj2 canonical_sign) in Hl. cbn [snd] in Hl.
  injection Hl as -> _. discriminate nonzero_d.
Qed.

Lemma canonical_isNullValue : isNullValue t = false.
Proof.
  destruct (isNullValue t) eqn:E; [|reflexivity].
  apply isNullValue_iff in E. unfold Spec.null_spellings in E. cbn [In] in E.
  assert (C : forall s, s = t -> snd (sign (chars s)) = d :: ds).
  { intros s ->. rewrite (proj2 canonical_sign). reflexivity. }
  exfalso.
  repeat (destruct E as [E|E];
          [apply C in E; cbn in E; injection E as <- _; discriminate nonzero_d|]).
  contradiction.
Qed.

Lemma canonical_plain :
  basic_string.found (basic_string.find_first_of t "eE") = false.
Proof.
  rewrite find_first_of_chars. unfold Spec.contains_any.
  pose proof canonical_numeric as N. rewrite forallb_forall in N.
  destruct (existsb _ (chars t)) eqn:E; [|reflexivity].
  apply existsb_exists in E. destruct E as (x & I & E).
  destruct (numeric_char x (N x I)) as (_ & _ & _ & M & _). congruence.
Qed.

Lemma canonical_isInt : isInt t = true.
Proof.
  rewrite isInt_scan_spec. unfold Spec.isInt.
  assert (P : Spec.contains_char "." (chars t) = false)
    by (apply canonical_without; intros x H; apply (numeric_char x H)).
  assert (E1 : Spec.contains_char "E" (chars t) = false)
    by (apply canonical_without; intros x H; apply (numeric_char x H)).
  assert (E2 : Spec.contains_char "e" (chars t) = false)
    by (apply canonical_without; intros x H; apply (numeric_char x H)).
  rewrite P, (contains_pair_char "E" "-" _ E1), (contains_pair_char "e" "-" _ E2).
  cbn [orb]. unfold Spec.choose_mode.
  rewrite E1, canonical_isHex, canonical_isOct.
  destruct canonical_sign as [-> ->]. cbn [snd Spec.grammar].
  rewrite (span_all isdigit (d :: ds) digits_d). reflexivity.
Qed.

Lemma canonical_toLongNumber :
  toLongNumber t = clamp sg (number 10 (d :: ds)).
Proof.
  unfold toLongNumber.
  rewrite canonical_isHex, canonical_isOct, canonical_plain, extract_bigint_dec.
  destruct canonical_sign as [-> ->]. cbn [fst snd]. unfold Spec.signed_digits.
  change (of_base dec) with isdigit.
  rewrite (span_all isdigit (d :: ds) digits_d). reflexivity.
Qed.

Lemma canonical_toDoubleNumber (indeterminate : double) :
  toDoubleNumber indeterminate t
  = saturate (binary64.round sg (Exact.of_Z (number 10 (d :: ds)))).
Proof.
  unfold toDoubleNumber, toDoubleNumber_branch.
  rewrite canonical_isHex, canonical_isNullValue, canonical_chars.
  change ([] : list ascii) with (point_part []).
  rewrite (extract_plain indeterminate sg (d :: ds) [] digits_d
             ltac:(discriminate) eq_refl).
  unfold decimal_value, Exact.scale, Exact.of_Z.
  cbn [List.length Z.of_nat Z.sub Z.opp Z.leb Z.compare Exact.num Exact.den].
  rewrite app_nil_r. change (10 ^ 0)%Z with 1%Z. rewrite Z.mul_1_r. reflexivity.
Qed.

End CanonicalToken.

Lemma strip_leading_zeros_head (l : list ascii) :
  match strip_leading_zeros l with
  | c :: _ :: _ => is_char "0" c = false
  | _ => True
  end.
Proof.
  induction l as [|c l IH]; [exact I|].
  cbn [strip_leading_zeros]. destruct l as [|c' l']; [exact I|].
  destruct (is_char "0" c) eqn:E; [exact IH|exact E].
Qed.

(** The decimal digits of a positive number start with a digit other
    than '0'. *)
Lemma decimal_head (n : Z) :
  (0 < n)%Z ->
  exists d ds, decimal n = d :: ds /\ is_char "0" d = false.
Proof.
  intros H. pose proof (number_decimal n ltac:(lia)) as N.
  pose proof (strip_leading_zeros_head (digits (S (Z.to_nat (Z.log2 n))) n)) as S.
  fold (decimal n) in S.
  destruct (decimal n) as [|d [|d' ds]] eqn:E.
  - cbn in N. lia.
  - exists d, []. split; [reflexivity|].
    destruct (is_char "0" d) eqn:Z0; [|reflexivity].
    apply is_char_true in Z0. subst d. cbn in N. lia.
  - exists d, (d' :: ds). auto.
Qed.

Lemma insert_bigint_text (z : Z) :
  insert_bigint z = (sign_text (z <? 0)%Z ++ decimal (Z.abs z))%list.
Proof.
  unfold insert_bigint. destruct (Z.ltb_spec z 0); cbn [sign_text app].
  - rewrite Z.abs_neq by lia. reflexivity.
  - rewrite Z.abs_eq by lia. reflexivity.
Qed.

(** What [toString<bigint>] writes is an integer token that both
    converters read back as the value. *)
Lemma toString_token (indeterminate : double) (z : Z) :
  isInt (toString z) = true
  /\ (bigint.in_range z = true ->
      toLongNumber (toString z) = z
      /\ toDoubleNumber indeterminate (toString z) = bigint.to_double z).
Proof.
  destruct (Z.eq_dec z 0) as [->|N]; [repeat split|].
  unfold toString, insert, Insertable_bigint. rewrite insert_bigint_text.
  destruct (decimal_head (Z.abs z) ltac:(lia)) as (d & ds & E & Z0).
  destruct (decimal_isdigit (Z.abs z)) as [D _].
  pose proof (number_decimal (Z.abs z) ltac:(lia)) as V.
  rewrite E in *.
  split; [apply canonical_isInt; assumption|].
  intros R. split.
  - rewrite canonical_toLongNumber, V by assumption.
    unfold bigint.in_range, bigint.min, bigint.max in R.
    apply andb_prop in R. destruct R as [R1 R2].
    apply Z.leb_le in R1. apply Z.leb_le in R2.
    unfold clamp, bigint.min, bigint.max. destruct (Z.ltb_spec z 0); lia.
  - rewrite canonical_toDoubleNumber, V by assumption.
    pose proof (to_double_finite z R) as F. unfold bigint.to_double in *.
    destruct (binary64.round _ _); try discriminate F; reflexivity.
Qed.

Lemma wrap_range (z : Z) : bigint.in_range (bigint.wrap z) = true.
Proof.
  unfold bigint.in_range, bigint.wrap, bigint.min, bigint.max.
  pose proof (Z.mod_pos_bound (z + 2 ^ 63) (2 ^ 64) ltac:(lia)).
  apply andb_true_intro. split; apply Z.leb_le; lia.
Qed.

Lemma div_range (a b q : Z) :
  bigint.in_range a = true -> bigint.div a b = Some q ->
  bigint.in_range q = true.
Proof.
  unfold bigint.div, bigint.in_range, bigint.min, bigint.max.
  intros R. apply andb_prop in R. destruct R as [R1 R2].
  apply Z.leb_le in R1. apply Z.leb_le in R2.
  destruct (Z.eqb_spec b 0) as [|Nb]; [discriminate|].
  destruct ((a =? - 2 ^ 63)%Z && (b =? -1)%Z) eqn:E; [discriminate|].
  intros Q. injection Q as <-.
  assert (A : (Z.abs (Z.quot a b) <= Z.abs a)%Z).
  { rewrite <- Z.quot_abs by assumption.
    rewrite Z.quot_div_nonneg by lia.
    apply Z.div_le_upper_bound; [lia|]. nia. }
  apply andb_true_intro. split; apply Z.leb_le; [lia|].
  destruct (Z.eq_dec (Z.quot a b) (2 ^ 63)) as [Q|Q]; [|lia].
  exfalso.
  assert (a = (- 2 ^ 63)%Z) by lia. subst a.
  assert (Z.abs b = 1)%Z.
  { destruct (Z.eq_dec (Z.abs b) 1) as [|B1]; [assumption|].
    assert (2 <= Z.abs b)%Z by lia.
    assert (Z.abs (Z.quot (- 2 ^ 63) b) <= 2 ^ 62)%Z; [|lia].
    rewrite <- Z.quot_abs by assumption.
    rewrite Z.quot_div_nonneg by lia.
    apply Z.div_le_upper_bound; [lia|].
    change (Z.abs (- 2 ^ 63)) with (2 * 2 ^ 62)%Z. nia. }
  destruct (Z.eq_dec b 1) as [->|]; [vm_compute in Q; discriminate Q|].
  assert (b = (-1)%Z) by lia. subst b.
  rewrite Z.eqb_refl in E. discriminate E.
Qed.

Section IntegerPath.

Variable indeterminate : double.
Variables first second : string.
Hypothesis integers : isInt first && isInt second = true.

Lemma add_integer :
  add indeterminate first second
  = toString (bigint.add (toLongNumber first) (toLongNumber second)).
Proof. unfold add. rewrite integers. reflexivity. Qed.

Lemma subtract_integer :
  subtract indeterminate first second
  = toString (bigint.sub (toLongNumber first) (toLongNumber second)).
Proof. unfold subtract. rewrite integers. reflexivity. Qed.

Lemma multiply_integer :
  multiply indeterminate first second
  = toString (bigint.mul (toLongNumber first) (toLongNumber second)).
Proof. unfold multiply. rewrite integers. reflexivity. Qed.

Lemma divide_integer (r : string) :
  divide indeterminate first second = Return r ->
  exists q, bigint.div (toLongNumber first) (toLongNumber second) = Some q
            /\ bigint.in_range q = true /\ r = toString q.
Proof.
  unfold divide. rewrite integers.
  destruct (bigint.div (toLongNumber first) (toLongNumber second)) as [q|] eqn:E;
    [|discriminate].
  intros H. injection H as <-. exists q. split; [reflexivity|]. split; [|reflexivity].
  apply (div_range _ _ _ (toLongNumber_in_range first) E).
Qed.

End IntegerPath.

(** What calculate returns on two integer tokens is a formatted
    value of [bigint]. *)
Lemma calculate_integer (indeterminate : double)
  (first second : string) (action : ascii) (r : string) :
  isInt first && isInt second = true ->
  calculate indeterminate first second action = Return r ->
  exists z, bigint.in_range z = true /\ r = toString z.
Proof.
  intros H. unfold calculate.
  destruct (is_char "+" action);
    [|destruct (is_char "-" action);
      [|destruct (is_char "*" action);
        [|destruct (is_char "/" action); [|discriminate]]]].
  - rewrite (add_integer _ _ _ H). intros E. injection E as <-.
    eexists. split; [apply wrap_range|reflexivity].
  - rewrite (subtract_integer _ _ _ H). intros E. injection E as <-.
    eexists. split; [apply wrap_range|reflexivity].
  - rewrite (multiply_integer _ _ _ H). intros E. injection E as <-.
    eexists. split; [apply wrap_range|reflexivity].
  - intros D. destruct (divide_integer _ _ _ H r D) as (q & _ & R & ->).
    exists q. auto.
Qed.

(** X8. The integer path is closed: what calculate returns on two
    integer tokens is an integer token. *)
Theorem integer_results_are_integers (indeterminate : double)
  (first second : string) (action : ascii) (r : string) :
  isInt first && isInt second = true ->
  calculate indeterminate first second action = Return r ->
  isInt r = true.
Proof.
  intros H C.
  destruct (calculate_integer _ _ _ _ _ H C) as (z & _ & ->).
  apply (toString_token indeterminate).
Qed.

Lemma integer_results_are_integers_witness :
  isInt "-9223372036854775808" = true
  /\ calculate S754_nan "0x7fffffffffffffff" "1" "+"
     = Return "-9223372036854775808".
Proof.
  assert (C : calculate S754_nan "0x7fffffffffffffff" "1" "+"
              = Return "-9223372036854775808") by (vm_compute; reflexivity).
  split; [|exact C].
  exact (integer_results_are_integers S754_nan "0x7fffffffffffffff" "1" "+"
           "-9223372036854775808" eq_refl C).
Defined.

(** X9. An integer result is read back exactly: toLongNumber of the
    result of add, subtract, multiply or divide on two integer tokens is
    the (wrapped) sum, difference or product, or the truncated quotient,
    of their integer values. *)
Theorem integer_results_read_back (indeterminate : double)
  (first second : string) :
  isInt first && isInt second = true ->
  toLongNumber (add indeterminate first second)
  = bigint.add (toLongNumber first) (toLongNumber second)
  /\ toLongNumber (subtract indeterminate first second)
     = bigint.sub (toLongNumber first) (toLongNumber second)
  /\ toLongNumber (multiply indeterminate first second)
     = bigint.mul (toLongNumber first) (toLongNumber second)
  /\ (forall r, divide indeterminate first second = Return r ->
      bigint.div (toLongNumber first) (toLongNumber second)
      = Some (toLongNumber r)).
Proof.
  intros H.
  rewrite (add_integer _ _ _ H), (subtract_integer _ _ _ H),
    (multiply_integer _ _ _ H).
  repeat split;
    try (apply (toString_token indeterminate); apply wrap_range).
  intros r D. destruct (divide_integer _ _ _ H r D) as (q & E & R & ->).
  rewrite E. f_equal. symmetry. apply (toString_token indeterminate), R.
Qed.

Lemma integer_results_read_back_witness :
  toLongNumber (multiply S754_nan "-0x10" "012")
  = bigint.mul (toLongNumber "-0x10") (toLongNumber "012")
  /\ multiply S754_nan "-0x10" "012" = "-160".
Proof.
  split; [|vm_compute; reflexivity].
  exact (proj1 (proj2 (proj2 (integer_results_read_back S754_nan "-0x10" "012"
                                eq_refl)))).
Defined.

(** X10. Both converters agree on an integer result: toDoubleNumber of
    what calculate returns on two integer tokens is the conversion to
    double of what toLongNumber reads in it. *)
Theorem integer_results_convert (indeterminate : double)
  (first second : string) (action : ascii) (r : string) :
  isInt first && isInt second = true ->
  calculate indeterminate first second action = Return r ->
  toDoubleNumber indeterminate r = bigint.to_double (toLongNumber r).
Proof.
  intros H C.
  destruct (calculate_integer _ _ _ _ _ H C) as (z & R & ->).
  destruct (toString_token indeterminate z) as [_ T].
  destruct (T R) as [-> ->]. reflexivity.
Qed.

Lemma integer_results_convert_witness :
  toDoubleNumber S754_nan "-8" = bigint.to_double (toLongNumber "-8")
  /\ calculate S754_nan "010" "0x10" "-" = Return "-8".
Proof.
  assert (C : calculate S754_nan "010" "0x10" "-" = Return "-8")
    by (vm_compute; reflexivity).
  split; [|exact C].
  exact (integer_results_convert S754_nan "010" "0x10" "-" "-8" eq_refl C).
Defined.

(** ** Laws of the arithmetic evaluator *)




Lemma wrap_mod (z : Z) : (bigint.wrap z mod 2 ^ 64 = z mod 2 ^ 64)%Z.
Proof.
  unfold bigint.wrap. rewrite Zminus_mod_idemp_l. f_equal. lia.
Qed.

Lemma wrap_congruent (x y : Z) :
  (x mod 2 ^ 64 = y mod 2 ^ 64)%Z -> bigint.wrap x = bigint.wrap y.
Proof.
  intros H. unfold bigint.wrap.
  rewrite <- (Z.add_mod_idemp_l x), <- (Z.add_mod_idemp_l y), H by lia.
  reflexivity.
Qed.

Lemma add_wrap_assoc (a b c : Z) :
  bigint.add (bigint.add a b) c = bigint.add a (bigint.add b c).
Proof.
  unfold bigint.add. apply wrap_congruent.
  rewrite <- (Z.add_mod_idemp_l (bigint.wrap (a + b)) c), wrap_mod,
    (Z.add_mod_idemp_l (a + b) c) by lia.
  rewrite <- (Z.add_mod_idemp_r a (bigint.wrap (b + c))), wrap_mod,
    (Z.add_mod_idemp_r a (b + c)) by lia.
  f_equal. lia.
Qed.

Lemma mul_wrap_assoc (a b c : Z) :
  bigint.mul (bigint.mul a b) c = bigint.mul a (bigint.mul b c).
Proof.
  unfold bigint.mul. apply wrap_congruent.
  rewrite <- (Z.mul_mod_idemp_l (bigint.wrap (a * b)) c), wrap_mod,
    (Z.mul_mod_idemp_l (a * b) c) by lia.
  rewrite <- (Z.mul_mod_idemp_r a (bigint.wrap (b * c))), wrap_mod,
    (Z.mul_mod_idemp_r a (b * c)) by lia.
  f_equal. lia.
Qed.

(** X12. On integer tokens add and multiply are associative, wrapped
    results included. *)
Theorem integer_add_multiply_associate (indeterminate : double)
  (a b c : string) :
  isInt a = true -> isInt b = true -> isInt c = true ->
  add indeterminate (add indeterminate a b) c
  = add indeterminate a (add indeterminate b c)
  /\ multiply indeterminate (multiply indeterminate a b) c
     = multiply indeterminate a (multiply indeterminate b c).
Proof.
  intros Ha Hb Hc.
  assert (Hab : isInt a && isInt b = true) by (rewrite Ha, Hb; reflexivity).
  assert (Hbc : isInt b && isInt c = true) by (rewrite Hb, Hc; reflexivity).
  assert (T : forall z, isInt (toString (bigint.wrap z)) = true
                         /\ toLongNumber (toString (bigint.wrap z)) = bigint.wrap z).
  { intros z. destruct (toString_token indeterminate (bigint.wrap z)) as [I R].
    split; [exact I|apply R, wrap_range]. }
  split.
  - rewrite (add_integer indeterminate a b Hab), (add_integer indeterminate b c Hbc).
    unfold bigint.add.
    rewrite !add_integer
      by (rewrite ?Ha, ?Hc, ?(proj1 (T _)); reflexivity).
    rewrite !(proj2 (T _)). f_equal. exact (add_wrap_assoc _ _ _).
  - rewrite (multiply_integer indeterminate a b Hab),
      (multiply_integer indeterminate b c Hbc).
    unfold bigint.mul.
    rewrite !multiply_integer
      by (rewrite ?Ha, ?Hc, ?(proj1 (T _)); reflexivity).
    rewrite !(proj2 (T _)). f_equal. exact (mul_wrap_assoc _ _ _).
Qed.

Lemma integer_add_multiply_associate_witness :
  add S754_nan (add S754_nan "0x7fffffffffffffff" "1") "-1"
  = add S754_nan "0x7fffffffffffffff" (add S754_nan "1" "-1")
  /\ add S754_nan "0x7fffffffffffffff" (add S754_nan "1" "-1")
     = "9223372036854775807".
Proof.
  split; [|vm_compute; reflexivity].
  exact (proj1 (integer_add_multiply_associate S754_nan
                  "0x7fffffffffffffff" "1" "-1" eq_refl eq_refl eq_refl)).
Defined.

Lemma SFsub_diag (d : double) :
  binary64.is_finite d = true -> binary64.sub d d = S754_zero false.
Proof.
  unfold binary64.sub. destruct d as [s|s| |s m e]; try discriminate; intros _.
  - destruct s; reflexivity.
  - cbn [SFsub]. rewrite Z.sub_diag. reflexivity.
Qed.

(** X13. A token that is not blank, subtracted from itself, gives "0",
    on both paths. *)
Theorem subtract_self (indeterminate : double) (a : string) :
  forallb isspace (chars a) = false ->
  subtract indeterminate a a = "0".
Proof.
  intros B. unfold subtract.
  destruct (isInt a && isInt a).
  - unfold bigint.sub. rewrite Z.sub_diag. reflexivity.
  - rewrite SFsub_diag by (apply nonblank_value_finite, nonblank_skip, B).
    reflexivity.
Qed.

Lemma subtract_self_witness :
  subtract S754_nan "-1.5e300" "-1.5e300" = "0"
  /\ subtract S754_nan "0x1F" "0x1F" = "0".
Proof.
  split; apply subtract_self; reflexivity.
Defined.

Lemma null_value_is_zero (indeterminate : double) (s : string) :
  isNullValue s = true -> toDoubleNumber indeterminate s = S754_zero false.
Proof.
  intros E. apply isNullValue_iff in E. unfold Spec.null_spellings in E.
  cbn [In] in E.
  repeat (destruct E as [<-|E]; [reflexivity|]). contradiction.
Qed.

(** X14. On the float path a division by a null value does not fail:
    a dividend greater than "0" gives "inf" and one less than "0" gives
    "-inf". *)
Theorem float_division_by_zero (indeterminate : double)
  (first second : string) :
  isInt first && isInt second = false ->
  isNullValue second = true ->
  (isGreater indeterminate first "0" = true ->
   divide indeterminate first second = Return "inf")
  /\ (isLess indeterminate first "0" = true ->
      divide indeterminate first second = Return "-inf").
Proof.
  intros H N. unfold divide, isGreater, isLess. rewrite H.
  rewrite (null_value_is_zero indeterminate second N), zero_token.
  unfold binary64.gt, binary64.lt, SFltb.
  destruct (toDoubleNumber indeterminate first) as [s|s| |s m e];
    cbn [SFcompare]; split; intros C; try discriminate C;
    destruct s; try discriminate C; reflexivity.
Qed.

Lemma float_division_by_zero_witness :
  divide S754_nan "1.5" "-0" = Return "inf"
  /\ divide S754_nan "-1e3" "0.0" = Return "-inf".
Proof.
  split.
  - apply (float_division_by_zero S754_nan "1.5" "-0"); reflexivity.
  - apply (float_division_by_zero S754_nan "-1e3" "0.0"); vm_compute; reflexivity.
Defined.


(** ** Octal tokens *)

Lemma octal_char (c : ascii) :
  isoctdigit c = true ->
  isdigit c = true /\ is_char "x" c || is_char "X" c = false.
Proof.
  destruct c as [b0 b1 b2 b3 b4 b5 b6 b7];
    destruct b0, b1, b2, b3, b4, b5, b6, b7; vm_compute;
    intros H; try discriminate H; split; reflexivity.
Qed.

Lemma octal_digits (ds : list ascii) :
  forallb isoctdigit ds = true -> forallb isdigit ds = true.
Proof.
  intros H. rewrite forallb_forall in *. intros c I.
  apply (octal_char c (H c I)).
Qed.

Lemma number_leading_zero (b : Z) (ds : list ascii) :
  number b ("0"%char :: ds) = number b ds.
Proof.
  change ("0"%char :: ds) with (["0"%char] ++ ds)%list.
  rewrite number_app. reflexivity.
Qed.

Lemma isFloat_chars (s : string) :
  isFloat s
  = Spec.contains_char "." (chars s)
    || Spec.contains_pair "E" "-" (chars s)
    || Spec.contains_pair "e" "-" (chars s).
Proof.
  unfold isFloat. rewrite find_char, !find_pair.
  destruct (Spec.contains_char "." (chars s)); reflexivity.
Qed.

Lemma digits_not_float (l : list ascii) :
  forallb isdigit l = true -> isFloat (text l) = false.
Proof.
  intros D. rewrite isFloat_chars, chars_text.
  assert (N : forall c, (forall x, isdigit x = true -> is_char c x = false) ->
              Spec.contains_char c l = false).
  { intros c H. unfold Spec.contains_char.
    destruct (existsb (is_char c) l) eqn:E; [|reflexivity].
    apply existsb_exists in E. destruct E as (x & I & E).
    rewrite forallb_forall in D. rewrite (H x (D x I)) in E. discriminate E. }
  assert (C : forall x, isdigit x = true -> is_char "-" x || isdigit x = true)
    by (intros x ->; apply orb_true_r).
  rewrite N by (intros x H; apply (numeric_char x (C x H))).
  rewrite !contains_pair_char; [reflexivity| |];
    apply N; intros x H; apply (numeric_char x (C x H)).
Qed.

(** X16. An octal token, a '0' followed by octal digits, is read in
    base 8 by toLongNumber and in base 10 by toDoubleNumber. *)
Theorem octal_token_read_two_ways (indeterminate : double)
  (d : ascii) (ds : list ascii) :
  forallb isoctdigit (d :: ds) = true ->
  let s := text ("0"%char :: d :: ds) in
  isOct s = true
  /\ toLongNumber s = Z.min (number 8 (d :: ds)) bigint.max
  /\ toDoubleNumber indeterminate s
     = saturate (binary64.round false (Exact.of_Z (number 10 (d :: ds)))).
Proof.
  intros O s.
  pose proof (octal_digits _ O) as D.
  assert (D0 : forallb isdigit ("0"%char :: d :: ds) = true) by exact D.
  assert (Hd : isoctdigit d = true).
  { cbn [forallb] in O. apply andb_prop in O. tauto. }
  assert (C : chars s = "0"%char :: d :: ds) by apply chars_text.
  assert (G : sign (chars s) = (false, "0"%char :: d :: ds))
    by (rewrite C; reflexivity).
  assert (H : isHex s = false).
  { destruct (isHex s) eqn:E; [|reflexivity].
    destruct (isHex_shape s E) as (x & l & Hx & _ & Hl).
    rewrite G in Hl. cbn [snd] in Hl. injection Hl as Hdx _. subst x.
    rewrite (proj2 (octal_char d Hd)) in Hx. discriminate Hx. }
  assert (T : isOct s = true).
  { unfold isOct, s. cbn [text string_of_list_ascii at_ String.get].
    change (is_char "-" "0" || is_char "+" "0") with false. cbv iota.
    cbn [at_ String.get]. rewrite isOctalDigit_range, Hd, orb_true_r.
    change (is_char "0" "0") with true. cbn [andb].
    change (String "0" (String d (string_of_list_ascii ds)))
      with (text ("0"%char :: d :: ds)).
    rewrite (digits_not_float _ D0). reflexivity. }
  split; [exact T|]. split.
  - unfold toLongNumber. rewrite H, T.
    rewrite extract_bigint_unspaced
      by (rewrite C; (reflexivity || discriminate)).
    rewrite G. cbn [fst snd base_prefix base of_base].
    rewrite (span_all isoctdigit ("0"%char :: d :: ds)) by exact O.
    cbn [fst]. rewrite number_leading_zero. reflexivity.
  - unfold toDoubleNumber, toDoubleNumber_branch. rewrite H.
    assert (N : isNullValue s = false).
    { destruct (isNullValue s) eqn:E; [|reflexivity].
      apply isNullValue_iff in E. unfold Spec.null_spellings in E. cbn [In] in E.
      assert (K : forall t, t = s -> chars t = "0"%char :: d :: ds)
        by (intros t ->; exact C).
      exfalso.
      repeat (destruct E as [E|E];
              [apply K in E; cbn in E; try discriminate E;
               injection E as <- _; discriminate Hd|]).
      contradiction. }
    rewrite N, C.
    rewrite <- (app_nil_r ("0"%char :: d :: ds)).
    change (("0"%char :: d :: ds) ++ [])%list
      with (sign_text false ++ ("0"%char :: d :: ds) ++ point_part [])%list.
    rewrite (extract_plain indeterminate false ("0"%char :: d :: ds) [] D0
               ltac:(discriminate) eq_refl).
    unfold decimal_value, Exact.scale, Exact.of_Z.
    cbn [List.length Z.of_nat Z.sub Z.opp Z.leb Z.compare Exact.num Exact.den].
    rewrite app_nil_r, number_leading_zero.
    change (10 ^ 0)%Z with 1%Z. rewrite Z.mul_1_r. reflexivity.
Qed.

Lemma octal_token_read_two_ways_witness :
  isOct "010" = true
  /\ toLongNumber "010" = 8%Z
  /\ isEqual S754_nan "010" "10" = true.
Proof.
  destruct (octal_token_read_two_ways S754_nan "1" ["0"%char] eq_refl)
    as (O & L & D).
  split; [exact O|]. split; [exact L|].
  unfold isEqual. cbv zeta in D.
  change (text ["0"; "1"; "0"]%char) with "010" in D. rewrite D.
  vm_compute. reflexivity.
Defined.

(** ** The bounds of toLongNumber *)

(** X17. toLongNumber stays within [bigint], and a decimal token whose
    digits exceed it reads as the largest value, or the smallest after a
    minus sign. *)
Theorem toLongNumber_saturates (sg : bool) (d : ascii) (ds : list ascii) :
  (forall s, bigint.in_range (toLongNumber s) = true)
  /\ (forallb isdigit (d :: ds) = true -> is_char "0" d = false ->
      (bigint.max < number 10 (d :: ds))%Z ->
      toLongNumber (text (sign_text sg ++ d :: ds))
      = if sg then bigint.min else bigint.max).
Proof.
  split; [apply toLongNumber_in_range|].
  intros D Z0 B. rewrite canonical_toLongNumber by assumption.
  unfold clamp, bigint.min, bigint.max in *. destruct sg; lia.
Qed.

Lemma toLongNumber_saturates_witness :
  toLongNumber "-9223372036854775809" = bigint.min
  /\ toLongNumber "99999999999999999999" = bigint.max.
Proof.
  split.
  - apply (toLongNumber_saturates true "9" (chars "223372036854775809"));
      vm_compute; reflexivity.
  - apply (toLongNumber_saturates false "9" (chars "9999999999999999999"));
      vm_compute; reflexivity.
Defined.

(** ** abs *)





(** A normal number, written and read, is a number that is written
    alike. *)
Lemma written_normal_reads_alike (indeterminate : double)
  (sg : bool) (m : positive) (e : Z) :
  binary64.is_normal (S754_finite sg m e) = true ->
  exists m' e',
    toDoubleNumber indeterminate (text (insert_double (S754_finite sg m e)))
    = S754_finite sg m' e'
    /\ style_g precision (binary64.magnitude m' e')
       = style_g precision (binary64.magnitude m e).
Proof.
  intros Hn. unfold insert_double, precision in *.
  destruct (round_digits 6 (binary64.magnitude m e)) as [N X] eqn:HD.
  destruct (round_digits_value 6 ltac:(lia) _ N X (magnitude_positive m e) HD)
    as [HN _].
  destruct (style_g_read sg _ N X HD HN) as (q & Pq & Vq & Hq).
  destruct (digits_round_trip sg m e N X q Hn HD Pq Vq) as (m' & e' & Hr & HD').
  exists m', e'. split.
  - apply toDoubleNumber_stream. rewrite chars_text, Hq, Hr. reflexivity.
  - unfold style_g. rewrite HD, HD'. reflexivity.
Qed.

(** X19. abs is idempotent on a token whose value is a zero or a normal
    number. *)
Theorem abs_idempotent (indeterminate : double) (tok : string) :
  (exists z, toDoubleNumber indeterminate tok = S754_zero z)
  \/ binary64.is_normal (toDoubleNumber indeterminate tok) = true ->
  abs indeterminate (abs indeterminate tok) = abs indeterminate tok.
Proof.
  unfold abs at 2 3.
  destruct (toDoubleNumber indeterminate tok) as [z|z| |sg m e];
    intros [[z' E]|N]; try discriminate E; try discriminate N.
  - reflexivity.
  - cbn [binary64.abs SFabs].
    destruct (written_normal_reads_alike indeterminate false m e N)
      as (m' & e' & R & G).
    unfold abs, toString, insert, Insertable_double. rewrite R.
    cbn [binary64.abs SFabs insert_double]. rewrite G. reflexivity.
Qed.

Lemma abs_idempotent_witness :
  abs S754_nan (abs S754_nan "-1.0E-1") = abs S754_nan "-1.0E-1"
  /\ abs S754_nan "-1.0E-1" = "0.1".
Proof.
  split; [|vm_compute; reflexivity].
  apply abs_idempotent. right. vm_compute. reflexivity.
Defined.

(** ** Comparison of integer results *)

(** An integer below 2^53 converts exactly: the significand is the
    integer shifted to 53 bits. *)
Lemma round_integer (neg : bool) (n : Z) :
  (0 < n < 2 ^ 53)%Z ->
  exists m,
    binary64.round neg (Exact.of_Z n) = S754_finite neg m (Z.log2 n - 52)
    /\ Zpos m = (n * 2 ^ (52 - Z.log2 n))%Z.
Proof.
  intros [Hp Hb].
  destruct (Z.log2_spec n Hp) as [L U].
  pose proof (Z.log2_nonneg n) as G0.
  assert (G : (Z.log2 n < 53)%Z) by (apply Z.log2_lt_pow2; lia).
  set (g := Z.log2 n) in *.
  assert (I : Exact.ilog2 (Exact.of_Z n) = g).
  { unfold Exact.ilog2, Exact.of_Z, Exact.leb, Exact.pow, Exact.scale.
    cbn [Exact.num Exact.den]. change (Z.log2 1) with 0%Z.
    rewrite Z.sub_0_r. fold g.
    destruct (Z.leb_spec 0 g); [|lia].
    unfold Exact.of_Z. cbn [Exact.num Exact.den].
    destruct (Z.leb_spec (1 * 2 ^ g * 1) (n * 1)); lia. }
  unfold binary64.round. rewrite I.
  change (Exact.num (Exact.of_Z n)) with n.
  destruct (Z.eqb_spec n 0); [lia|].
  rewrite Z.max_l by lia.
  unfold Exact.scale, Exact.of_Z. cbn [Exact.num Exact.den].
  destruct (Z.leb_spec 0 (- (g - 52))); [|lia].
  replace (- (g - 52))%Z with (52 - g)%Z by lia.
  unfold Exact.round_half_even. cbn [Exact.num Exact.den].
  rewrite Z.mod_1_r, Z.div_1_r. cbn [Z.mul Z.compare].
  assert (K : (0 < 2 ^ (52 - g))%Z) by (apply Z.pow_pos_nonneg; lia).
  assert (B : (2 ^ Z.succ g * 2 ^ (52 - g) = 2 ^ 53)%Z).
  { rewrite <- Z.pow_add_r by lia. f_equal. lia. }
  assert (M : (0 < n * 2 ^ (52 - g) < 2 ^ 53)%Z) by nia.
  destruct (Z.eqb_spec (n * 2 ^ (52 - g)) (2 ^ 53)); [lia|].
  destruct (n * 2 ^ (52 - g))%Z as [|m|m] eqn:E; try lia.
  destruct (Z.ltb_spec 971 (g - 52)); [lia|].
  exists m. split; reflexivity.
Qed.

Lemma compare_shifted (n1 n2 : Z) (m1 m2 : positive) :
  (0 < n1)%Z -> (0 < n2)%Z ->
  Zpos m1 = (n1 * 2 ^ (52 - Z.log2 n1))%Z ->
  Zpos m2 = (n2 * 2 ^ (52 - Z.log2 n2))%Z ->
  match (Z.log2 n1 - 52 ?= Z.log2 n2 - 52)%Z with
  | Lt => Lt
  | Gt => Gt
  | Eq => Pcompare m1 m2 Eq
  end = (n1 ?= n2)%Z.
Proof.
  intros P1 P2 E1 E2.
  destruct (Z.log2_spec n1 P1) as [L1 U1].
  destruct (Z.log2_spec n2 P2) as [L2 U2].
  pose proof (Z.log2_nonneg n1). pose proof (Z.log2_nonneg n2).
  destruct (Z.compare_spec (Z.log2 n1 - 52) (Z.log2 n2 - 52)) as [E|E|E].
  - change (Pcompare m1 m2 Eq) with (Z.compare (Zpos m1) (Zpos m2)).
    rewrite E1, E2. replace (Z.log2 n2) with (Z.log2 n1) by lia.
    destruct (Z.le_gt_cases (52 - Z.log2 n1) (-1)) as [Hs|Hs].
    + rewrite Z.pow_neg_r in E1 by lia. lia.
    + symmetry. apply Zmult_compare_compat_r.
      apply Z.lt_gt, Z.pow_pos_nonneg; lia.
  - symmetry. apply Z.compare_lt_iff.
    assert (2 ^ Z.succ (Z.log2 n1) <= 2 ^ Z.log2 n2)%Z
      by (apply Z.pow_le_mono_r; lia).
    lia.
  - symmetry. apply Z.compare_gt_iff.
    assert (2 ^ Z.succ (Z.log2 n2) <= 2 ^ Z.log2 n1)%Z
      by (apply Z.pow_le_mono_r; lia).
    lia.
Qed.

Lemma to_double_cases (z : Z) :
  (Z.abs z < 2 ^ 53)%Z ->
  (z = 0%Z /\ bigint.to_double z = S754_zero false)
  \/ (z <> 0%Z
      /\ exists m, bigint.to_double z
                   = S754_finite (z <? 0)%Z m (Z.log2 (Z.abs z) - 52)
                   /\ Zpos m = (Z.abs z * 2 ^ (52 - Z.log2 (Z.abs z)))%Z).
Proof.
  intros B. destruct (Z.eq_dec z 0) as [->|N]; [left; split; reflexivity|].
  right. split; [exact N|]. unfold bigint.to_double.
  apply round_integer. lia.
Qed.

(** The order of the conversions of two integers below 2^53 is the
    order of the integers. *)
Lemma compare_to_double (a b : Z) :
  (Z.abs a < 2 ^ 53)%Z -> (Z.abs b < 2 ^ 53)%Z ->
  SFcompare (bigint.to_double a) (bigint.to_double b) = Some (a ?= b)%Z.
Proof.
  intros Ha Hb.
  destruct (to_double_cases a Ha) as [[-> ->]|(Na & ma & -> & Ea)];
    destruct (to_double_cases b Hb) as [[-> ->]|(Nb & mb & -> & Eb)];
    cbn [SFcompare].
  - reflexivity.
  - f_equal. destruct (Z.ltb_spec b 0); symmetry;
      [apply Z.compare_gt_iff|apply Z.compare_lt_iff]; lia.
  - f_equal. destruct (Z.ltb_spec a 0); symmetry;
      [apply Z.compare_lt_iff|apply Z.compare_gt_iff]; lia.
  - f_equal.
    pose proof (compare_shifted (Z.abs a) (Z.abs b) ma mb
                  ltac:(lia) ltac:(lia) Ea Eb) as C.
    destruct (Z.ltb_spec a 0), (Z.ltb_spec b 0).
    + replace (a ?= b)%Z with (CompOpp (Z.abs a ?= Z.abs b)%Z).
      * rewrite <- C.
        destruct (Z.log2 (Z.abs a) - 52 ?= Z.log2 (Z.abs b) - 52)%Z; reflexivity.
      * rewrite <- Z.compare_antisym, !Z.abs_neq by lia.
        apply Z.compare_opp.
    + symmetry. apply Z.compare_lt_iff. lia.
    + symmetry. apply Z.compare_gt_iff. lia.
    + rewrite C, !Z.abs_eq by lia. reflexivity.
Qed.

(** X20. Integer results of magnitude below 2^53 compare as integers:
    on what calculate returns for two pairs of integer tokens, the
    comparison evaluator is the order of the values toLongNumber reads. *)
Theorem integer_comparison_is_numeric (indeterminate : double)
  (a b c d : string) (act1 act2 : ascii) (x y : string) :
  isInt a && isInt b = true ->
  isInt c && isInt d = true ->
  calculate indeterminate a b act1 = Return x ->
  calculate indeterminate c d act2 = Return y ->
  (Z.abs (toLongNumber x) < 2 ^ 53)%Z ->
  (Z.abs (toLongNumber y) < 2 ^ 53)%Z ->
  isLess indeterminate x y = (toLongNumber x <? toLongNumber y)%Z
  /\ isLessEqual indeterminate x y = (toLongNumber x <=? toLongNumber y)%Z
  /\ isGreater indeterminate x y = (toLongNumber x >? toLongNumber y)%Z
  /\ isGreaterEqual indeterminate x y = (toLongNumber x >=? toLongNumber y)%Z.
Proof.
  intros Hab Hcd Cx Cy Bx By.
  destruct (calculate_integer _ _ _ _ _ Hab Cx) as (zx & Rx & Ex).
  destruct (calculate_integer _ _ _ _ _ Hcd Cy) as (zy & Ry & Ey).
  destruct (toString_token indeterminate zx) as [_ Tx].
  destruct (toString_token indeterminate zy) as [_ Ty].
  destruct (Tx Rx) as [Lx Dx]. destruct (Ty Ry) as [Ly Dy].
  subst x y. rewrite Lx, Ly in *.
  unfold isLess, isLessEqual, isGreater, isGreaterEqual.
  rewrite Dx, Dy.
  unfold binary64.lt, binary64.le, binary64.gt, binary64.ge, SFltb, SFleb.
  rewrite (compare_to_double zx zy Bx By).
  unfold Z.ltb, Z.leb, Z.gtb, Z.geb.
  destruct (zx ?= zy)%Z; repeat split.
Qed.

Lemma integer_comparison_is_numeric_witness :
  isLess S754_nan "-9007199254740991" "9" = true
  /\ isGreaterEqual S754_nan "-9007199254740991" "9" = false.
Proof.
  assert (Cx : calculate S754_nan "-9007199254740992" "1" "+"
               = Return "-9007199254740991") by (vm_compute; reflexivity).
  assert (Cy : calculate S754_nan "0x12" "2" "/" = Return "9")
    by (vm_compute; reflexivity).
  destruct (integer_comparison_is_numeric S754_nan
              "-9007199254740992" "1" "0x12" "2" "+" "/"
              "-9007199254740991" "9" eq_refl eq_refl Cx Cy
              ltac:(vm_compute; reflexivity) ltac:(vm_compute; reflexivity))
    as (L & _ & _ & G).
  split; [exact L|exact G].
Defined.

(** ** Classes of tokens *)

(** X21. A float token is neither an integer token nor an octal one. *)
Theorem float_is_not_integer (s : string) :
  isFloat s = true -> isInt s = false /\ isOct s = false.
Proof.
  intros F. split.
  - unfold isInt. unfold isFloat in F.
    destruct (basic_string.found (basic_string.find s "." 0)); [reflexivity|].
    rewrite F. reflexivity.
  - unfold isOct. rewrite F. apply andb_false_r.
Qed.

Lemma float_is_not_integer_witness :
  isInt "01e-2" = false /\ isOct "01e-2" = false.
Proof.
  apply float_is_not_integer. reflexivity.
Defined.

(** X22. A hexadecimal token with an uppercase 'E' among its digits is
    scanned as scientific notation, and is not an integer token. *)
Theorem hex_with_E_is_not_integer (s : string) :
  isHex s = true ->
  basic_string.found (basic_string.find s "E" 0) = true ->
  isInt s = false.
Proof.
  intros H E. rewrite find_char in E.
  destruct (isHex_shape s H) as (x & l & Hx & Hs & Hl).
  rewrite isInt_scan_spec. unfold Spec.isInt.
  destruct (Spec.contains_char "." (chars s) || _ || _); [reflexivity|].
  unfold Spec.choose_mode. rewrite E, Hs, Hl. cbn [Spec.grammar].
  assert (X : isdigit x = false /\ is_e x = false /\ isspace x = false).
  { apply orb_prop in Hx. destruct Hx as [Hx|Hx];
      apply is_char_true in Hx; subst x; repeat split. }
  destruct X as (X1 & X2 & X3).
  unfold skip at 1. cbn [span]. change (isdigit "0") with true. cbv iota.
  rewrite X1. cbn [snd]. rewrite X2.
  unfold skip. cbn [span]. rewrite X3. reflexivity.
Qed.

Lemma hex_with_E_is_not_integer_witness :
  isInt "0x1E" = false /\ isInt "0x1e" = true.
Proof.
  split; [|reflexivity].
  apply hex_with_E_is_not_integer; reflexivity.
Defined.

(** ** Decimal integer tokens *)

(** What may follow the digits of a decimal integer token: suffix
    letters and white space, none of them a point or an exponent letter. *)
Lemma suffix_char (c : ascii) :
  unsigned_or_long c || isspace c = true ->
  is_char "." c = false /\ is_e c = false /\ basic_string.mem c "eE" = false.
Proof.
  destruct c as [b0 b1 b2 b3 b4 b5 b6 b7];
    destruct b0, b1, b2, b3, b4, b5, b6, b7; vm_compute;
    intros H; try discriminate H; repeat split.
Qed.

Lemma sign_char (c : ascii) :
  is_char "-" c || is_char "+" c || isspace c || isdigit c = true ->
  basic_string.mem c "eE" = false.
Proof.
  destruct c as [b0 b1 b2 b3 b4 b5 b6 b7];
    destruct b0, b1, b2, b3, b4, b5, b6, b7; vm_compute;
    intros H; try discriminate H; reflexivity.
Qed.

Lemma skip_skip_nil (p q : ascii -> bool) (l : list ascii) :
  skip q (skip p l) = [] -> forallb (fun c => p c || q c) l = true.
Proof.
  intros H. apply skip_nil_iff in H.
  rewrite (span_split p l), forallb_app. apply andb_true_intro. split.
  - pose proof (span_forallb p l) as F. rewrite forallb_forall in *.
    intros c I. rewrite (F c I). reflexivity.
  - rewrite forallb_forall in *. intros c I. rewrite (H c I). apply orb_true_r.
Qed.

Lemma sign_cases (l : list ascii) :
  l = snd (sign l)
  \/ exists c, is_char "-" c || is_char "+" c = true /\ l = c :: snd (sign l).
Proof.
  destruct l as [|c l]; [left; reflexivity|]. cbn [sign].
  destruct (is_char "-" c) eqn:M; [right; exists c; rewrite M; auto|].
  destruct (is_char "+" c) eqn:P; [right; exists c; rewrite M, P; auto|].
  left. reflexivity.
Qed.

(** X23. On a decimal integer token, neither hexadecimal nor octal nor
    scientific, whose value is not 0 and lies strictly within [bigint],
    both converters agree: toDoubleNumber gives the conversion to double
    of what toLongNumber gives. *)
Theorem decimal_token_converts_alike (indeterminate : double) (s : string) :
  isInt s = true ->
  isHex s = false -> isOct s = false ->
  basic_string.find s "E" 0 = None ->
  toLongNumber s <> 0%Z ->
  (bigint.min < toLongNumber s < bigint.max)%Z ->
  toDoubleNumber indeterminate s = bigint.to_double (toLongNumber s).
Proof.
  intros I H O E N0 B.
  assert (E' : Spec.contains_char "E" (chars s) = false)
    by (rewrite <- find_char; unfold basic_string.found; rewrite E; reflexivity).
  rewrite isInt_scan_spec in I. unfold Spec.isInt in I.
  destruct (Spec.contains_char "." (chars s)) eqn:P; [discriminate I|].
  cbn [orb] in I.
  destruct (Spec.contains_pair "E" "-" (chars s)
            || Spec.contains_pair "e" "-" (chars s)); [discriminate I|].
  unfold Spec.choose_mode in I. rewrite E', H, O in I.
  pose proof (span_split isspace (chars s)) as Cs.
  set (l := skip isspace (chars s)) in *.
  destruct (sign l) as [neg r] eqn:G. cbn [snd Spec.grammar] in I.
  pose proof (span_split isdigit r) as Cr. unfold skip in Cr.
  destruct (span isdigit r) as [ds rest] eqn:Sp. cbn [fst snd] in Cr.
  destruct ds as [|d ds]; [discriminate I|].
  unfold Spec.suffix in I.
  destruct (skip isspace (skip unsigned_or_long rest)) eqn:K; [|discriminate I].
  pose proof (skip_skip_nil _ _ _ K) as R. clear I K.
  pose proof (span_forallb isdigit r) as D. rewrite Sp in D. cbn [fst] in D.
  (* the token holds no exponent letter *)
  assert (F : basic_string.find_first_of s "eE" = None).
  { destruct (basic_string.find_first_of s "eE") eqn:F; [|reflexivity].
    exfalso.
    assert (F' : basic_string.found (basic_string.find_first_of s "eE") = true)
      by (rewrite F; reflexivity).
    rewrite find_first_of_chars in F'. unfold Spec.contains_any in F'.
    apply existsb_exists in F'. destruct F' as (c & Ic & Mc).
    rewrite Cs in Ic. apply in_app_or in Ic. destruct Ic as [Ic|Ic].
    - pose proof (span_forallb isspace (chars s)) as W.
      rewrite forallb_forall in W. specialize (W c Ic).
      rewrite sign_char in Mc by (rewrite W; repeat rewrite orb_true_r; reflexivity).
      discriminate Mc.
    - assert (Ir : In c r ->  False).
      { rewrite Cr. intros J. apply in_app_or in J. destruct J as [J|J].
        - rewrite forallb_forall in D. specialize (D c J).
          rewrite sign_char in Mc by (rewrite D; repeat rewrite orb_true_r; reflexivity).
          discriminate Mc.
        - rewrite forallb_forall in R. specialize (R c J).
          destruct (suffix_char c R) as (_ & _ & M). congruence. }
      destruct (sign_cases l) as [L|(x & Hx & L)]; rewrite G in L; cbn [snd] in L.
      + apply Ir. rewrite <- L. exact Ic.
      + rewrite L in Ic. destruct Ic as [<-|Ic]; [|auto].
        rewrite sign_char in Mc by (rewrite Hx; reflexivity). discriminate Mc. }
  (* what toLongNumber reads *)
  assert (L : toLongNumber s = clamp neg (number 10 (d :: ds))).
  { unfold toLongNumber. rewrite H, O, F. cbn [basic_string.found].
    rewrite extract_bigint_dec. fold l. rewrite G. cbn [fst snd].
    unfold Spec.signed_digits. change (of_base dec) with isdigit.
    rewrite Sp. reflexivity. }
  pose proof (number_nonneg dec (d :: ds) D) as Nn. change (base dec) with 10%Z in Nn.
  assert (V : toLongNumber s
              = (if neg then - number 10 (d :: ds) else number 10 (d :: ds))%Z).
  { rewrite L in *. unfold clamp, bigint.min, bigint.max in *. destruct neg; lia. }
  assert (Sg : (toLongNumber s <? 0)%Z = neg).
  { rewrite V. destruct neg; [apply Z.ltb_lt|apply Z.ltb_ge]; lia. }
  assert (Ab : Z.abs (toLongNumber s) = number 10 (d :: ds)).
  { rewrite V. destruct neg; lia. }
  (* what toDoubleNumber reads *)
  assert (Nl : isNullValue s = false).
  { destruct (isNullValue s) eqn:Nv; [|reflexivity]. exfalso. apply N0.
    apply isNullValue_iff in Nv. unfold Spec.null_spellings in Nv. cbn [In] in Nv.
    repeat (destruct Nv as [<-|Nv]; [reflexivity|]). contradiction. }
  unfold toDoubleNumber, toDoubleNumber_branch. rewrite H, Nl.
  unfold extract_double. fold l.
  assert (Ln : l <> []).
  { intros C. rewrite C in G. injection G as _ <-. discriminate Cr. }
  destruct l as [|c0 l0] eqn:El; [contradiction|]. rewrite G.
  assert (Hd : forall c rest', rest = c :: rest' ->
               is_char "." c = false /\ is_e c = false).
  { intros c rest' ->. cbn [forallb] in R. apply andb_prop in R.
    destruct R as [R _]. destruct (suffix_char c R) as (A1 & A2 & _). auto. }
  unfold mantissa. rewrite Sp.
  assert (T : saturate (binary64.round neg (decimal_value (d :: ds) [] 0))
              = bigint.to_double (toLongNumber s)).
  { unfold bigint.to_double. rewrite Sg, Ab.
    unfold decimal_value, Exact.scale, Exact.of_Z.
    cbn [List.length Z.of_nat Z.sub Z.opp Z.leb Z.compare Exact.num Exact.den].
    rewrite app_nil_r. change (10 ^ 0)%Z with 1%Z. rewrite Z.mul_1_r.
    pose proof (to_double_finite (toLongNumber s) (toLongNumber_in_range s)) as Fi.
    unfold bigint.to_double in Fi. rewrite Sg, Ab in Fi.
    unfold Exact.of_Z in Fi.
    destruct (binary64.round neg _); try discriminate Fi; reflexivity. }
  destruct rest as [|c rest'].
  - cbn [app]. exact T.
  - destruct (Hd c rest' eq_refl) as [A1 A2]. rewrite A1. cbn [app].
    rewrite A2. exact T.
Qed.

Lemma decimal_token_converts_alike_witness :
  toDoubleNumber S754_nan " -42uL " = bigint.to_double (toLongNumber " -42uL ")
  /\ toLongNumber " -42uL " = (-42)%Z.
Proof.
  split; [|reflexivity].
  apply decimal_token_converts_alike; try reflexivity; [discriminate|].
  split; reflexivity.
Defined.

(** ** Tokens with an exponent *)

Lemma exponent_letter (c : ascii) :
  is_e c = true ->
  isdigit c = false /\ is_char "." c = false /\ basic_string.mem c "eE" = true.
Proof.
  destruct c as [b0 b1 b2 b3 b4 b5 b6 b7];
    destruct b0, b1, b2, b3, b4, b5, b6, b7; vm_compute;
    intros H; try discriminate H; repeat split.
Qed.

Lemma digit_starts_no_word (d : ascii) (l : list ascii) :
  isdigit d = true ->
  starts_with "infinity" (d :: l) = false
  /\ starts_with "inf" (d :: l) = false
  /\ starts_with "nan" (d :: l) = false.
Proof.
  intros D. unfold starts_with.
  cbn [String.length firstn lower map text string_of_list_ascii].
  assert (I : Ascii.eqb (tolower d) "i" = false /\ Ascii.eqb (tolower d) "n" = false).
  { revert D. destruct d as [b0 b1 b2 b3 b4 b5 b6 b7];
      destruct b0, b1, b2, b3, b4, b5, b6, b7; vm_compute;
      intros H; try discriminate H; split; reflexivity. }
  destruct I as [I1 I2].
  cbn [String.eqb]. rewrite I1, I2. repeat split.
Qed.

(** The cast back of the conversion of an integer below 2^53. *)
Lemma of_double_round_integer (n : Z) :
  (0 < n < 2 ^ 53)%Z ->
  bigint.of_double (binary64.round false (Exact.of_Z n)) = n.
Proof.
  intros B. destruct (round_integer false n B) as (m & -> & Em).
  destruct B as [Hp Hb].
  pose proof (Z.log2_nonneg n) as G0.
  assert (G : (Z.log2 n < 53)%Z) by (apply Z.log2_lt_pow2; lia).
  cbn [bigint.of_double].
  assert (F : Exact.floor (binary64.magnitude m (Z.log2 n - 52)) = n).
  { unfold Exact.floor, binary64.magnitude, Exact.scale, Exact.of_Z.
    cbn [Exact.num Exact.den].
    assert (K : (0 < 2 ^ (52 - Z.log2 n))%Z) by (apply Z.pow_pos_nonneg; lia).
    destruct (Z.leb_spec 0 (Z.log2 n - 52)); cbn [Exact.num Exact.den].
    - assert (L52 : Z.log2 n = 52%Z) by lia. rewrite L52 in *.
      change (52 - 52)%Z with 0%Z in *. change (2 ^ 0)%Z with 1%Z in *.
      rewrite Z.div_1_r. lia.
    - replace (- (Z.log2 n - 52))%Z with (52 - Z.log2 n)%Z by lia.
      rewrite Em, Z.mul_1_l. apply Z.div_mul. lia. }
  rewrite F.
  assert (R : bigint.in_range n = true).
  { unfold bigint.in_range, bigint.min, bigint.max.
    apply andb_true_intro. split; apply Z.leb_le; lia. }
  rewrite R. reflexivity.
Qed.

(** X24. A token of digits (the first not '0'), an exponent letter and
    exponent digits, whose value is below 2^53, is read exactly by
    toLongNumber: the digits times the power of ten. *)
Theorem exponent_token_is_exact (d : ascii) (ds es : list ascii) (e : ascii) :
  forallb isdigit (d :: ds) = true -> is_char "0" d = false ->
  forallb isdigit es = true -> es <> [] ->
  is_e e = true ->
  (number 10 (d :: ds) * 10 ^ number 10 es < 2 ^ 53)%Z ->
  toLongNumber (text ((d :: ds) ++ e :: es))
  = (number 10 (d :: ds) * 10 ^ number 10 es)%Z.
Proof.
  intros D Z0 De Ne He B.
  set (l := ((d :: ds) ++ e :: es)%list).
  assert (C : chars (text l) = l) by apply chars_text.
  assert (Dd : isdigit d = true).
  { cbn [forallb] in D. apply andb_prop in D. tauto. }
  destruct (isdigit_class d Dd) as (Sd & Md & Pd & _).
  destruct (exponent_letter e He) as (E1 & E2 & E3).
  assert (G : sign l = (false, l)).
  { unfold l. cbn [app sign]. rewrite Md, Pd. reflexivity. }
  assert (H : isHex (text l) = false).
  { destruct (isHex (text l)) eqn:E; [|reflexivity].
    destruct (isHex_shape _ E) as (x & r & _ & _ & Hl).
    rewrite C, G in Hl. unfold l in Hl. cbn [snd app] in Hl.
    injection Hl as Hd _. subst d. discriminate Z0. }
  assert (O : isOct (text l) = false).
  { destruct (isOct (text l)) eqn:E; [|reflexivity].
    destruct (isOct_shape _ E) as (_ & r & Hl).
    rewrite C, G in Hl. unfold l in Hl. cbn [snd app] in Hl.
    injection Hl as Hd _. subst d. discriminate Z0. }
  assert (F : basic_string.found (basic_string.find_first_of (text l) "eE") = true).
  { rewrite find_first_of_chars, C. unfold Spec.contains_any.
    apply existsb_exists. exists e. split; [|exact E3].
    unfold l. apply in_or_app. right. left. reflexivity. }
  unfold toLongNumber. rewrite H, O, F.
  unfold atof, strtod. rewrite C.
  replace (skip isspace l) with l
    by (symmetry; apply skip_not_space; exact Sd).
  rewrite G. unfold strtod_unsigned.
  destruct (digit_starts_no_word d (ds ++ e :: es) Dd) as (W1 & W2 & W3).
  change (d :: ds ++ e :: es)%list with l in W1, W2, W3.
  rewrite W1, W2, W3.
  assert (Hx : match l with
               | z :: x :: r =>
                   if is_char "0" z && is_x x
                   then match mantissa isxdigit r with
                        | Some (ip, fp, r') =>
                            let '(ex, r'') := opt_exponent is_p r' in
                            Some (binary64.round false (hex_value ip fp ex), r'')
                        | None => None
                        end
                   else None
               | _ => None
               end = None).
  { unfold l. cbn [app]. destruct (ds ++ e :: es)%list; [reflexivity|].
    rewrite Z0. reflexivity. }
  rewrite Hx.
  assert (M : mantissa isdigit l = Some (d :: ds, [], e :: es)).
  { unfold mantissa, l.
    rewrite (span_app_stop isdigit (d :: ds) (e :: es) D) by (left; exact E1).
    rewrite E2. reflexivity. }
  rewrite M. cbn [opt_exponent]. rewrite He.
  assert (X : exponent es = Some (number 10 es, [])).
  { unfold exponent. destruct es as [|x es']; [contradiction|].
    assert (Dx : isdigit x = true).
    { cbn [forallb] in De. apply andb_prop in De. tauto. }
    destruct (isdigit_class x Dx) as (_ & Mx & Px & _).
    cbn [sign]. rewrite Mx, Px. rewrite (span_all isdigit (x :: es') De).
    reflexivity. }
  rewrite X. cbn [fst].
  pose proof (number_nonneg dec es De) as Ee. change (base dec) with 10%Z in Ee.
  pose proof (number_nonneg dec (d :: ds) D) as Nn. change (base dec) with 10%Z in Nn.
  assert (Np : (0 < number 10 (d :: ds))%Z).
  { destruct (Z.eq_dec (number 10 (d :: ds)) 0) as [E0|]; [|lia].
    exfalso. change (d :: ds) with ([d] ++ ds)%list in E0.
    rewrite number_app in E0.
    pose proof (number_nonneg dec ds) as Nds. change (base dec) with 10%Z in Nds.
    cbn [forallb] in D. apply andb_prop in D. destruct D as [_ Dds].
    specialize (Nds Dds).
    assert (P10 : (0 < 10 ^ Z.of_nat (List.length ds))%Z)
      by (apply Z.pow_pos_nonneg; lia).
    pose proof (number_nonneg dec [d]) as Nd. change (base dec) with 10%Z in Nd.
    specialize (Nd ltac:(cbn [forallb of_base]; rewrite Dd; reflexivity)).
    assert (N1 : number 10 [d] = 0%Z) by nia.
    revert Dd Z0 N1. clear.
    destruct d as [b0 b1 b2 b3 b4 b5 b6 b7];
      destruct b0, b1, b2, b3, b4, b5, b6, b7; vm_compute;
      intros; congruence. }
  assert (P10 : (0 < 10 ^ number 10 es)%Z) by (apply Z.pow_pos_nonneg; lia).
  replace (decimal_value (d :: ds) [] (number 10 es))
    with (Exact.of_Z (number 10 (d :: ds) * 10 ^ number 10 es)).
  - apply of_double_round_integer. nia.
  - unfold decimal_value, Exact.scale, Exact.of_Z.
    cbn [List.length Z.of_nat Exact.num Exact.den].
    rewrite app_nil_r, Z.sub_0_r.
    destruct (Z.leb_spec 0 (number 10 es)); [reflexivity|lia].
Qed.

Lemma exponent_token_is_exact_witness :
  toLongNumber "12e3" = 12000%Z /\ isInt "12e3" = false /\ isInt "12E3" = true.
Proof.
  split; [|split; reflexivity].
  apply (exponent_token_is_exact "1" ["2"%char] ["3"%char] "e");
    try reflexivity. discriminate.
Defined.

(** ** Small integers on the float path *)

Section DigitRuns.
Local Open Scope Z_scope.

Lemma digits_zero (j : nat) : digits j 0 = repeat "0"%char j.
Proof.
  induction j as [|j IH]; [reflexivity|].
  rewrite digits_S. change (0 / 10) with 0. change (0 mod 10) with 0.
  rewrite IH. change (digit_char 0) with "0"%char.
  symmetry. apply repeat_cons.
Qed.

(** The digits of [n * 10 ^ j] are those of [n] and [j] zeros. *)
Lemma digits_shift (P j : nat) (n : Z) :
  digits (P + j) (n * 10 ^ Z.of_nat j) = (digits P n ++ repeat "0"%char j)%list.
Proof.
  induction j as [|j IH].
  - rewrite Nat.add_0_r, Z.mul_1_r, app_nil_r. reflexivity.
  - rewrite Nat.add_succ_r, digits_S, Nat2Z.inj_succ, Z.pow_succ_r by lia.
    replace (n * (10 * 10 ^ Z.of_nat j)) with (n * 10 ^ Z.of_nat j * 10) by lia.
    rewrite Z.div_mul, Z.mod_mul, IH by lia.
    change (digit_char 0) with "0"%char.
    rewrite <- app_assoc. f_equal. symmetry. apply repeat_cons.
Qed.

(** More digits than a number has are zeros in front. *)
Lemma digits_lead (j P : nat) (n : Z) :
  0 <= n < 10 ^ Z.of_nat P ->
  digits (j + P) n = (repeat "0"%char j ++ digits P n)%list.
Proof.
  revert n. induction P as [|P IH]; intros n H.
  - change (10 ^ Z.of_nat 0) with 1 in H. replace n with 0 by lia.
    rewrite Nat.add_0_r, app_nil_r. apply digits_zero.
  - rewrite Nat.add_succ_r, !digits_S, IH, app_assoc; [reflexivity|].
    rewrite Nat2Z.inj_succ, Z.pow_succ_r in H by lia.
    split; [apply Z.div_pos; lia|].
    apply Z.div_lt_upper_bound; lia.
Qed.

(** The first of [P + 1] digits. *)
Lemma digits_first (P : nat) (n : Z) :
  digits (S P) n = digit_char ((n / 10 ^ Z.of_nat P) mod 10) :: digits P n.
Proof.
  revert n. induction P as [|P IH]; intros n.
  - rewrite digits_S. change (10 ^ Z.of_nat 0) with 1. rewrite Z.div_1_r.
    reflexivity.
  - rewrite digits_S, IH, (digits_S P n). cbn [app]. f_equal. f_equal.
    rewrite Nat2Z.inj_succ, Z.pow_succ_r, Z.div_div by
      (try apply Z.pow_pos_nonneg; lia).
    reflexivity.
Qed.

Lemma strip_leading_zeros_lead (j : nat) (l : list ascii) :
  l <> [] ->
  strip_leading_zeros (repeat "0"%char j ++ l) = strip_leading_zeros l.
Proof.
  intros N. induction j as [|j IH]; [reflexivity|].
  cbn [repeat app strip_leading_zeros].
  destruct (repeat "0"%char j ++ l)%list as [|c r] eqn:E.
  - destruct j; [cbn in E; contradiction|discriminate E].
  - exact IH.
Qed.

Lemma nonzero_digit_char (q : Z) :
  1 <= q < 10 -> is_char "0" (digit_char q) = false.
Proof.
  intros H.
  assert (C : q = 1 \/ q = 2 \/ q = 3 \/ q = 4 \/ q = 5
              \/ q = 6 \/ q = 7 \/ q = 8 \/ q = 9) by lia.
  repeat (destruct C as [->|C]; [reflexivity|]). subst. reflexivity.
Qed.

(** The decimal digits of a number of [k + 1] digits. *)
Lemma decimal_digits (k : nat) (n : Z) :
  10 ^ Z.of_nat k <= n < 10 ^ Z.of_nat (S k) ->
  decimal n = digits (S k) n.
Proof.
  intros [L U].
  assert (P10 : 0 < 10 ^ Z.of_nat k) by (apply Z.pow_pos_nonneg; lia).
  assert (Hk : (k <= Z.to_nat (Z.log2 n))%nat).
  { apply Nat2Z.inj_le. rewrite Z2Nat.id by apply Z.log2_nonneg.
    apply Z.log2_le_pow2; [lia|].
    apply Z.le_trans with (10 ^ Z.of_nat k); [|exact L].
    apply Z.pow_le_mono_l. lia. }
  unfold decimal.
  replace (S (Z.to_nat (Z.log2 n)))
    with ((Z.to_nat (Z.log2 n) - k) + S k)%nat by lia.
  rewrite digits_lead by lia.
  rewrite strip_leading_zeros_lead
    by (intros E; apply (f_equal (@List.length ascii)) in E;
        rewrite digits_length in E; discriminate E).
  rewrite digits_first. cbn [strip_leading_zeros].
  rewrite nonzero_digit_char; [destruct (digits k n); reflexivity|].
  rewrite Nat2Z.inj_succ, Z.pow_succ_r in U by lia.
  assert (1 <= n / 10 ^ Z.of_nat k < 10).
  { split; [apply Z.div_le_lower_bound; lia|apply Z.div_lt_upper_bound; lia]. }
  rewrite Z.mod_small; lia.
Qed.

Lemma strip_trailing_zeros_zeros (j : nat) :
  strip_trailing_zeros (repeat "0"%char j) = [].
Proof.
  unfold strip_trailing_zeros. rewrite rev_repeat.
  replace (skip (is_char "0") (repeat "0"%char j)) with (@nil ascii);
    [reflexivity|].
  symmetry. apply skip_nil_iff. induction j; [reflexivity|assumption].
Qed.

End DigitRuns.

Section SmallIntegers.
Import Exact.

(** The magnitude of the conversion of an integer below 2^53 is the
    integer. *)
Lemma integer_magnitude_value (n : Z) (m : positive) :
  (0 < n < 2 ^ 53)%Z ->
  Zpos m = (n * 2 ^ (52 - Z.log2 n))%Z ->
  value (binary64.magnitude m (Z.log2 n - 52)) = IZR n.
Proof.
  intros [Hp Hb] Em.
  pose proof (Z.log2_nonneg n) as G0.
  assert (G : (Z.log2 n < 53)%Z) by (apply Z.log2_lt_pow2; lia).
  rewrite magnitude_value, Em, mult_IZR, <- (power_IZR 2 (52 - Z.log2 n)) by lia.
  rewrite Rmult_assoc, <- power_add by lia.
  replace (52 - Z.log2 n + (Z.log2 n - 52))%Z with 0%Z by lia.
  rewrite power_0. ring.
Qed.

(** The six digits of an integer of [k + 1 <= 6] digits: its digits and
    zeros; its decimal exponent: [k]. *)
Lemma small_integer_digits (k : nat) (n : Z) (m : positive) :
  (k <= 5)%nat ->
  (10 ^ Z.of_nat k <= n < 10 ^ Z.of_nat (S k))%Z ->
  Zpos m = (n * 2 ^ (52 - Z.log2 n))%Z ->
  round_digits 6 (binary64.magnitude m (Z.log2 n - 52))
  = ((n * 10 ^ Z.of_nat (5 - k))%Z, Z.of_nat k).
Proof.
  intros Hk [L U] Em.
  assert (Pk : (0 < 10 ^ Z.of_nat k)%Z) by (apply Z.pow_pos_nonneg; lia).
  assert (Pj : (0 < 10 ^ Z.of_nat (5 - k))%Z) by (apply Z.pow_pos_nonneg; lia).
  assert (E5 : (10 ^ Z.of_nat k * 10 ^ Z.of_nat (5 - k) = 10 ^ 5)%Z).
  { rewrite <- Z.pow_add_r by lia. f_equal. lia. }
  rewrite Nat2Z.inj_succ, Z.pow_succ_r in U by lia.
  assert (B53 : (0 < n < 2 ^ 53)%Z).
  { split; [lia|]. apply Z.lt_trans with (10 ^ 6)%Z; [|reflexivity].
    change (10 ^ 6)%Z with (10 * 10 ^ 5)%Z. nia. }
  pose proof (integer_magnitude_value n m B53 Em) as V.
  apply (round_digits_unique 6 ltac:(lia)).
  - apply magnitude_positive.
  - change (Z.of_nat 6 - 1)%Z with 5%Z. change (Z.of_nat 6) with 6%Z.
    change (10 ^ 6)%Z with (10 * 10 ^ 5)%Z. nia.
  - rewrite V. change (Z.of_nat 6) with 6%Z.
    pose proof (power_pos 10 ltac:(lia) (Z.of_nat k - 6 + 1)) as T.
    assert (En : (IZR (n * 10 ^ Z.of_nat (5 - k))
                  * power 10 (Z.of_nat k - 6 + 1) = IZR n)%R).
    { rewrite mult_IZR, IZR_pow10, Rmult_assoc, <- power_add by lia.
      replace (Z.of_nat (5 - k) + (Z.of_nat k - 6 + 1))%Z with 0%Z by lia.
      rewrite power_0. ring. }
    rewrite En. split; lra.
Qed.

(** The float path writes an integer of at most six digits as the
    integer path does. *)
Lemma small_integer_text (n : Z) (m : positive) :
  (0 < n < 10 ^ 6)%Z ->
  Zpos m = (n * 2 ^ (52 - Z.log2 n))%Z ->
  style_g precision (binary64.magnitude m (Z.log2 n - 52)) = decimal n.
Proof.
  intros [Hp Hb] Em. change (10 ^ 6)%Z with 1000000%Z in Hb.
  assert (K : exists k, (k <= 5)%nat
                        /\ (10 ^ Z.of_nat k <= n < 10 ^ Z.of_nat (S k))%Z).
  { assert (C : (n < 10 \/ 10 <= n < 100 \/ 100 <= n < 1000
                 \/ 1000 <= n < 10000 \/ 10000 <= n < 100000
                 \/ 100000 <= n < 1000000)%Z) by lia.
    destruct C as [C|[C|[C|[C|[C|C]]]]];
      [exists 0%nat|exists 1%nat|exists 2%nat|exists 3%nat|exists 4%nat
      |exists 5%nat]; (split; [lia|cbn; lia]). }
  destruct K as (k & Hk & B).
  unfold style_g, precision.
  rewrite (small_integer_digits k n m Hk B Em).
  assert (R : ((-4 <=? Z.of_nat k) && (Z.of_nat k <? Z.of_nat 6))%Z = true).
  { apply andb_true_intro. split; [apply Z.leb_le|apply Z.ltb_lt]; lia. }
  rewrite R.
  replace (digits 6 (n * 10 ^ Z.of_nat (5 - k)))
    with (digits (S k + (5 - k)) (n * 10 ^ Z.of_nat (5 - k)))
    by (f_equal; lia).
  rewrite digits_shift. unfold style_f.
  destruct (Z.leb_spec 0 (Z.of_nat k)); [|lia].
  rewrite Nat2Z.id.
  rewrite <- (digits_length (S k) n) at 1 3.
  rewrite firstn_app, firstn_all, Nat.sub_diag.
  rewrite skipn_app, skipn_all, Nat.sub_diag. cbn [firstn skipn app].
  unfold fraction. rewrite strip_trailing_zeros_zeros. cbn [point_part].
  rewrite !app_nil_r. symmetry. apply decimal_digits, B.
Qed.

End SmallIntegers.

(** The conversion to double of an integer of at most six digits is
    written as the integer is. *)
Lemma small_integer_formats_alike (z : Z) :
  (Z.abs z < 10 ^ 6)%Z ->
  insert_double (bigint.to_double z) = insert_bigint z.
Proof.
  intros B. destruct (Z.eq_dec z 0) as [->|N]; [reflexivity|].
  assert (B6 : (0 < Z.abs z < 10 ^ 6)%Z) by lia.
  assert (B53 : (0 < Z.abs z < 2 ^ 53)%Z).
  { split; [lia|]. apply Z.lt_trans with (10 ^ 6)%Z; [lia|reflexivity]. }
  unfold bigint.to_double.
  destruct (round_integer (z <? 0)%Z (Z.abs z) B53) as (m & -> & Em).
  cbn [insert_double]. rewrite (small_integer_text (Z.abs z) m B6 Em).
  symmetry. apply insert_bigint_text.
Qed.

(** X25. On integer results of at most six digits the float path writes
    what the integer path wrote, and isEqual is the equality of the
    integer values: for what calculate returns on two pairs of integer
    tokens, adding "0.0" gives the same text back, and isEqual holds
    exactly when toLongNumber reads equal values. *)
Theorem small_integer_results_compare_equal (indeterminate : double)
  (a b c d : string) (act1 act2 : ascii) (x y : string) :
  isInt a && isInt b = true ->
  isInt c && isInt d = true ->
  calculate indeterminate a b act1 = Return x ->
  calculate indeterminate c d act2 = Return y ->
  (Z.abs (toLongNumber x) < 10 ^ 6)%Z ->
  (Z.abs (toLongNumber y) < 10 ^ 6)%Z ->
  add indeterminate x "0.0" = x
  /\ isEqual indeterminate x y = (toLongNumber x =? toLongNumber y)%Z.
Proof.
  intros Hab Hcd Cx Cy Bx By.
  destruct (calculate_integer _ _ _ _ _ Hab Cx) as (zx & Rx & Ex).
  destruct (calculate_integer _ _ _ _ _ Hcd Cy) as (zy & Ry & Ey).
  destruct (toString_token indeterminate zx) as [_ Tx].
  destruct (toString_token indeterminate zy) as [_ Ty].
  destruct (Tx Rx) as [Lx Dx]. destruct (Ty Ry) as [Ly Dy].
  subst x y. rewrite Lx, Ly in *.
  assert (F : forall z, (Z.abs z < 10 ^ 6)%Z ->
              text (insert_double (bigint.to_double z)) = toString z).
  { intros z Hz. rewrite (small_integer_formats_alike z Hz). reflexivity. }
  split.
  - unfold add. replace (isInt "0.0") with false by reflexivity.
    rewrite andb_false_r, Dx.
    replace (toDoubleNumber indeterminate "0.0") with (S754_zero false)
      by reflexivity.
    replace (binary64.add (bigint.to_double zx) (S754_zero false))
      with (bigint.to_double zx).
    + apply (F zx Bx).
    + assert (B53 : (Z.abs zx < 2 ^ 53)%Z)
        by (apply Z.lt_trans with (10 ^ 6)%Z; [lia|reflexivity]).
      destruct (to_double_cases zx B53) as [[_ ->]|(_ & m & -> & _)];
        reflexivity.
  - unfold isEqual. rewrite Dx, Dy.
    unfold toString at 1 2, insert at 1 2, Insertable_double.
    rewrite (F zx Bx), (F zy By).
    destruct (Z.eqb_spec zx zy) as [->|N]; [apply String.eqb_refl|].
    apply String.eqb_neq. intros E. apply N.
    rewrite <- Lx, <- Ly, E. reflexivity.
Qed.

Lemma small_integer_results_compare_equal_witness :
  add S754_nan "999999" "0.0" = "999999"
  /\ isEqual S754_nan "999999" "-5" = false.
Proof.
  assert (Cx : calculate S754_nan "1000000" "1" "-" = Return "999999")
    by (vm_compute; reflexivity).
  assert (Cy : calculate S754_nan "-0x5" "1" "*" = Return "-5")
    by (vm_compute; reflexivity).
  destruct (small_integer_results_compare_equal S754_nan
              "1000000" "1" "-0x5" "1" "-" "*" "999999" "-5"
              eq_refl eq_refl Cx Cy
              ltac:(vm_compute; reflexivity) ltac:(vm_compute; reflexivity))
    as (A & E).
  split; [exact A|exact E].
Defined.
